(** * Opioid-sim: the pharmacokinetic engine of [src/App.jsx]

    A shallow embedding of the computational core of the simulator: the
    growth heuristic, the parameter resolver, the rate-unit converter, the
    dosing timeline and the fixed-step Euler integrator.

    JavaScript numbers are IEEE 754 binary64 values.  The functions that
    only do arithmetic are written once, over an interface [JSNumber] of
    the operations the source applies to numbers, and read at two
    instances: Rocq's primitive [float] (binary64, what the program
    computes) and [R] (the exact arithmetic in which the model's equations
    are written).  Structural facts are proved for every instance; facts
    about guards and special values are proved on [float]; algebraic
    identities are proved on [R]. *)

From Stdlib Require Import ZArith Floats Reals String List Bool Lia Lra.
From Stdlib Require Import Sorted Permutation.
Import ListNotations.

Set Warnings "-inexact-float".
Set Implicit Arguments.

(** ** Numbers *)

Declare Scope num_scope.
Delimit Scope num_scope with num.

Class JSNumber (num : Type) : Type := {
  nadd : num -> num -> num;
  nsub : num -> num -> num;
  nmul : num -> num -> num;
  ndiv : num -> num -> num;
  nneg : num -> num;
  (** [a < b] and [a <= b] *)
  nltb : num -> num -> bool;
  nleb : num -> num -> bool;
  (** integer literals and integer loop counters *)
  of_Z : Z -> num;
  (** [!x] on a number: true on zero and on NaN *)
  falsy : num -> bool;
  Number_isFinite : num -> bool;
  Math_floor : num -> num;
  Math_round : num -> num;
  (** the integer a number denotes, when it denotes one *)
  to_int : num -> option Z;
  (** the largest [n] up to which [n + 1] is still computed exactly *)
  max_safe_integer : option Z;
  (** [parseFloat(x.toFixed(2))] *)
  toFixed2 : num -> num
}.

Notation "x + y" := (nadd x y) : num_scope.
Notation "x - y" := (nsub x y) : num_scope.
Notation "x * y" := (nmul x y) : num_scope.
Notation "x / y" := (ndiv x y) : num_scope.
Notation "- x" := (nneg x) : num_scope.
Notation "x <? y" := (nltb x y) (at level 70, no associativity) : num_scope.
Notation "x <=? y" := (nleb x y) (at level 70, no associativity) : num_scope.
Notation "# z" := (of_Z z%Z) (at level 1, format "# z") : num_scope.

(** ** The binary64 instance *)

Module Float64.

Local Open Scope Z_scope.

(** The double nearest to the integer [z] (exact below 2^53). *)
Definition float_of_Z (z : Z) : float :=
  SF2Prim (binary_normalize prec emax z 0 false).

(** The signed mantissa of a finite double [(-1)^s * m * 2^e]. *)
Definition signed (s : bool) (m : positive) : Z :=
  if s then Z.neg m else Z.pos m.

(** [Math.floor]: the greatest integer below or equal to the argument;
    zeros, infinities and NaN are returned as they are. *)
Definition floor (x : float) : float :=
  match Prim2SF x with
  | S754_finite s m e =>
      if 0 <=? e then x
      else float_of_Z (signed s m / 2 ^ (- e))
  | _ => x
  end.

(** [Math.round]: the nearest integer, a tie going towards +infinity; a
    negative argument that rounds to zero gives -0. *)
Definition round (x : float) : float :=
  match Prim2SF x with
  | S754_finite s m e =>
      if 0 <=? e then x
      else
        let d := 2 ^ (- e) in
        let z := (2 * signed s m + d) / (2 * d) in
        if z =? 0 then (if s then neg_zero else zero) else float_of_Z z
  | _ => x
  end.

(** The integer value of a double that holds an integer. *)
Definition int_of (x : float) : option Z :=
  match Prim2SF x with
  | S754_zero _ => Some 0
  | S754_finite s m e =>
      if 0 <=? e then Some (signed s m * 2 ^ e)
      else if (Z.pos m) mod 2 ^ (- e) =? 0 then Some (signed s m / 2 ^ (- e))
      else None
  | _ => None
  end.

(** [parseFloat(x.toFixed(2))].  [toFixed(2)] prints the integer [n] for
    which [n / 100] is nearest to the magnitude of [x] (the larger [n] on a
    tie) with two decimals and the sign of [x]; [parseFloat] reads the
    digits back as the nearest double.  A double with no fractional bits is
    its own image, which covers the exponent notation [toFixed] switches to
    from 1e21 on. *)
Definition fixed2 (x : float) : float :=
  match Prim2SF x with
  | S754_zero _ => zero
  | S754_finite s m e =>
      if 0 <=? e then x
      else
        let d := 2 ^ (- e) in
        let n := (2 * 100 * Z.pos m + d) / (2 * d) in
        match n with
        | Z.pos p =>
            SF2Prim (SFdiv prec emax (S754_finite s p 0) (S754_finite false 100 0))
        | _ => if s then neg_zero else zero
        end
  | _ => x
  end.

Definition is_falsy (x : float) : bool :=
  (PrimFloat.eqb x zero || PrimFloat.is_nan x)%bool.

(** [Math.min] and [Math.max] of two numbers: NaN if either is, and -0
    below +0. *)
Definition Math_min (a b : float) : float :=
  if (PrimFloat.is_nan a || PrimFloat.is_nan b)%bool then nan
  else if PrimFloat.ltb a b then a
  else if PrimFloat.ltb b a then b
  else if get_sign a then a else b.

Definition Math_max (a b : float) : float :=
  if (PrimFloat.is_nan a || PrimFloat.is_nan b)%bool then nan
  else if PrimFloat.ltb a b then b
  else if PrimFloat.ltb b a then a
  else if get_sign a then b else a.

End Float64.

#[export] Instance float_JSNumber : JSNumber float := {
  nadd := PrimFloat.add;
  nsub := PrimFloat.sub;
  nmul := PrimFloat.mul;
  ndiv := PrimFloat.div;
  nneg := PrimFloat.opp;
  nltb := PrimFloat.ltb;
  nleb := PrimFloat.leb;
  of_Z := Float64.float_of_Z;
  falsy := Float64.is_falsy;
  Number_isFinite := PrimFloat.is_finite;
  Math_floor := Float64.floor;
  Math_round := Float64.round;
  to_int := Float64.int_of;
  max_safe_integer := Some (2 ^ 53)%Z;
  toFixed2 := Float64.fixed2
}.

(** ** The exact instance *)

Module Exact.

Local Open Scope R_scope.

Definition ltb (a b : R) : bool := if Rlt_dec a b then true else false.
Definition leb (a b : R) : bool := if Rle_dec a b then true else false.
Definition is_zero (a : R) : bool := if Req_dec_T a 0 then true else false.
Definition floor (a : R) : R := IZR (Int_part a).
Definition round (a : R) : R := IZR (Int_part (a + / 2)).
Definition fixed2 (a : R) : R :=
  if Rlt_dec a 0 then - (IZR (Int_part (- a * 100 + / 2)) / 100)
  else IZR (Int_part (a * 100 + / 2)) / 100.

End Exact.

#[export] Instance R_JSNumber : JSNumber R := {
  nadd := Rplus;
  nsub := Rminus;
  nmul := Rmult;
  ndiv := Rdiv;
  nneg := Ropp;
  nltb := Exact.ltb;
  nleb := Exact.leb;
  of_Z := IZR;
  falsy := Exact.is_zero;
  Number_isFinite := fun _ => true;
  Math_floor := Exact.floor;
  Math_round := Exact.round;
  to_int := fun a => Some (Int_part a);
  max_safe_integer := None;
  toFixed2 := Exact.fixed2
}.

(** ** Unit conversion and the simulation engine, over any [JSNumber] *)

Section Engine.

Context {num : Type} `{JSNumber num}.

Local Open Scope string_scope.
Local Open Scope num_scope.

(** [['Morphine', 'Hydromorphone', 'Methadone'].includes(drug)] *)
Definition isMgDrug (drug : string) : bool :=
  (String.eqb drug "Morphine" || String.eqb drug "Hydromorphone"
   || String.eqb drug "Methadone")%bool.

(** The [switch] of [convertToStandardUnit]: the rate as mcg/hr. *)
Definition valInMcgHr (rate : num) (unit : string) (weight : num) : num :=
  if String.eqb unit "mcg/hr" then rate
  else if String.eqb unit "mg/hr" then rate * #1000
  else if String.eqb unit "mcg/kg/min" then rate * weight * #60
  else if String.eqb unit "mcg/min" then rate * #60
  else if String.eqb unit "mcg/kg/hr" then rate * weight
  else if String.eqb unit "mg/kg/hr" then rate * weight * #1000
  else rate.

Definition convertToStandardUnit
    (rate : num) (unit : string) (weight : num) (drug : string) : num :=
  if isMgDrug drug then valInMcgHr rate unit weight / #1000
  else valInMcgHr rate unit weight.

Record PKParameters : Type := {
  V1 : num; V2 : num; V3 : num;
  Cl : num; Q2 : num; Q3 : num;
  ke0 : num
}.

(** The events [simulateConcentration] reads, by their [type] field. *)
Inductive DoseEvent : Type :=
| bolus (time amount : num)
| infusion_start (time rate : num)
| infusion_stop (time : num).

Definition evt_time (e : DoseEvent) : num :=
  match e with
  | bolus t _ => t
  | infusion_start t _ => t
  | infusion_stop t => t
  end.

Record Sample : Type := { time : num; cp : num; ce : num }.

(** [[...events].sort((a, b) => a.time - b.time)]: [Array.prototype.sort]
    is stable, so an event goes behind exactly the events the comparator
    puts strictly before it. *)
Definition comparator (a b : DoseEvent) : num := evt_time a - evt_time b.

Fixpoint insert (x : DoseEvent) (l : list DoseEvent) : list DoseEvent :=
  match l with
  | [] => [x]
  | y :: l' => if comparator y x <? #0 then y :: insert x l' else x :: l
  end.

Definition sort (events : list DoseEvent) : list DoseEvent :=
  fold_right insert [] events.

(** The variables of the loop. *)
Record SimState : Type := {
  x1 : num; x2 : num; x3 : num; xe : num;
  currentInfusionRate : num;
  eventIndex : nat;
  data : list Sample
}.

Definition initial : SimState :=
  {| x1 := #0; x2 := #0; x3 := #0; xe := #0;
     currentInfusionRate := #0; eventIndex := 0; data := [] |}.

Definition applyEvent (scaleFactor : num) (evt : DoseEvent) (st : SimState)
  : SimState :=
  match evt with
  | bolus _ amount =>
      {| x1 := x1 st + amount * scaleFactor;
         x2 := x2 st; x3 := x3 st; xe := xe st;
         currentInfusionRate := currentInfusionRate st;
         eventIndex := S (eventIndex st); data := data st |}
  | infusion_start _ rate =>
      {| x1 := x1 st; x2 := x2 st; x3 := x3 st; xe := xe st;
         currentInfusionRate := (rate * scaleFactor) / #60;
         eventIndex := S (eventIndex st); data := data st |}
  | infusion_stop _ =>
      {| x1 := x1 st; x2 := x2 st; x3 := x3 st; xe := xe st;
         currentInfusionRate := #0;
         eventIndex := S (eventIndex st); data := data st |}
  end.

(** The inner [while]: [pending] is the queue from [eventIndex] on. *)
Fixpoint processEvents (scaleFactor t : num) (pending : list DoseEvent)
    (st : SimState) : SimState :=
  match pending with
  | [] => st
  | evt :: rest =>
      if evt_time evt <=? t
      then processEvents scaleFactor t rest (applyEvent scaleFactor evt st)
      else st
  end.

Definition finiteOr0 (x : num) : num :=
  if Number_isFinite x then x else #0.

Definition dt : num := #1 / #6.
Definition stepsPerMin : num := Math_round (#1 / dt).

(** [step % stepsPerMin === 0] for an integer [step]. *)
Definition onMinute (step : nat) : bool :=
  match to_int stepsPerMin with
  | Some z => if (z =? 0)%Z then false else (Z.rem (Z.of_nat step) z =? 0)%Z
  | None => false
  end.

Section Loop.

Variable eventQueue : list DoseEvent.
Variable params : PKParameters.
Variable scaleFactor : num.

Let k10 := Cl params / V1 params.
Let k12 := Q2 params / V1 params.
Let k21 := Q2 params / V2 params.
Let k13 := if #0 <? V3 params then Q3 params / V1 params else #0.
Let k31 := if #0 <? V3 params then Q3 params / V3 params else #0.

(** The state once the pending events of iteration [step] are applied. *)
Definition afterEvents (step : nat) (st : SimState) : SimState :=
  processEvents scaleFactor (#(Z.of_nat step) * dt)
    (skipn (eventIndex st) eventQueue) st.

(** The Euler update, the stability guard and the sampling of one
    iteration, from the state [st] left by the events. *)
Definition integrate (step : nat) (st : SimState) : SimState :=
  let t := #(Z.of_nat step) * dt in
  let dx1 := (currentInfusionRate st - (k10 + k12 + k13) * x1 st
              + k21 * x2 st + k31 * x3 st) * dt in
  let dx2 := (k12 * x1 st - k21 * x2 st) * dt in
  let dx3 := (k13 * x1 st - k31 * x3 st) * dt in
  let cp0 := x1 st / V1 params in
  let dCe := (ke0 params * (cp0 - xe st)) * dt in
  let x1' := finiteOr0 (x1 st + dx1) in
  let x2' := finiteOr0 (x2 st + dx2) in
  let x3' := finiteOr0 (x3 st + dx3) in
  let xe' := finiteOr0 (xe st + dCe) in
  let cp1 := x1' / V1 params in
  {| x1 := x1'; x2 := x2'; x3 := x3'; xe := xe';
     currentInfusionRate := currentInfusionRate st;
     eventIndex := eventIndex st;
     data :=
       if onMinute step
       then data st ++
            [{| time := Math_round t;
                cp := if Number_isFinite cp1 then toFixed2 cp1 else #0;
                ce := if Number_isFinite xe' then toFixed2 xe' else #0 |}]
       else data st |}.

Definition simStep (step : nat) (st : SimState) : SimState :=
  integrate step (afterEvents step st).

(** The state after the iterations [step = 0 .. n - 1] of the [for]. *)
Fixpoint runSteps (n : nat) : SimState :=
  match n with
  | O => initial
  | S k => simStep k (runSteps k)
  end.

End Loop.

(** How often the body of [for (step = 0; step <= totalSteps; step++)]
    runs: never when [0 <= totalSteps] fails (a negative bound or NaN),
    [totalSteps + 1] times for an integer the counter can reach, and
    without end otherwise ([None]). *)
Definition loopCount (totalSteps : num) : option nat :=
  if #0 <=? totalSteps then
    match to_int totalSteps with
    | Some z =>
        match max_safe_integer with
        | Some top => if (z <? top)%Z then Some (S (Z.to_nat z)) else None
        | None => Some (S (Z.to_nat z))
        end
    | None => None
    end
  else Some O.

Definition simulateConcentration (events : list DoseEvent)
    (params : PKParameters) (durationMinutes : num) (drugType : string)
  : option (list Sample) :=
  if (falsy (V1 params) || (V1 params <=? #0))%bool then Some []
  else
    let scaleFactor := if isMgDrug drugType then #1000 else #1 in
    let eventQueue := sort events in
    let totalSteps := Math_floor (durationMinutes / dt) in
    match loopCount totalSteps with
    | Some n => Some (data (runSteps eventQueue params scaleFactor n))
    | None => None
    end.

End Engine.

Arguments PKParameters num : clear implicits.
Arguments DoseEvent num : clear implicits.
Arguments Sample num : clear implicits.
Arguments SimState num : clear implicits.

(** ** Growth estimation (binary64) *)

Module Growth.

Local Open Scope float_scope.

Record Size : Type := { height : float; weight : float }.

Definition estimateGrowth (age : float) (gender : string) : Size :=
  if age <? 0 then {| height := 50; weight := 3 |}
  else if age =? 0 then {| height := 60; weight := 6 |}
  else if age <=? 12 then
    let h := 75 + (age - 1) * 6.8 in
    let w := 9 + (age - 1) * 3.0 in
    {| height := Float64.round h; weight := Float64.round w |}
  else if age <=? 18 then
    if String.eqb gender "male" then
      let h := 150 + (age - 12) * 3.5 in
      let w := 40 + (age - 12) * 4.2 in
      {| height := Float64.Math_min (Float64.round h) 171;
         weight := Float64.Math_min (Float64.round w) 65 |}
    else
      let h := 150 + (age - 12) * 1.5 in
      let w := 40 + (age - 12) * 2.0 in
      {| height := Float64.Math_min (Float64.round h) 158;
         weight := Float64.Math_min (Float64.round w) 53 |}
  else if String.eqb gender "male" then {| height := 171; weight := 68 |}
  else {| height := 158; weight := 53 |}.

End Growth.

(** ** The parameter resolver (binary64) *)

Section Resolver.

Local Open Scope float_scope.

(** The operator [**].  ECMAScript leaves its result
    implementation-approximated, so the resolver is read for every
    function in its place. *)
Variable Math_pow : float -> float -> float.

Local Notation "x ** y" := (Math_pow x y) (at level 30, right associativity).

(** A patient field holds a number or is missing ([undefined]). *)
Record Patient : Type := {
  age : option float;
  weight : option float;
  height : option float;
  gender : string
}.

(** The number a field is read as in arithmetic and comparisons. *)
Definition ToNumber (v : option float) : float :=
  match v with Some x => x | None => nan end.

(** [!v] *)
Definition missing (v : option float) : bool :=
  match v with Some x => Float64.is_falsy x | None => true end.

Definition calculateLBM (weight height : option float) (gender : string)
  : float :=
  if (missing height || missing weight)%bool then ToNumber weight
  else
    let weight := ToNumber weight in
    let height := ToNumber height in
    if String.eqb gender "male"
    then (1.1 * weight) - (128 * ((weight / height) ** 2))
    else (1.07 * weight) - (148 * ((weight / height) ** 2)).

Definition neutral : PKParameters float :=
  {| V1 := 1; V2 := 1; V3 := 0; Cl := 1; Q2 := 0; Q3 := 0; ke0 := 0.1 |}.

(** [params] as the chain of [if]s over drug and model leaves it, before
    the final guard on [V1]. *)
Definition modelParameters (drug model : string) (patient : Patient)
  : PKParameters float :=
  let lbm :=
    calculateLBM (weight patient) (height patient) (gender patient) in
  let age := ToNumber (age patient) in
  let weight := ToNumber (weight patient) in
  let unset :=
    {| V1 := 0; V2 := 0; V3 := 0; Cl := 0; Q2 := 0; Q3 := 0; ke0 := 0 |} in
  if String.eqb drug "Fentanyl" then
    if String.eqb model "Bae (2020) Adult" then
      let wRatio := weight / 70 in
      {| V1 := 10.1 * (wRatio ** 1.0);
         V2 := 26.5 * (wRatio ** 1.0);
         V3 := 206.0 * (wRatio ** 1.0);
         Cl := 0.704 * (wRatio ** 0.75);
         Q2 := 2.38 * (wRatio ** 0.75);
         Q3 := 1.49 * (wRatio ** 0.75);
         ke0 := 0.147 |}
    else if String.eqb model "Shafer (Adult)" then
      {| V1 := 15; V2 := 40; V3 := 200;
         Cl := 0.5; Q2 := 1.5; Q3 := 1.0;
         ke0 := 0.14 |}
    else if String.eqb model "Ginsberg (Pediatric)" then
      {| V1 := 0.5 * weight; V2 := 1.8 * weight; V3 := 8.5 * weight;
         Cl := 0.022 * weight; Q2 := 0.05 * weight; Q3 := 0.03 * weight;
         ke0 := 0.16 |}
    else if String.eqb model "Scott (Peds/Adult)" then
      let wRatio := weight / 70 in
      {| V1 := 4.61 * wRatio; V2 := 16.9 * wRatio; V3 := 189 * wRatio;
         Cl := 0.78 * wRatio; Q2 := 1.25 * wRatio; Q3 := 0.96 * wRatio;
         ke0 := 0.13 |}
    else
      let wRatio := weight / 70 in
      {| V1 := 10.1 * wRatio; V2 := 26.5 * wRatio; V3 := 206 * wRatio;
         Cl := 0.704 * (wRatio ** 0.75); Q2 := 2.38 * (wRatio ** 0.75);
         Q3 := 1.49 * (wRatio ** 0.75); ke0 := 0.147 |}
  else if String.eqb drug "Remifentanil" then
    if String.eqb model "Minto (Adult)" then
      let lbm_var := if 0 <? lbm then lbm else weight in
      {| V1 := 5.1 - 0.0201 * (age - 40) + 0.072 * (lbm_var - 55);
         V2 := 9.82 - 0.0811 * (age - 40) + 0.108 * (lbm_var - 55);
         V3 := 5.42;
         Cl := 2.6 - 0.0162 * (age - 40) + 0.0191 * (lbm_var - 55);
         Q2 := 2.05 - 0.0301 * (age - 40);
         Q3 := 0.076 - 0.00113 * (age - 40);
         ke0 := 0.595 - 0.007 * (age - 40) |}
    else if String.eqb model "Rigby-Jones (Pediatric)" then
      {| V1 := 0.7 * weight; V2 := 1.0 * weight; V3 := 0.7 * weight;
         Cl := 0.05 * weight; Q2 := 0.04 * weight; Q3 := 0.02 * weight;
         ke0 := 0.9 |}
    else unset
  else if String.eqb drug "Morphine" then
    if String.eqb model "McFarlan (Pediatric)" then
      {| V1 := 0.5 * weight; V2 := 0.9 * weight; V3 := 2.0 * weight;
         Cl := 0.03 * weight; Q2 := 0.06 * weight; Q3 := 0.015 * weight;
         ke0 := 0.01 |}
    else if String.eqb model "Maitre (Adult)" then
      {| V1 := 0.2 * weight; V2 := 0.8 * weight; V3 := 2.5 * weight;
         Cl := 0.025 * weight; Q2 := 0.05 * weight; Q3 := 0.01 * weight;
         ke0 := 0.005 |}
    else unset
  else if String.eqb drug "Hydromorphone" then
    if String.eqb model "Jeleazcov (2014) Adult" then
      let wRatio := weight / 70 in
      let ageFactor := Float64.Math_max 0.5 (1 - 0.01 * (age - 67)) in
      {| V1 := 3.35 * wRatio;
         V2 := 13.9 * wRatio;
         V3 := 145.0 * wRatio;
         Cl := 1.01 * (wRatio ** 0.75) * ageFactor;
         Q2 := 1.47 * (wRatio ** 0.75);
         Q3 := 1.41 * (wRatio ** 0.75);
         ke0 := 0.02 |}
    else if String.eqb model "Balyan (2020) Pediatric" then
      let wRatio := weight / 70 in
      {| V1 := 33.0 * (wRatio ** 1.0);
         V2 := 146.0 * (wRatio ** 1.0);
         V3 := 0;
         Cl := 0.748 * (wRatio ** 0.75);
         Q2 := 1.57 * (wRatio ** 0.75);
         Q3 := 0;
         ke0 := 0.03 |}
    else if String.eqb model "Standard (Adult)" then
      {| V1 := 0.25 * weight; V2 := 0.6 * weight; V3 := 4.0 * weight;
         Cl := 0.02 * weight; Q2 := 0.02 * weight; Q3 := 0.01 * weight;
         ke0 := 0.02 |}
    else if String.eqb model "Pediatric (Scaled)" then
      let wRatio := weight / 70 in
      {| V1 := 17.5 * wRatio; V2 := 42 * wRatio; V3 := 280 * wRatio;
         Cl := 1.4 * (wRatio ** 0.75); Q2 := 1.4 * (wRatio ** 0.75);
         Q3 := 0.7 * (wRatio ** 0.75);
         ke0 := 0.03 |}
    else
      let wRatio := weight / 70 in
      {| V1 := 3.35 * wRatio; V2 := 13.9 * wRatio; V3 := 145.0 * wRatio;
         Cl := 1.01 * (wRatio ** 0.75); Q2 := 1.47 * (wRatio ** 0.75);
         Q3 := 1.41 * (wRatio ** 0.75); ke0 := 0.02 |}
  else if String.eqb drug "Methadone" then
    let wRatio := weight / 70 in
    {| V1 := 21.5 * wRatio;
       V2 := 75.1 * wRatio;
       V3 := 484.0 * wRatio;
       Cl := (9.45 / 60) * (wRatio ** 0.75);
       Q2 := (325.0 / 60) * (wRatio ** 0.75);
       Q3 := (136.0 / 60) * (wRatio ** 0.75);
       ke0 := 0.05 |}
  else if String.eqb drug "Sufentanil" then
    if String.eqb model "Gepts (1995) Adult" then
      {| V1 := 14.2; V2 := 40.0; V3 := 217.0;
         Cl := 0.94; Q2 := 1.9; Q3 := 1.1;
         ke0 := 0.17 |}
    else if String.eqb model "Bartkowska-Sniatkowska (2016) PICU" then
      let wRatio := weight / 70 in
      {| V1 := 11.5 * wRatio;
         V2 := 40.0 * wRatio;
         V3 := 0;
         Cl := (19.5 / 60) * (wRatio ** 0.75);
         Q2 := (15.3 / 60) * (wRatio ** 0.75);
         Q3 := 0;
         ke0 := 0.15 |}
    else unset
  else unset.

(** [if (isNaN(params.V1) || params.V1 <= 0.1) params.V1 = 1.0] *)
Definition guardV1 (params : PKParameters float) : PKParameters float :=
  if (PrimFloat.is_nan (V1 params) || (V1 params <=? 0.1))%bool
  then {| V1 := 1.0; V2 := V2 params; V3 := V3 params;
          Cl := Cl params; Q2 := Q2 params; Q3 := Q3 params;
          ke0 := ke0 params |}
  else params.

Definition getPKParameters (drug model : string) (patient : Patient)
  : PKParameters float :=
  if (missing (weight patient) || (ToNumber (weight patient) <=? 0))%bool
  then neutral
  else guardV1 (modelParameters drug model patient).

End Resolver.

(** ** The dosing timeline of the application *)

Section Timeline.

Context {num : Type} `{JSNumber num}.

Local Open Scope string_scope.
Local Open Scope num_scope.

(** The entries of the [events] state, by their [type] field. *)
Inductive TimelineEvent : Type :=
| Bolus (id : Z) (time amount : num)
| Infusion (id : Z) (time rate originalRate : num) (originalUnit : string)
    (duration : num).

(** [{ ...e, time: e.time + offset }] *)
Definition shift (offset : num) (e : TimelineEvent) : TimelineEvent :=
  match e with
  | Bolus id t a => Bolus id (t + offset) a
  | Infusion id t r r0 u d => Infusion id (t + offset) r r0 u d
  end.

(** The state [addInfusion] and the simulation effect read and write.
    The form fields hold numbers, on which [parseFloat] is the identity;
    the clock label [startTime] is display state and is left out. *)
Record AppState : Type := {
  events : list TimelineEvent;
  simDuration : num;
  infusionStartTime : num;
  infusionRate : num;
  infusionUnit : string;
  infusionDuration : num;
  isInfiniteDuration : bool;
  isClockMode : bool;
  patientWeight : num;
  drug : string;
  editingId : option string
}.

Definition setEvents (evs : list TimelineEvent) (s : AppState) : AppState :=
  {| events := evs; simDuration := simDuration s;
     infusionStartTime := infusionStartTime s;
     infusionRate := infusionRate s; infusionUnit := infusionUnit s;
     infusionDuration := infusionDuration s;
     isInfiniteDuration := isInfiniteDuration s;
     isClockMode := isClockMode s; patientWeight := patientWeight s;
     drug := drug s; editingId := None |}.

Definition setSimDuration (d : num) (s : AppState) : AppState :=
  {| events := events s; simDuration := d;
     infusionStartTime := infusionStartTime s;
     infusionRate := infusionRate s; infusionUnit := infusionUnit s;
     infusionDuration := infusionDuration s;
     isInfiniteDuration := isInfiniteDuration s;
     isClockMode := isClockMode s; patientWeight := patientWeight s;
     drug := drug s; editingId := editingId s |}.

Definition setIsInfiniteDuration (b : bool) (s : AppState) : AppState :=
  {| events := events s; simDuration := simDuration s;
     infusionStartTime := infusionStartTime s;
     infusionRate := infusionRate s; infusionUnit := infusionUnit s;
     infusionDuration := infusionDuration s;
     isInfiniteDuration := b;
     isClockMode := isClockMode s; patientWeight := patientWeight s;
     drug := drug s; editingId := editingId s |}.

(** The start time and the earlier events as [addInfusion] fixes them: in
    clock mode a negative start moves the earlier events forward and
    becomes 0. *)
Definition placed (s : AppState) : num * list TimelineEvent :=
  let newStartTime := infusionStartTime s in
  if (isClockMode s && (newStartTime <? #0))%bool
  then (#0, map (shift (- newStartTime)) (events s))
  else (newStartTime, events s).

(** [addInfusion], with [now] for [Date.now()]. *)
Definition addInfusion (now : Z) (s : AppState) : AppState :=
  let '(newStartTime, currentEvents) := placed s in
  let standardRate :=
    convertToStandardUnit (infusionRate s) (infusionUnit s)
      (patientWeight s) (drug s) in
  setEvents
    (currentEvents ++
     [Infusion now newStartTime standardRate (infusionRate s)
        (infusionUnit s)
        (if isInfiniteDuration s
         then simDuration s - newStartTime + #60
         else infusionDuration s)])
    s.

(** The [forEach] of the simulation effect: what one timeline entry
    pushes onto [processedEvents]. *)
Definition expand (evt : TimelineEvent) : list (DoseEvent num) :=
  match evt with
  | Bolus _ t a => [bolus t a]
  | Infusion _ t r _ _ d => [infusion_start t r; infusion_stop (t + d)]
  end.

Definition processedEvents (evs : list TimelineEvent) : list (DoseEvent num) :=
  flat_map expand evs.

(** The simulation effect, for the parameters the resolver returned. *)
Definition runSimulation (params : PKParameters num) (s : AppState)
  : option (list (Sample num)) :=
  simulateConcentration (processedEvents (events s)) params (simDuration s)
    (drug s).

End Timeline.

Arguments TimelineEvent num : clear implicits.
Arguments AppState num : clear implicits.

(** ** Vocabulary of the statements *)

Section Vocabulary.

Context {num : Type} `{JSNumber num}.

Local Open Scope num_scope.

Definition isInfusion (e : DoseEvent num) : bool :=
  match e with
  | bolus _ _ => false
  | infusion_start _ _ => true
  | infusion_stop _ => true
  end.

Definition noInfusion (l : list (DoseEvent num)) : bool :=
  forallb (fun e => negb (isInfusion e)) l.

(** The infusion event processed last among [processed], the events
    handled so far in the order they were handled. *)
Definition lastInfusion (processed : list (DoseEvent num))
  : option (DoseEvent num) :=
  find isInfusion (rev processed).

(** The rate the specification gives the integrator once [processed] has
    been handled. *)
Definition activeRate (scaleFactor : num) (processed : list (DoseEvent num))
  : num :=
  match lastInfusion processed with
  | Some (infusion_start _ rate) => (rate * scaleFactor) / #60
  | _ => #0
  end.

(** The rate scalar of a state is the one the specification gives for the
    events of the queue handled so far. *)
Definition rateInv (eventQueue : list (DoseEvent num)) (scaleFactor : num)
    (st : SimState num) : Prop :=
  currentInfusionRate st
  = activeRate scaleFactor (firstn (eventIndex st) eventQueue).

(** [scaleFactor] of [simulateConcentration]. *)
Definition scaleOf (drugType : string) : num :=
  if isMgDrug drugType then #1000 else #1.

Section Run.

Variable eventQueue : list (DoseEvent num).
Variable params : PKParameters num.
Variable scaleFactor : num.

(** The state in which iteration [step] computes its derivatives. *)
Definition atDerivatives (step : nat) : SimState num :=
  afterEvents eventQueue scaleFactor step
    (runSteps eventQueue params scaleFactor step).

(** [Cp] as iteration [step] first reads it, for the effect-site delta. *)
Definition cpRead (step : nat) : num :=
  x1 (atDerivatives step) / V1 params.

(** [x1 / V1] and [xe] as iteration [step] leaves them. *)
Definition cpAfter (step : nat) : num :=
  x1 (runSteps eventQueue params scaleFactor (S step)) / V1 params.

Definition xeAfter (step : nat) : num :=
  xe (runSteps eventQueue params scaleFactor (S step)).

Definition sampleAfter (step : nat) : Sample num :=
  {| time := Math_round (#(Z.of_nat step) * dt);
     cp := if Number_isFinite (cpAfter step)
           then toFixed2 (cpAfter step) else #0;
     ce := if Number_isFinite (xeAfter step)
           then toFixed2 (xeAfter step) else #0 |}.

End Run.

(** The iterations among [0 .. n - 1] that push a sample. *)
Definition sampledSteps (n : nat) : list nat := filter onMinute (seq 0 n).

(** The time [t] of iteration [step]. *)
Definition stepTime (step : nat) : num := #(Z.of_nat step) * dt.

(** The condition of the inner [while] on an event. *)
Definition dueBy (t : num) (e : DoseEvent num) : bool := evt_time e <=? t.

(** The longest prefix on which a test holds. *)
Fixpoint takeWhile (f : DoseEvent num -> bool) (l : list (DoseEvent num))
  : list (DoseEvent num) :=
  match l with
  | [] => []
  | e :: l' => if f e then e :: takeWhile f l' else []
  end.

(** The events handled before iteration [step] starts. *)
Definition handledBefore (q : list (DoseEvent num)) (step : nat)
  : list (DoseEvent num) :=
  match step with
  | O => []
  | S k => takeWhile (dueBy (stepTime k)) q
  end.

(** The events the cursor has passed when iteration [step] computes its
    derivatives: those of the iterations before, and then the events of
    the queue from the cursor on that are due, up to the first that is
    not. *)
Fixpoint handledAt (q : list (DoseEvent num)) (step : nat)
  : list (DoseEvent num) :=
  match step with
  | O => takeWhile (dueBy (stepTime O)) q
  | S k =>
      handledAt q k
      ++ takeWhile (dueBy (stepTime (S k))) (skipn (length (handledAt q k)) q)
  end.

(** The amount the boluses of a list add to [x1]. *)
Fixpoint bolusSum (scaleFactor : num) (l : list (DoseEvent num)) : num :=
  match l with
  | [] => #0
  | bolus _ amount :: l' => amount * scaleFactor + bolusSum scaleFactor l'
  | _ :: l' => bolusSum scaleFactor l'
  end.

End Vocabulary.

(** Zeros and NaN of binary64, through their specification. *)
Definition isZero (x : float) : Prop :=
  exists s, Prim2SF x = S754_zero s.

Definition isZeroOrNaN (x : float) : Prop :=
  isZero x \/ Prim2SF x = S754_nan.

Definition SFle (c : option comparison) : bool :=
  match c with
  | Some Lt | Some Eq => true
  | _ => false
  end.

(** An instance of [**] for closed examples: exact on the exponents 1 and
    2, and a square-root product on 0.75. *)
Definition examplePow (x y : float) : float :=
  if PrimFloat.eqb y 1 then x
  else if PrimFloat.eqb y 2 then PrimFloat.mul x x
  else if PrimFloat.eqb y 0.75
       then PrimFloat.mul (PrimFloat.sqrt x) (PrimFloat.sqrt (PrimFloat.sqrt x))
  else nan.

(** A run of the binary64 engine in which nothing was ever dosed. *)
Definition zeroSample (s : Sample float) : Prop :=
  cp s = 0%float /\ ce s = 0%float.

Definition zeroState (st : SimState float) : Prop :=
  isZero (x1 st) /\ isZero (x2 st) /\ isZero (x3 st) /\ isZero (xe st) /\
  isZero (currentInfusionRate st) /\ Forall zeroSample (data st).

(** Closed inputs of the examples. *)
Definition heavy : Patient :=
  {| age := Some 40%float; weight := Some infinity;
     height := Some 165%float; gender := "male" |}.

Definition underweight : Patient :=
  {| age := Some 40%float; weight := Some (-5)%float;
     height := Some 165%float; gender := "male" |}.

Definition adult : Patient :=
  {| age := Some 40%float; weight := Some 60%float;
     height := Some 165%float; gender := "male" |}.

Definition form (t H : float) : AppState float :=
  {| events := []; simDuration := H; infusionStartTime := t;
     infusionRate := 1%float; infusionUnit := "mcg/kg/hr";
     infusionDuration := 60%float; isInfiniteDuration := true;
     isClockMode := false; patientWeight := 60%float;
     drug := "Fentanyl"; editingId := None |}.

(** ** Vocabulary of the exact instance *)

Module ExactRun.

Local Open Scope R_scope.

Definition byTime (a b : DoseEvent R) : Prop := evt_time a <= evt_time b.

(** What the boluses due by [t] add to [x1], and what arrives with
    iteration [n]. *)
Definition dueBolus (sf t : R) (l : list (DoseEvent R)) : R :=
  bolusSum sf (filter (dueBy t) l).

Definition arrivingBolus (sf : R) (l : list (DoseEvent R)) (n : nat) : R :=
  dueBolus sf (stepTime n) l -
  match n with O => 0 | S k => dueBolus sf (stepTime k) l end.

(** The compartments of [s] are the sums of those of [sA] and [sB]. *)
Definition additive (s sA sB : SimState R) : Prop :=
  x1 s = x1 sA + x1 sB /\ x2 s = x2 sA + x2 sB /\
  x3 s = x3 sA + x3 sB /\ xe s = xe sA + xe sB.

Definition unit_params : PKParameters R :=
  {| V1 := 1; V2 := 1; V3 := 0; Cl := 1; Q2 := 0; Q3 := 0; ke0 := / 10 |}.

End ExactRun.

(** ** Model selection *)

Section Models.

Local Open Scope string_scope.

Definition AVAILABLE_MODELS (drug : string) : option (list string) :=
  if String.eqb drug "Fentanyl" then
    Some ["Bae (2020) Adult"; "Shafer (Adult)"; "Ginsberg (Pediatric)";
          "Scott (Peds/Adult)"]
  else if String.eqb drug "Remifentanil" then
    Some ["Minto (Adult)"; "Rigby-Jones (Pediatric)"]
  else if String.eqb drug "Morphine" then
    Some ["Maitre (Adult)"; "McFarlan (Pediatric)"]
  else if String.eqb drug "Hydromorphone" then
    Some ["Jeleazcov (2014) Adult"; "Balyan (2020) Pediatric";
          "Standard (Adult)"; "Pediatric (Scaled)"]
  else if String.eqb drug "Methadone" then Some ["Standard (Adult)"]
  else if String.eqb drug "Sufentanil" then
    Some ["Gepts (1995) Adult"; "Bartkowska-Sniatkowska (2016) PICU"]
  else None.

Definition DRUG_UNITS (drug : string) : option (list string) :=
  if String.eqb drug "Fentanyl" then Some ["mcg/kg/hr"; "mcg/hr"]
  else if String.eqb drug "Remifentanil" then
    Some ["mcg/kg/min"; "mcg/hr"; "mcg/min"]
  else if String.eqb drug "Morphine" then
    Some ["mg/hr"; "mg/kg/hr"; "mcg/kg/min"]
  else if String.eqb drug "Hydromorphone" then
    Some ["mg/hr"; "mg/kg/hr"; "mcg/kg/min"]
  else if String.eqb drug "Methadone" then Some ["mg/hr"]
  else if String.eqb drug "Sufentanil" then Some ["mcg/kg/hr"; "mcg/hr"]
  else None.

(** [hay.includes(needle)] on strings. *)
Fixpoint includes (needle hay : string) : bool :=
  if String.prefix needle hay then true
  else
    match hay with
    | EmptyString => false
    | String _ rest => includes needle rest
    end.

(** [list.includes(x)] on an array of strings. *)
Definition listIncludes (x : string) (l : list string) : bool :=
  existsb (String.eqb x) l.

Definition getModelRequirements (drug model : string) : list string :=
  if (String.eqb drug "Remifentanil" && includes "Minto" model)%bool
  then ["age"; "weight"; "height"; "gender"]
  else if (String.eqb drug "Hydromorphone" && includes "Jeleazcov" model)%bool
  then ["age"; "weight"]
  else if (String.eqb drug "Fentanyl" && includes "Shafer" model)%bool
  then []
  else if String.eqb drug "Methadone" then ["weight"]
  else if String.eqb drug "Sufentanil" then ["weight"]
  else ["weight"].

Definition getBestModel (drug : string) (age : float) : string :=
  let isPeds := PrimFloat.ltb age 12 in
  if String.eqb drug "Fentanyl" then
    if isPeds then "Ginsberg (Pediatric)" else "Bae (2020) Adult"
  else if String.eqb drug "Remifentanil" then
    if isPeds then "Rigby-Jones (Pediatric)" else "Minto (Adult)"
  else if String.eqb drug "Morphine" then
    if isPeds then "McFarlan (Pediatric)" else "Maitre (Adult)"
  else if String.eqb drug "Hydromorphone" then
    if isPeds then "Balyan (2020) Pediatric" else "Jeleazcov (2014) Adult"
  else if String.eqb drug "Methadone" then "Standard (Adult)"
  else if String.eqb drug "Sufentanil" then
    if isPeds then "Bartkowska-Sniatkowska (2016) PICU"
    else "Gepts (1995) Adult"
  else "Bae (2020) Adult".

(** The effect that selects the model anew when the drug or the age
    changes: the model it leaves, or [None] where
    [AVAILABLE_MODELS[drug]] is undefined and [.includes] throws. *)
Definition autoSelectModel (drug : string) (age : float) (model : string)
  : option string :=
  let bestModel := getBestModel drug age in
  match AVAILABLE_MODELS drug with
  | None => None
  | Some models =>
      let currentModelIsForCurrentDrug := listIncludes model models in
      let isPeds := PrimFloat.ltb age 12 in
      let currentModelIsPeds := includes "Pediatric" model in
      let currentModelIsAdult := includes "Adult" model in
      if (negb currentModelIsForCurrentDrug
          || (isPeds && currentModelIsAdult)
          || (negb isPeds && currentModelIsPeds))%bool
      then Some bestModel
      else Some model
  end.

(** Two patients hold the same values in the listed fields. *)
Definition agreeOn (fields : list string) (p1 p2 : Patient) : Prop :=
  (In "age" fields -> age p1 = age p2) /\
  (In "weight" fields -> weight p1 = weight p2) /\
  (In "height" fields -> height p1 = height p2) /\
  (In "gender" fields -> gender p1 = gender p2).

End Models.

(** ** Doses scaled by a factor, and events at one time *)

Section MoreVocabulary.

Context {num : Type} `{JSNumber num}.

Local Open Scope num_scope.

Definition scaleDose (c : num) (e : DoseEvent num) : DoseEvent num :=
  match e with
  | bolus t amount => bolus t (c * amount)
  | infusion_start t rate => infusion_start t (c * rate)
  | infusion_stop t => infusion_stop t
  end.

(** The guard at the head of [simulateConcentration]. *)
Definition degenerate (params : PKParameters num) : bool :=
  (falsy (V1 params) || (V1 params <=? #0))%bool.

End MoreVocabulary.

Definition finiteState (st : SimState float) : Prop :=
  Number_isFinite (x1 st) = true /\ Number_isFinite (x2 st) = true /\
  Number_isFinite (x3 st) = true /\ Number_isFinite (xe st) = true.

Definition atTime (t : R) (e : DoseEvent R) : bool :=
  if Req_dec_T (evt_time e) t then true else false.

(** The state [st'] is the state [st] with every amount of drug, and the
    rate, multiplied by [c]. *)
Definition scaled (c : R) (st st' : SimState R) : Prop :=
  (x1 st' = c * x1 st /\ x2 st' = c * x2 st /\ x3 st' = c * x3 st /\
   xe st' = c * xe st /\
   currentInfusionRate st' = c * currentInfusionRate st)%R /\
  eventIndex st' = eventIndex st.

(** ** Rates in force, in exact arithmetic *)

(** The rate in force at iteration [k] for the events [l]: that of the
    infusion event due last. *)
Definition dueRate (sf : R) (l : list (DoseEvent R)) (k : nat) : R :=
  activeRate sf (filter (dueBy (stepTime k)) (sort (filter isInfusion l))).

(** At every iteration up to [step] the rate in force for [A] and [B]
    together is the sum of the rates in force for each. *)
Definition ratesAdd (sf : R) (A B : list (DoseEvent R)) (step : nat)
  : Prop :=
  forall k, (k <= step)%nat ->
            dueRate sf (A ++ B) k = (dueRate sf A k + dueRate sf B k)%R.

(** ** Amounts of drug, in exact arithmetic *)

Section Amounts.

Import ExactRun.

Local Open Scope R_scope.

(** A dose that is not negative. *)
Definition nonnegDose (e : DoseEvent R) : Prop :=
  match e with
  | bolus _ amount => 0 <= amount
  | infusion_start _ rate => 0 <= rate
  | infusion_stop _ => True
  end.

(** Parameters for which no rate constant empties a compartment within
    one step of a sixth of a minute. *)
Definition stepStable (p : PKParameters R) : Prop :=
  0 < V1 p /\ 0 < V2 p /\ 0 <= Cl p /\ 0 <= Q2 p /\ 0 <= Q3 p /\
  0 <= ke0 p <= 6 /\
  Cl p + Q2 p + Q3 p <= 6 * V1 p /\ Q2 p <= 6 * V2 p /\
  (0 < V3 p -> Q3 p <= 6 * V3 p).

Definition nonnegState (st : SimState R) : Prop :=
  0 <= x1 st /\ 0 <= x2 st /\ 0 <= x3 st /\ 0 <= xe st /\
  0 <= currentInfusionRate st.

(** The amount of drug in the three compartments. *)
Definition total (st : SimState R) : R := x1 st + x2 st + x3 st.

Variable l : list (DoseEvent R).
Variable p : PKParameters R.
Variable sf : R.

(** What the infusions deliver during the first [n] iterations, each at
    the rate of the infusion event due last. *)
Fixpoint infused (n : nat) : R :=
  match n with
  | O => 0
  | S k =>
      infused k
      + activeRate sf (filter (dueBy (stepTime k)) (sort (filter isInfusion l)))
        * dt
  end.

(** What the clearance [Cl] removes from the central compartment during
    the first [n] iterations. *)
Fixpoint eliminated (n : nat) : R :=
  match n with
  | O => 0
  | S k =>
      eliminated k + Cl p / V1 p * x1 (atDerivatives (sort l) p sf k) * dt
  end.

(** The boluses and the infused amount of the first [n] iterations. *)
Definition doseGiven (n : nat) : R :=
  match n with
  | O => 0
  | S k => dueBolus sf (stepTime k) l
  end + infused n.

End Amounts.

(** ** Editing the timeline *)

Section Editing.

Context {num : Type} `{JSNumber num}.

Local Open Scope string_scope.
Local Open Scope num_scope.

Definition event_id (e : TimelineEvent num) : Z :=
  match e with
  | Bolus id _ _ => id
  | Infusion id _ _ _ _ _ => id
  end.

(** [events.filter(e => e.id !== id)] *)
Definition withoutId (id : Z) (evs : list (TimelineEvent num))
  : list (TimelineEvent num) :=
  filter (fun e => negb (Z.eqb (event_id e) id)) evs.

(** The application state with the two fields of the bolus form. *)
Record DoseForm : Type := {
  form_app : AppState num;
  bolusAmount : num;
  bolusTime : num
}.

(** A string is falsy when it is empty. *)
Definition isEmpty (s : string) : bool :=
  match s with
  | EmptyString => true
  | String _ _ => false
  end.

(** The rate and the unit [editEvent] puts in the infusion form: the
    original ones when both are truthy and the unit is one of the drug's,
    the stored rate otherwise; [None] where [DRUG_UNITS[drug]] is
    undefined and [.includes] throws. *)
Definition editedRate (s : AppState num) (rate originalRate : num)
    (originalUnit : string) : option (num * string) :=
  if (negb (falsy originalRate) && negb (isEmpty originalUnit))%bool then
    match DRUG_UNITS (drug s) with
    | None => None
    | Some units =>
        if listIncludes originalUnit units
        then Some (originalRate, originalUnit)
        else Some (rate, infusionUnit s)
    end
  else Some (rate, infusionUnit s).

Definition editEvent (evt : TimelineEvent num) (f : DoseForm)
  : option DoseForm :=
  let s := form_app f in
  let remainingEvents := withoutId (event_id evt) (events s) in
  match evt with
  | Bolus _ t amount =>
      Some
        {| form_app :=
             {| events := remainingEvents; simDuration := simDuration s;
                infusionStartTime := infusionStartTime s;
                infusionRate := infusionRate s;
                infusionUnit := infusionUnit s;
                infusionDuration := infusionDuration s;
                isInfiniteDuration := isInfiniteDuration s;
                isClockMode := isClockMode s;
                patientWeight := patientWeight s;
                drug := drug s; editingId := Some "bolus" |};
           bolusAmount := amount;
           bolusTime := t |}
  | Infusion _ t rate originalRate originalUnit duration =>
      match editedRate s rate originalRate originalUnit with
      | None => None
      | Some (formRate, formUnit) =>
          Some
            {| form_app :=
                 {| events := remainingEvents; simDuration := simDuration s;
                    infusionStartTime := t;
                    infusionRate := formRate;
                    infusionUnit := formUnit;
                    infusionDuration := duration;
                    isInfiniteDuration := false;
                    isClockMode := isClockMode s;
                    patientWeight := patientWeight s;
                    drug := drug s; editingId := Some "infusion" |};
               bolusAmount := bolusAmount f;
               bolusTime := bolusTime f |}
      end
  end.

(** [parseFloat] of a number, which reads the number back from its
    decimal string: the number itself, but for [-0], whose string is
    that of [0]. *)
Definition parseFloat (x : num) : num :=
  if ((x <=? #0) && (#0 <=? x))%bool then #0 else x.

(** [addBolus], with [now] for [Date.now()]. *)
Definition addBolus (now : Z) (f : DoseForm) : DoseForm :=
  let s := form_app f in
  let newTime := parseFloat (bolusTime f) in
  let '(newTime, currentEvents) :=
    if (isClockMode s && (newTime <? #0))%bool
    then (#0, map (shift (- newTime)) (events s))
    else (newTime, events s) in
  {| form_app :=
       setEvents
         (currentEvents ++ [Bolus now newTime (parseFloat (bolusAmount f))]) s;
     bolusAmount := bolusAmount f;
     bolusTime := bolusTime f |}.

(** The infusion form as [addInfusion] reads it, every number through
    [parseFloat]. *)
Definition parsed (s : AppState num) : AppState num :=
  {| events := events s; simDuration := simDuration s;
     infusionStartTime := parseFloat (infusionStartTime s);
     infusionRate := parseFloat (infusionRate s);
     infusionUnit := infusionUnit s;
     infusionDuration := parseFloat (infusionDuration s);
     isInfiniteDuration := isInfiniteDuration s;
     isClockMode := isClockMode s; patientWeight := patientWeight s;
     drug := drug s; editingId := editingId s |}.

(** [addInfusion] on the whole form, whose fields [editEvent] may have
    set. *)
Definition addInfusionForm (now : Z) (f : DoseForm) : DoseForm :=
  {| form_app := addInfusion now (parsed (form_app f));
     bolusAmount := bolusAmount f;
     bolusTime := bolusTime f |}.

End Editing.

Arguments DoseForm num : clear implicits.

(** ** Saved traces (binary64) *)

Section Traces.

Local Open Scope string_scope.

Record Trace : Type := {
  trace_id : Z;
  name : string;
  trace_data : list (Sample float);
  color : string;
  trace_drug : string
}.

(** [model.split(' ')[0]] *)
Fixpoint firstWord (s : string) : string :=
  match s with
  | EmptyString => EmptyString
  | String c rest =>
      if String.eqb (String c EmptyString) " " then EmptyString else String c (firstWord rest)
  end.

Definition traceName (drug model : string) : string :=
  drug ++ " (" ++ firstWord model ++ ")".

(** [saveCurrentTrace], with [now] for [Date.now()] and [randomColor] for
    [getRandomColor()]. *)
Definition saveCurrentTrace (now : Z) (randomColor : string)
    (drug model : string) (simData : list (Sample float))
    (savedTraces : list Trace) : list Trace :=
  let name' := traceName drug model in
  let prevTraces :=
    filter (fun t => negb (String.eqb (name t) name')) savedTraces in
  prevTraces ++
  [{| trace_id := now; name := name'; trace_data := simData;
      color := randomColor; trace_drug := drug |}].

Definition removeTrace (id : Z) (savedTraces : list Trace) : list Trace :=
  filter (fun t => negb (Z.eqb (trace_id t) id)) savedTraces.

Definition colors : list string :=
  ["#10b981"; "#8b5cf6"; "#f59e0b"; "#ef4444"; "#3b82f6"].

Variable Math_pow : float -> float -> float.

(** The traces that the [forEach] over the models pushes from [index] on;
    [None] when a simulation does not return. *)
Fixpoint modelTraces (now : nat -> Z) (drug : string) (patient : Patient)
    (processed : list (DoseEvent float)) (simDuration : float)
    (models : list string) (index : nat) : option (list Trace) :=
  match models with
  | [] => Some []
  | m :: rest =>
      let params := getPKParameters Math_pow drug m patient in
      match simulateConcentration processed params simDuration drug with
      | None => None
      | Some data' =>
          match modelTraces now drug patient processed simDuration rest
                  (S index) with
          | None => None
          | Some traces =>
              Some
                ({| trace_id := (now index + Z.of_nat index)%Z;
                    name := traceName drug m;
                    trace_data := data';
                    color := nth (index mod 5) colors "";
                    trace_drug := drug |} :: traces)
          end
      end
  end.

(** [compareAllModels], with [now index] for the [Date.now()] of the
    iteration [index]; [None] when [AVAILABLE_MODELS[drug]] is undefined
    or a simulation does not return. *)
Definition compareAllModels (now : nat -> Z) (drug : string)
    (patient : Patient) (events : list (TimelineEvent float))
    (simDuration : float) (savedTraces : list Trace)
  : option (list Trace) :=
  match AVAILABLE_MODELS drug with
  | None => None
  | Some modelsToCompare =>
      match modelTraces now drug patient (processedEvents events)
              simDuration modelsToCompare 0 with
      | None => None
      | Some newTraces =>
          let newNames := map name newTraces in
          Some
            (filter (fun t => negb (listIncludes (name t) newNames))
               savedTraces
             ++ newTraces)%list
      end
  end.

End Traces.

(** * Facts about binary64 comparisons *)

Module Float64Facts.

Lemma compare_cont_Eq (a b : positive) :
  Pos.compare_cont Eq a b = Pos.compare a b.
Proof. reflexivity. Qed.

Ltac order_cases :=
  repeat match goal with
  | H : context [Pos.compare_cont Eq ?a ?b] |- _ =>
      rewrite (compare_cont_Eq a b) in H
  | |- context [Pos.compare_cont Eq ?a ?b] => rewrite (compare_cont_Eq a b)
  end;
  repeat match goal with
  | H : context [Z.compare ?a ?b] |- _ => destruct (Z.compare_spec a b)
  | |- context [Z.compare ?a ?b] => destruct (Z.compare_spec a b)
  | H : context [Pos.compare ?a ?b] |- _ => destruct (Pos.compare_spec a b)
  | |- context [Pos.compare ?a ?b] => destruct (Pos.compare_spec a b)
  end;
  simpl in *; subst; try discriminate; try reflexivity; try lia.

Lemma SFcompare_antisym (x y : spec_float) :
  SFcompare y x = option_map CompOpp (SFcompare x y).
Proof.
  destruct x as [[]|[]| |[] mx ex], y as [[]|[]| |[] my ey]; simpl;
    try reflexivity; order_cases.
Qed.

Lemma SFle_trans (x y z : spec_float) :
  SFle (SFcompare x y) = true -> SFle (SFcompare y z) = true ->
  SFle (SFcompare x z) = true.
Proof.
  destruct x as [[]|[]| |[] mx ex], y as [[]|[]| |[] my ey],
    z as [[]|[]| |[] mz ez];
    simpl; try reflexivity; try discriminate; intros; order_cases.
Qed.

Lemma SFcompare_None (x y : spec_float) :
  SFcompare x y = None -> x = S754_nan \/ y = S754_nan.
Proof.
  destruct x as [[]|[]| |[] mx ex], y as [[]|[]| |[] my ey]; simpl;
    intros E; try discriminate; auto.
Qed.

Local Open Scope float_scope.

Lemma leb_compare (x y : float) :
  (x <=? y) = SFle (SFcompare (Prim2SF x) (Prim2SF y)).
Proof.
  rewrite FloatAxioms.leb_spec. unfold SFleb, SFle.
  now destruct SFcompare as [[]|].
Qed.

Lemma ltb_compare (x y : float) :
  (x <? y) = match SFcompare (Prim2SF x) (Prim2SF y) with
             | Some Lt => true
             | _ => false
             end.
Proof. now rewrite FloatAxioms.ltb_spec. Qed.

Lemma eqb_compare (x y : float) :
  (x =? y) = match SFcompare (Prim2SF x) (Prim2SF y) with
             | Some Eq => true
             | _ => false
             end.
Proof. now rewrite FloatAxioms.eqb_spec. Qed.

Lemma is_nan_spec (x : float) :
  PrimFloat.is_nan x = true <-> Prim2SF x = S754_nan.
Proof.
  unfold PrimFloat.is_nan. rewrite eqb_compare.
  destruct (Prim2SF x) as [[]|[]| |[] m e]; simpl; split; intros E;
    try reflexivity; try discriminate.
  all: rewrite Z.compare_refl, Pos.compare_cont_refl in E; discriminate.
Qed.

Lemma leb_trans (x y z : float) :
  (x <=? y) = true -> (y <=? z) = true -> (x <=? z) = true.
Proof. rewrite !leb_compare. apply SFle_trans. Qed.

Lemma ltb_leb (x y : float) : (x <? y) = true -> (x <=? y) = true.
Proof. rewrite ltb_compare, leb_compare. now destruct SFcompare as [[]|]. Qed.

Lemma eqb_leb (x y : float) : (x =? y) = true -> (x <=? y) = true.
Proof. rewrite eqb_compare, leb_compare. now destruct SFcompare as [[]|]. Qed.

Lemma eqb_sym (x y : float) : (x =? y) = (y =? x).
Proof.
  rewrite !eqb_compare, (SFcompare_antisym (Prim2SF x) (Prim2SF y)).
  now destruct SFcompare as [[]|].
Qed.

Lemma ltb_leb_false (x y : float) : (x <? y) = true -> (y <=? x) = false.
Proof.
  rewrite ltb_compare, leb_compare.
  rewrite (SFcompare_antisym (Prim2SF x) (Prim2SF y)).
  now destruct SFcompare as [[]|].
Qed.

Lemma leb_ltb_false (x y : float) : (x <=? y) = true -> (y <? x) = false.
Proof.
  rewrite ltb_compare, leb_compare.
  rewrite (SFcompare_antisym (Prim2SF x) (Prim2SF y)).
  now destruct SFcompare as [[]|].
Qed.

Lemma not_leb_ltb (x y : float) :
  PrimFloat.is_nan x = false -> PrimFloat.is_nan y = false ->
  (x <=? y) = false -> (y <? x) = true.
Proof.
  intros Hx Hy. rewrite ltb_compare, leb_compare.
  rewrite (SFcompare_antisym (Prim2SF x) (Prim2SF y)).
  destruct (SFcompare (Prim2SF x) (Prim2SF y)) as [[]|] eqn:E; simpl;
    try easy.
  intros _. apply SFcompare_None in E.
  destruct E as [E|E]; apply is_nan_spec in E; congruence.
Qed.

Lemma leb_not_nan (x y : float) :
  (x <=? y) = true ->
  PrimFloat.is_nan x = false /\ PrimFloat.is_nan y = false.
Proof.
  rewrite leb_compare. intros E.
  split; apply not_true_is_false; intros N; apply is_nan_spec in N;
    rewrite N in E; simpl in E; try discriminate.
  destruct (Prim2SF x) as [[]|[]| |[] m e]; discriminate.
Qed.

(** A number above a constant is above every smaller constant, and is
    not equal to one. *)
Lemma above_leb (c d x : float) :
  (d <=? c) = true -> (c <=? x) = true -> (x <? d) = false.
Proof.
  intros Hdc Hcx. apply leb_ltb_false. now apply leb_trans with c.
Qed.

Lemma above_leb_strict (c d x : float) :
  (d <=? c) = true -> (c <? x) = true -> (x <=? d) = false.
Proof.
  intros Hdc Hcx. destruct (x <=? d) eqn:E; [|reflexivity].
  assert (L : (x <=? c) = true) by now apply leb_trans with d.
  apply ltb_leb_false in Hcx. congruence.
Qed.

Lemma above_neq (c d x : float) :
  (d <? c) = true -> (c <=? x) = true -> (x =? d) = false.
Proof.
  intros Hdc Hcx. destruct (x =? d) eqn:E; [|reflexivity].
  apply eqb_leb in E.
  assert (L : (c <=? d) = true) by now apply leb_trans with x.
  apply ltb_leb_false in Hdc. congruence.
Qed.

End Float64Facts.

(** * Facts about the engine, for every [JSNumber] *)

Section EngineFacts.

Context {num : Type} `{JSNumber num}.

Local Open Scope num_scope.

Lemma insert_perm (x : DoseEvent num) (l : list (DoseEvent num)) :
  Permutation (insert x l) (x :: l).
Proof.
  induction l as [|y l IH]; cbn [insert]; [reflexivity|].
  destruct (comparator y x <? #0); [|reflexivity].
  rewrite IH. apply perm_swap.
Qed.

Lemma sort_perm (l : list (DoseEvent num)) : Permutation (sort l) l.
Proof.
  induction l as [|x l IH]; [reflexivity|].
  change (sort (x :: l)) with (insert x (sort l)).
  rewrite insert_perm. now constructor.
Qed.

Lemma skipn_cons_firstn (A : Type) (l : list A) (i : nat) (x : A)
    (rest : list A) :
  skipn i l = x :: rest ->
  firstn (S i) l = firstn i l ++ [x] /\ skipn (S i) l = rest.
Proof.
  revert l. induction i as [|i IH]; intros l E.
  - simpl in E. subst l. split; reflexivity.
  - destruct l as [|y l]; simpl in *; [discriminate|].
    destruct (IH l E) as [E1 E2]. split; [now rewrite <- E1 | exact E2].
Qed.

Lemma sampledSteps_S (n : nat) :
  sampledSteps (S n) = sampledSteps n ++ (if onMinute n then [n] else []).
Proof.
  unfold sampledSteps. rewrite seq_S, filter_app. simpl.
  now destruct (onMinute n).
Qed.

Variable q : list (DoseEvent num).
Variable p : PKParameters num.
Variable sf : num.

Lemma runSteps_S (n : nat) :
  runSteps q p sf (S n) = integrate p n (atDerivatives q p sf n).
Proof. reflexivity. Qed.

Lemma processEvents_data (t : num) (pending : list (DoseEvent num))
    (st : SimState num) :
  data (processEvents sf t pending st) = data st.
Proof.
  revert st.
  induction pending as [|evt rest IH]; intros st; simpl; [reflexivity|].
  destruct (evt_time evt <=? t); [|reflexivity].
  rewrite IH. now destruct evt.
Qed.

(** The samples pushed by the first [n] iterations. *)
Lemma data_runSteps (n : nat) :
  data (runSteps q p sf n) = map (sampleAfter q p sf) (sampledSteps n).
Proof.
  induction n as [|n IH]; [reflexivity|].
  rewrite sampledSteps_S, map_app, <- IH, runSteps_S.
  unfold integrate. cbn [data]. unfold atDerivatives, afterEvents.
  rewrite processEvents_data.
  destruct (onMinute n); [reflexivity | now rewrite app_nil_r].
Qed.

Lemma activeRate_snoc (l : list (DoseEvent num)) (evt : DoseEvent num) :
  activeRate sf (l ++ [evt]) =
  match evt with
  | bolus _ _ => activeRate sf l
  | infusion_start _ rate => (rate * sf) / #60
  | infusion_stop _ => #0
  end.
Proof.
  unfold activeRate, lastInfusion. rewrite rev_app_distr. simpl.
  now destruct evt.
Qed.

Lemma processEvents_rate (t : num) (pending : list (DoseEvent num))
    (st : SimState num) :
  pending = skipn (eventIndex st) q -> rateInv q sf st ->
  rateInv q sf (processEvents sf t pending st).
Proof.
  revert st.
  induction pending as [|evt rest IH]; intros st E I; simpl; [exact I|].
  destruct (evt_time evt <=? t); [|exact I].
  symmetry in E. apply skipn_cons_firstn in E. destruct E as [E1 E2].
  apply IH.
  - destruct evt; cbn [applyEvent eventIndex]; now rewrite E2.
  - unfold rateInv in *.
    destruct evt; cbn [applyEvent eventIndex currentInfusionRate];
      rewrite E1, activeRate_snoc; auto.
Qed.

Lemma runSteps_rate (n : nat) : rateInv q sf (runSteps q p sf n).
Proof.
  induction n as [|n IH]; [reflexivity|].
  rewrite runSteps_S.
  assert (I : rateInv q sf (atDerivatives q p sf n))
    by (apply processEvents_rate; auto).
  exact I.
Qed.

Lemma atDerivatives_rate (step : nat) :
  rateInv q sf (atDerivatives q p sf step).
Proof. apply processEvents_rate; [reflexivity | apply runSteps_rate]. Qed.

End EngineFacts.

(** * The parameter resolver *)

Section ResolverFacts.

Import Float64Facts.

Local Open Scope string_scope.
Local Open Scope float_scope.

Variable Math_pow : float -> float -> float.

Lemma positive_truthy (w : float) :
  (0 <? w) = true -> Float64.is_falsy w = false /\ (w <=? 0) = false.
Proof.
  intros Hw. pose proof (ltb_leb_false Hw) as Hle. split; [|exact Hle].
  unfold Float64.is_falsy, zero. apply orb_false_iff. split.
  - destruct (w =? 0) eqn:E; [|reflexivity].
    apply eqb_leb in E. congruence.
  - apply ltb_leb, leb_not_nan in Hw. tauto.
Qed.

Lemma guard_passes (patient : Patient) (w : float) :
  weight patient = Some w -> (0 <? w) = true ->
  (missing (weight patient) || (ToNumber (weight patient) <=? 0))%bool
  = false.
Proof.
  intros Ew Hw. rewrite Ew. simpl.
  destruct (positive_truthy Hw) as [F L]. now rewrite F, L.
Qed.

Lemma float_0_neq_1 : (0 : float) <> 1.
Proof.
  intros E. apply (f_equal (fun x => x =? 0)) in E.
  vm_compute in E. discriminate.
Qed.

Lemma guardV1_V1 (params : PKParameters float) :
  V1 (guardV1 params) =
  if (PrimFloat.is_nan (V1 params) || (V1 params <=? 0.1))%bool then 1
  else V1 params.
Proof. unfold guardV1. now destruct (_ || _)%bool. Qed.

Lemma guardV1_above (params : PKParameters float) :
  (0.1 <? V1 (guardV1 params)) = true.
Proof.
  rewrite guardV1_V1.
  destruct (PrimFloat.is_nan (V1 params)) eqn:N; simpl; [reflexivity|].
  destruct (V1 params <=? 0.1) eqn:L; [reflexivity|].
  now apply not_leb_ltb.
Qed.

Lemma above_tenth_positive (v : float) :
  (0.1 <? v) = true -> (0 <? v) = true.
Proof.
  intros Hv. apply not_leb_ltb.
  - apply ltb_leb, leb_not_nan in Hv. tauto.
  - reflexivity.
  - now apply above_leb_strict with (c := 0.1).
Qed.

(** C3, as amended.  For every drug, model and patient the resolver
    returns [V1 > 0.1], hence [V1 > 0]: it returns the neutral defaults, or
    the computed [V1] replaced by exactly 1.0 when that is NaN or at most
    0.1 (which takes in -Infinity) and kept as computed otherwise (which
    takes in +Infinity). *)
Theorem getPKParameters_V1_guard (drug model : string) (patient : Patient) :
  let p := getPKParameters Math_pow drug model patient in
  let computed := V1 (modelParameters Math_pow drug model patient) in
  (0.1 <? V1 p) = true /\ (0 <? V1 p) = true /\
  (p = neutral \/
   V1 p = if (PrimFloat.is_nan computed || (computed <=? 0.1))%bool
          then 1 else computed).
Proof.
  intros p computed. subst p computed. unfold getPKParameters.
  destruct (_ || _)%bool.
  - repeat split; auto.
  - pose proof
      (guardV1_above (modelParameters Math_pow drug model patient)) as A.
    repeat split; [exact A | now apply above_tenth_positive |].
    right. apply guardV1_V1.
Qed.

(** C7.  For every drug and model, a patient whose weight is missing or
    at most 0 gets exactly the neutral defaults. *)
Theorem getPKParameters_invalid_weight (drug model : string)
    (patient : Patient) :
  weight patient = None \/
  (exists w, weight patient = Some w /\ (w <=? 0) = true) ->
  getPKParameters Math_pow drug model patient =
  {| V1 := 1; V2 := 1; V3 := 0; Cl := 1; Q2 := 0; Q3 := 0; ke0 := 0.1 |}.
Proof.
  intros [E | [w [E L]]]; unfold getPKParameters; rewrite E; simpl.
  - reflexivity.
  - rewrite L, orb_true_r. reflexivity.
Qed.

(** C10.  For a patient of positive weight, Remifentanil, Morphine and
    Sufentanil with a model name outside their lists get [V1 = 1.0] from
    the final guard and 0 in every other parameter, which is not the
    neutral default set; Fentanyl and Hydromorphone fall back on a
    coefficient set of their own. *)
Theorem getPKParameters_unmatched_model (model : string) (patient : Patient)
    (w : float) :
  weight patient = Some w -> (0 <? w) = true ->
  let unset :=
    {| V1 := 1; V2 := 0; V3 := 0; Cl := 0; Q2 := 0; Q3 := 0; ke0 := 0 |} in
  (model <> "Minto (Adult)" -> model <> "Rigby-Jones (Pediatric)" ->
   getPKParameters Math_pow "Remifentanil" model patient = unset) /\
  (model <> "McFarlan (Pediatric)" -> model <> "Maitre (Adult)" ->
   getPKParameters Math_pow "Morphine" model patient = unset) /\
  (model <> "Gepts (1995) Adult" ->
   model <> "Bartkowska-Sniatkowska (2016) PICU" ->
   getPKParameters Math_pow "Sufentanil" model patient = unset) /\
  unset <> neutral /\
  (model <> "Bae (2020) Adult" -> model <> "Shafer (Adult)" ->
   model <> "Ginsberg (Pediatric)" -> model <> "Scott (Peds/Adult)" ->
   getPKParameters Math_pow "Fentanyl" model patient =
   guardV1
     {| V1 := 10.1 * (w / 70); V2 := 26.5 * (w / 70);
        V3 := 206 * (w / 70);
        Cl := 0.704 * Math_pow (w / 70) 0.75;
        Q2 := 2.38 * Math_pow (w / 70) 0.75;
        Q3 := 1.49 * Math_pow (w / 70) 0.75; ke0 := 0.147 |}) /\
  (model <> "Jeleazcov (2014) Adult" -> model <> "Balyan (2020) Pediatric" ->
   model <> "Standard (Adult)" -> model <> "Pediatric (Scaled)" ->
   getPKParameters Math_pow "Hydromorphone" model patient =
   guardV1
     {| V1 := 3.35 * (w / 70); V2 := 13.9 * (w / 70);
        V3 := 145.0 * (w / 70);
        Cl := 1.01 * Math_pow (w / 70) 0.75;
        Q2 := 1.47 * Math_pow (w / 70) 0.75;
        Q3 := 1.41 * Math_pow (w / 70) 0.75; ke0 := 0.02 |}).
Proof.
  intros Ew Hw unset.
  pose proof (guard_passes _ Ew Hw) as G.
  unfold getPKParameters. rewrite G.
  assert (N : forall a b : string, a <> b -> String.eqb a b = false)
    by (intros a b; apply String.eqb_neq).
  repeat split.
  - intros N1 N2. unfold modelParameters. simpl.
    rewrite (N _ _ N1), (N _ _ N2). reflexivity.
  - intros N1 N2. unfold modelParameters. simpl.
    rewrite (N _ _ N1), (N _ _ N2). reflexivity.
  - intros N1 N2. unfold modelParameters. simpl.
    rewrite (N _ _ N1), (N _ _ N2). reflexivity.
  - intros E. apply (f_equal (@V2 float)) in E. simpl in E.
    now apply float_0_neq_1.
  - intros N1 N2 N3 N4. unfold modelParameters. simpl.
    rewrite (N _ _ N1), (N _ _ N2), (N _ _ N3), (N _ _ N4), Ew.
    reflexivity.
  - intros N1 N2 N3 N4. unfold modelParameters. simpl.
    rewrite (N _ _ N1), (N _ _ N2), (N _ _ N3), (N _ _ N4), Ew.
    reflexivity.
Qed.

End ResolverFacts.

Section ResolverExamples.

Local Open Scope string_scope.
Local Open Scope float_scope.

(** C3, the claim as stated fails: with an infinite weight the Ginsberg
    formula [0.5 * weight] computes the non-finite [V1 = Infinity], which
    is neither NaN nor at most 0.1 and is returned as it is, not as 1.0.
    (The Ginsberg branch does not use [**].) *)
Lemma infinite_V1_is_kept :
  Number_isFinite
    (V1 (modelParameters examplePow "Fentanyl" "Ginsberg (Pediatric)" heavy))
  = false /\
  V1 (getPKParameters examplePow "Fentanyl" "Ginsberg (Pediatric)" heavy)
  = infinity /\
  PrimFloat.eqb infinity 1 = false.
Proof. repeat split; vm_compute; reflexivity. Qed.

(** C7 at a weight of -5 kg. *)
Lemma getPKParameters_invalid_weight_witness :
  getPKParameters examplePow "Morphine" "Maitre (Adult)" underweight =
  {| V1 := 1; V2 := 1; V3 := 0; Cl := 1; Q2 := 0; Q3 := 0; ke0 := 0.1 |}.
Proof.
  apply (getPKParameters_invalid_weight examplePow "Morphine"
           "Maitre (Adult)" underweight).
  right. exists (-5). split; reflexivity.
Defined.

(** C10 at Morphine with a Fentanyl model name and a weight of 60 kg. *)
Lemma getPKParameters_unmatched_model_witness :
  getPKParameters examplePow "Morphine" "Bae (2020) Adult" adult =
  {| V1 := 1; V2 := 0; V3 := 0; Cl := 0; Q2 := 0; Q3 := 0; ke0 := 0 |}.
Proof.
  refine (proj1 (proj2 (@getPKParameters_unmatched_model examplePow
            "Bae (2020) Adult" adult 60 _ _)) _ _).
  - reflexivity.
  - reflexivity.
  - discriminate.
  - discriminate.
Defined.

End ResolverExamples.

(** * Growth estimation *)

Section GrowthFacts.

Import Float64Facts.
Import Growth.

Local Open Scope string_scope.
Local Open Scope float_scope.

Lemma above_skips_infant (c age : float) :
  (0 <? c) = true -> (c <=? age) = true ->
  (age <? 0) = false /\ (age =? 0) = false.
Proof.
  intros Hc Hage. split.
  - apply above_leb with (c := c); [now apply ltb_leb | exact Hage].
  - now apply above_neq with (c := c).
Qed.

(** C8.  [estimateGrowth] on the five ranges of age, and at the ages 0,
    18 and above 18 for a male: the adult reference is not reached at 18. *)
Theorem estimateGrowth_piecewise (age : float) (gender : string) :
  ((age <? 0) = true ->
   estimateGrowth age gender = {| height := 50; weight := 3 |}) /\
  ((age =? 0) = true ->
   estimateGrowth age gender = {| height := 60; weight := 6 |}) /\
  ((1 <=? age) = true -> (age <=? 12) = true ->
   estimateGrowth age gender =
   {| height := Float64.round (75 + (age - 1) * 6.8);
      weight := Float64.round (9 + (age - 1) * 3.0) |}) /\
  ((12 <? age) = true -> (age <=? 18) = true ->
   estimateGrowth age gender =
   if String.eqb gender "male" then
     {| height :=
          Float64.Math_min (Float64.round (150 + (age - 12) * 3.5)) 171;
        weight :=
          Float64.Math_min (Float64.round (40 + (age - 12) * 4.2)) 65 |}
   else
     {| height :=
          Float64.Math_min (Float64.round (150 + (age - 12) * 1.5)) 158;
        weight :=
          Float64.Math_min (Float64.round (40 + (age - 12) * 2.0)) 53 |}) /\
  ((18 <? age) = true ->
   estimateGrowth age gender =
   if String.eqb gender "male" then {| height := 171; weight := 68 |}
   else {| height := 158; weight := 53 |}) /\
  estimateGrowth 0 "male" = {| height := 60; weight := 6 |} /\
  estimateGrowth 18 "male" = {| height := 171; weight := 65 |} /\
  estimateGrowth 18.5 "male" = {| height := 171; weight := 68 |}.
Proof.
  unfold estimateGrowth. repeat split.
  - intros L. now rewrite L.
  - intros E. rewrite (leb_ltb_false (y := age) (x := 0)).
    + now rewrite E.
    + rewrite eqb_sym in E. now apply eqb_leb.
  - intros L1 L12.
    destruct (@above_skips_infant 1 age) as [A B]; [easy | easy |].
    now rewrite A, B, L12.
  - intros L12 L18.
    destruct (@above_skips_infant 12 age) as [A B];
      [easy | now apply ltb_leb |].
    now rewrite A, B, (ltb_leb_false L12), L18.
  - intros L18.
    destruct (@above_skips_infant 18 age) as [A B];
      [easy | now apply ltb_leb |].
    rewrite A, B, (ltb_leb_false L18).
    now rewrite (above_leb_strict (c := 18) (d := 12) (x := age)).
Qed.

(** C8 at the age of 7. *)
Lemma estimateGrowth_piecewise_witness :
  estimateGrowth 7 "female" =
  {| height := Float64.round (75 + (7 - 1) * 6.8);
     weight := Float64.round (9 + (7 - 1) * 3.0) |}.
Proof.
  apply (proj1 (proj2 (proj2 (estimateGrowth_piecewise 7 "female"))));
    reflexivity.
Defined.

End GrowthFacts.

(** * Unit conversion *)

Section ConverterFacts.

Local Open Scope string_scope.

(** C5, as amended.  The six units give the intermediate mcg/hr values of
    the table, any other unit gives the raw rate as the intermediate
    value, and the intermediate value is divided by 1000 exactly for
    Morphine, Hydromorphone and Methadone; so an unrecognised unit returns
    the raw rate unchanged for the other drugs only. *)
Theorem convertToStandardUnit_table (num : Type) (N : JSNumber num)
    (rate weight : num) (unit drug : string) :
  (valInMcgHr rate "mcg/hr" weight = rate /\
   valInMcgHr rate "mg/hr" weight = (rate * #1000)%num /\
   valInMcgHr rate "mcg/kg/min" weight = (rate * weight * #60)%num /\
   valInMcgHr rate "mcg/min" weight = (rate * #60)%num /\
   valInMcgHr rate "mcg/kg/hr" weight = (rate * weight)%num /\
   valInMcgHr rate "mg/kg/hr" weight = (rate * weight * #1000)%num) /\
  (~ In unit ["mcg/hr"; "mg/hr"; "mcg/kg/min"; "mcg/min"; "mcg/kg/hr";
              "mg/kg/hr"] ->
   valInMcgHr rate unit weight = rate) /\
  (In drug ["Morphine"; "Hydromorphone"; "Methadone"] ->
   convertToStandardUnit rate unit weight drug
   = (valInMcgHr rate unit weight / #1000)%num) /\
  (~ In drug ["Morphine"; "Hydromorphone"; "Methadone"] ->
   convertToStandardUnit rate unit weight drug
   = valInMcgHr rate unit weight) /\
  convertToStandardUnit 2%float "mcg/kg/min" 10%float "Fentanyl"
  = 1200%float.
Proof.
  assert (Neq : forall a b : string, a <> b -> String.eqb a b = false)
    by (intros a b; apply String.eqb_neq).
  split; [repeat split|]. split; [|split; [|split]].
  - intros NI. simpl in NI. unfold valInMcgHr.
    rewrite !Neq; [reflexivity|..]; intros E; apply NI; subst; tauto.
  - intros I. unfold convertToStandardUnit, isMgDrug. simpl in I.
    destruct I as [<-|[<-|[<-|[]]]]; reflexivity.
  - intros NI. simpl in NI. unfold convertToStandardUnit, isMgDrug.
    rewrite !Neq; [reflexivity|..]; intros E; apply NI; subst; tauto.
  - vm_compute. reflexivity.
Qed.

(** C5, the claim as stated fails: for Morphine an unrecognised unit does
    not return the raw rate 5 but 5 / 1000. *)
Lemma unknown_unit_mg_drug :
  convertToStandardUnit 5%float "mcg/day" 70%float "Morphine" = 0.005%float
  /\ PrimFloat.eqb 0.005 5 = false.
Proof. split; vm_compute; reflexivity. Qed.

(** C5 at an unrecognised unit and an mg-dosed drug. *)
Lemma convertToStandardUnit_table_witness :
  valInMcgHr 5%float "mcg/day" 70%float = 5%float /\
  convertToStandardUnit 5%float "mcg/day" 70%float "Morphine"
  = (valInMcgHr 5%float "mcg/day" 70%float / #1000)%num.
Proof.
  destruct (@convertToStandardUnit_table float float_JSNumber 5%float
              70%float "mcg/day" "Morphine") as (_ & U & M & _).
  split.
  - apply U. simpl. intros [E|[E|[E|[E|[E|[E|[]]]]]]]; discriminate E.
  - apply M. simpl. left. reflexivity.
Defined.

End ConverterFacts.

(** * The samples and the infusion rate *)

(** On binary64 the sampled iterations are the multiples of 6. *)
Lemma onMinute_binary64 (step : nat) :
  onMinute (num := float) step = (Z.of_nat step mod 6 =? 0)%Z.
Proof.
  unfold onMinute.
  replace (to_int (stepsPerMin (num := float))) with (Some 6%Z)
    by (vm_compute; reflexivity).
  cbv iota beta. change (6 =? 0)%Z with false. cbv iota.
  rewrite Z.rem_mod_nonneg by lia. reflexivity.
Qed.

Section EngineTheorems.

Context {num : Type} `{JSNumber num}.

Local Open Scope num_scope.

(** The series is the list of the samples of the sampled iterations. *)
Lemma simulateConcentration_samples (events : list (DoseEvent num))
    (params : PKParameters num) (durationMinutes : num) (drugType : string) :
  simulateConcentration events params durationMinutes drugType =
  if (falsy (V1 params) || (V1 params <=? #0))%bool then Some []
  else
    option_map
      (fun n =>
         map (sampleAfter (sort events) params (scaleOf drugType))
           (sampledSteps n))
      (loopCount (Math_floor (durationMinutes / dt))).
Proof.
  unfold simulateConcentration.
  destruct (_ || _)%bool; [reflexivity|].
  fold (scaleOf (num := num) drugType).
  destruct (loopCount _) as [n|]; [|reflexivity].
  simpl. now rewrite data_runSteps.
Qed.

Lemma activeRate_cases (sf : num) (l : list (DoseEvent num)) :
  activeRate sf l = #0 \/
  exists t rate, In (infusion_start t rate) l /\
                 activeRate sf l = (rate * sf) / #60.
Proof.
  unfold activeRate, lastInfusion.
  destruct (find isInfusion (rev l)) as [[t a|t rate|t]|] eqn:F; auto.
  right. exists t, rate. split; [|reflexivity].
  apply find_some in F. apply in_rev. tauto.
Qed.

Lemma firstn_In (A : Type) (n : nat) (l : list A) (x : A) :
  In x (firstn n l) -> In x l.
Proof.
  intros I. rewrite <- (firstn_skipn n l). apply in_or_app. now left.
Qed.

(** C1, as amended.  The series holds one sample for each sampled
    iteration (on binary64, every 6th), and the [cp] of the sample of
    iteration [step] is the two-decimal rounding of [x1 / V1] for the [x1]
    that the Euler update and the stability guard of that iteration leave
    (0 when that quotient is not finite); the [Cp] read before the update
    only enters the effect-site delta. *)
Theorem sampled_cp_after_update (events : list (DoseEvent num))
    (params : PKParameters num) (durationMinutes : num) (drugType : string) :
  let q := sort events in
  let sf := scaleOf drugType in
  simulateConcentration events params durationMinutes drugType =
  (if (falsy (V1 params) || (V1 params <=? #0))%bool then Some []
   else
     option_map (fun n => map (sampleAfter q params sf) (sampledSteps n))
       (loopCount (Math_floor (durationMinutes / dt)))) /\
  (forall step,
     onMinute (num := float) step = (Z.of_nat step mod 6 =? 0)%Z) /\
  forall step,
    let st := atDerivatives q params sf step in
    let k10 := Cl params / V1 params in
    let k12 := Q2 params / V1 params in
    let k21 := Q2 params / V2 params in
    let k13 := if #0 <? V3 params then Q3 params / V1 params else #0 in
    let k31 := if #0 <? V3 params then Q3 params / V3 params else #0 in
    let dx1 :=
      (currentInfusionRate st - (k10 + k12 + k13) * x1 st
       + k21 * x2 st + k31 * x3 st) * dt in
    let cpNew := finiteOr0 (x1 st + dx1) / V1 params in
    cpRead q params sf step = x1 st / V1 params /\
    xeAfter q params sf step
    = finiteOr0 (xe st
                 + (ke0 params * (cpRead q params sf step - xe st)) * dt) /\
    cp (sampleAfter q params sf step)
    = if Number_isFinite cpNew then toFixed2 cpNew else #0.
Proof.
  intros q sf. split; [apply simulateConcentration_samples|].
  split; [exact onMinute_binary64|].
  intros step. repeat split.
Qed.

End EngineTheorems.

Section EngineExamples.

Local Open Scope string_scope.
Local Open Scope float_scope.

(** C1, the claim as stated fails: after a bolus of 6 at time 0 under the
    neutral parameters, iteration 0 reads [Cp = 6] but the sample holds
    [cp = 5], the value after the Euler update. *)
Lemma sampled_cp_is_not_cp_read :
  simulateConcentration [bolus 0 6] neutral 0 "Fentanyl"
  = Some [{| time := 0; cp := 5; ce := 0.1 |}] /\
  toFixed2 (cpRead (sort [bolus 0 6]) neutral (scaleOf "Fentanyl") 0) = 6 /\
  (5 =? 6) = false.
Proof. repeat split; vm_compute; reflexivity. Qed.

End EngineExamples.

(** * A run without events, on binary64 *)

Create HintDb zn.

Section ZeroFacts.

Import Float64Facts.

Local Open Scope float_scope.

Lemma isZero_ZN (x : float) : isZero x -> isZeroOrNaN x.
Proof. now left. Qed.

Lemma isZero_0 : isZero 0.
Proof. now exists false. Qed.

Lemma mul_ZN_r (k x : float) : isZeroOrNaN x -> isZeroOrNaN (k * x).
Proof.
  unfold isZeroOrNaN, isZero. rewrite mul_spec.
  intros [[s E]|E]; rewrite E;
    destruct (Prim2SF k) as [sk|sk| |sk mk ek]; simpl; eauto.
Qed.

Lemma mul_ZN_l (x k : float) : isZeroOrNaN x -> isZeroOrNaN (x * k).
Proof.
  unfold isZeroOrNaN, isZero. rewrite mul_spec.
  intros [[s E]|E]; rewrite E;
    destruct (Prim2SF k) as [sk|sk| |sk mk ek]; simpl; eauto.
Qed.

Lemma div_ZN (x v : float) : isZeroOrNaN x -> isZeroOrNaN (x / v).
Proof.
  unfold isZeroOrNaN, isZero. rewrite div_spec.
  intros [[s E]|E]; rewrite E;
    destruct (Prim2SF v) as [sk|sk| |sk mk ek]; simpl; eauto.
Qed.

Lemma add_ZN (x y : float) :
  isZeroOrNaN x -> isZeroOrNaN y -> isZeroOrNaN (x + y).
Proof.
  unfold isZeroOrNaN, isZero. rewrite add_spec.
  intros [[s E]|E] [[s' E']|E']; rewrite E, E'; simpl; eauto;
    destruct s; try destruct s'; eauto.
Qed.

Lemma sub_ZN (x y : float) :
  isZeroOrNaN x -> isZeroOrNaN y -> isZeroOrNaN (x - y).
Proof.
  unfold isZeroOrNaN, isZero. rewrite sub_spec.
  intros [[s E]|E] [[s' E']|E']; rewrite E, E'; simpl; eauto;
    destruct s; try destruct s'; eauto.
Qed.

Lemma is_finite_nan (x : float) :
  Prim2SF x = S754_nan -> PrimFloat.is_finite x = false.
Proof.
  intros E. apply is_nan_spec in E. unfold PrimFloat.is_finite.
  now rewrite E.
Qed.

(** The stability guard turns a zero or a NaN into a zero. *)
Lemma finiteOr0_ZN (x : float) : isZeroOrNaN x -> isZero (finiteOr0 x).
Proof.
  unfold finiteOr0. intros [Z|N].
  - destruct (Number_isFinite x); [exact Z | exact isZero_0].
  - simpl. rewrite (is_finite_nan _ N). exact isZero_0.
Qed.

(** A sampled zero or NaN is recorded as 0. *)
Lemma rounded_ZN (x : float) :
  isZeroOrNaN x -> (if Number_isFinite x then toFixed2 x else of_Z 0) = 0.
Proof.
  intros [[s E]|N]; simpl.
  - destruct (PrimFloat.is_finite x); [|reflexivity].
    unfold Float64.fixed2. now rewrite E.
  - now rewrite (is_finite_nan _ N).
Qed.

#[local] Hint Resolve isZero_ZN mul_ZN_r mul_ZN_l div_ZN add_ZN sub_ZN : zn.

Lemma integrate_zero (p : PKParameters float) (step : nat)
    (st : SimState float) :
  zeroState st -> zeroState (integrate p step st).
Proof.
  intros (Z1 & Z2 & Z3 & Ze & Zr & D).
  unfold zeroState, integrate. cbn [x1 x2 x3 xe currentInfusionRate data].
  repeat split; try (apply finiteOr0_ZN; auto 10 with zn); try assumption.
  destruct (onMinute step); [|exact D].
  apply Forall_app. split; [exact D|].
  constructor; [|constructor].
  split; cbn [cp ce]; apply rounded_ZN.
  - apply div_ZN, isZero_ZN, finiteOr0_ZN. auto 10 with zn.
  - apply isZero_ZN, finiteOr0_ZN. auto 10 with zn.
Qed.

Lemma initial_zero : zeroState (initial (num := float)).
Proof. repeat split; try (now exists false). constructor. Qed.

Lemma runSteps_nil_zero (p : PKParameters float) (sf : float) (n : nat) :
  zeroState (runSteps [] p sf n).
Proof.
  induction n as [|n IH]; [exact initial_zero|].
  rewrite runSteps_S. unfold atDerivatives, afterEvents.
  rewrite skipn_nil. simpl processEvents.
  now apply integrate_zero.
Qed.

(** The loop ends for every whole number of minutes up to the 2880 the
    duration field admits, after [6 * minutes + 1] iterations. *)
Lemma whole_minutes_loopCount :
  forallb
    (fun n =>
       match loopCount (Math_floor (of_Z (Z.of_nat n) / dt)) with
       | Some k => Nat.eqb k (6 * n + 1)
       | None => false
       end)
    (seq 0 2881)
  = true.
Proof. vm_compute. reflexivity. Qed.

Lemma simulateConcentration_returns (events : list (DoseEvent float))
    (params : PKParameters float) (drugType : string) (minutes : nat) :
  (minutes <= 2880)%nat ->
  exists series,
    simulateConcentration events params (of_Z (Z.of_nat minutes)) drugType
    = Some series.
Proof.
  intros L. unfold simulateConcentration.
  destruct (_ || _)%bool; [now exists []|].
  pose proof whole_minutes_loopCount as W.
  rewrite forallb_forall in W. specialize (W minutes).
  destruct (loopCount _) as [k|]; [eauto|].
  assert (I : In minutes (seq 0 2881)) by (apply in_seq; lia).
  specialize (W I). discriminate W.
Qed.

End ZeroFacts.

(** * Linearity, in exact arithmetic *)

Section ExactFacts.

Import ExactRun.

Local Open Scope R_scope.

Local Abbreviation event := (DoseEvent R).

Lemma ltb_true (a b : R) : Exact.ltb a b = true <-> a < b.
Proof. unfold Exact.ltb. destruct (Rlt_dec a b); split; intros; try easy. Qed.

Lemma leb_true (a b : R) : Exact.leb a b = true <-> a <= b.
Proof. unfold Exact.leb. destruct (Rle_dec a b); split; intros; try easy. Qed.

Lemma comparator_neg (y x : event) :
  nltb (comparator y x) (of_Z 0) = true <-> evt_time y < evt_time x.
Proof.
  unfold comparator. simpl. rewrite ltb_true. lra.
Qed.

Lemma insert_sorted (x : event) (l : list event) :
  StronglySorted byTime l -> StronglySorted byTime (insert x l).
Proof.
  induction 1 as [|y l S IH F]; cbn [insert].
  - repeat constructor.
  - destruct (nltb (comparator y x) (of_Z 0)) eqn:C.
    + apply comparator_neg in C. constructor; [exact IH|].
      rewrite insert_perm. constructor; [unfold byTime; lra | exact F].
    + assert (L : evt_time x <= evt_time y).
      { destruct (Rle_dec (evt_time x) (evt_time y)); [assumption|].
        assert (C' : nltb (comparator y x) (of_Z 0) = true) by (apply comparator_neg; lra).
        congruence. }
      constructor; [now constructor|].
      constructor; [exact L|].
      eapply Forall_impl; [|exact F]. unfold byTime. intros; lra.
Qed.

Lemma sort_sorted (l : list event) : StronglySorted byTime (sort l).
Proof.
  induction l as [|x l IH]; [constructor|].
  change (sort (x :: l)) with (insert x (sort l)). now apply insert_sorted.
Qed.

Lemma insert_first (x : event) (l : list event) :
  Forall (byTime x) l -> insert x l = x :: l.
Proof.
  intros F. destruct l as [|y l]; [reflexivity|]. cbn [insert].
  inversion F as [|? ? L _]; subst.
  destruct (nltb (comparator y x) (of_Z 0)) eqn:C; [|reflexivity].
  apply comparator_neg in C. unfold byTime in L. lra.
Qed.

Lemma filter_insert (g : event -> bool) (x : event) (l : list event) :
  StronglySorted byTime l ->
  filter g (insert x l) = if g x then insert x (filter g l) else filter g l.
Proof.
  induction 1 as [|y l S IH F]; cbn [insert filter].
  - now destruct (g x).
  - destruct (nltb (comparator y x) (of_Z 0)) eqn:C; cbn [filter].
    + rewrite IH. destruct (g y), (g x); cbn [insert]; try reflexivity.
      now rewrite C.
    + destruct (g x) eqn:Gx; [|reflexivity].
      symmetry. apply insert_first.
      assert (L : evt_time x <= evt_time y).
      { destruct (Rle_dec (evt_time x) (evt_time y)); [assumption|].
        assert (C' : nltb (comparator y x) (of_Z 0) = true) by (apply comparator_neg; lra).
        congruence. }
      apply Forall_forall. intros z Hz.
      assert (Hin : In z (y :: l)).
      { destruct (g y); [|right]; try (apply filter_In in Hz; tauto).
        destruct Hz as [->|Hz]; [now left|right]. apply filter_In in Hz. tauto. }
      destruct Hin as [->|Hin]; [exact L|].
      rewrite Forall_forall in F. specialize (F z Hin). unfold byTime in *. lra.
Qed.

Lemma filter_sort (g : event -> bool) (l : list event) :
  filter g (sort l) = sort (filter g l).
Proof.
  induction l as [|x l IH]; [reflexivity|].
  change (sort (x :: l)) with (insert x (sort l)).
  rewrite filter_insert by apply sort_sorted.
  rewrite IH. cbn [filter]. now destruct (g x).
Qed.


(** ** Prefixes *)

Lemma filter_none (f : event -> bool) (l : list event) :
  Forall (fun z => f z = false) l -> filter f l = [].
Proof.
  induction 1 as [|z l Hz _ IH]; cbn [filter]; [reflexivity|].
  now rewrite Hz.
Qed.

Lemma dueBy_true (t : R) (e : event) : dueBy t e = true <-> evt_time e <= t.
Proof. unfold dueBy. simpl. apply leb_true. Qed.

Lemma dueBy_false (t : R) (e : event) : dueBy t e = false <-> t < evt_time e.
Proof.
  rewrite <- not_true_iff_false, dueBy_true. lra.
Qed.

Lemma takeWhile_filter (t : R) (l : list event) :
  StronglySorted byTime l -> takeWhile (dueBy t) l = filter (dueBy t) l.
Proof.
  induction 1 as [|y l S IH F]; cbn [takeWhile filter]; [reflexivity|].
  destruct (dueBy t y) eqn:D; [now rewrite IH|].
  symmetry. apply filter_none.
  eapply Forall_impl; [|exact F]. intros z Hz.
  apply dueBy_false. apply dueBy_false in D. unfold byTime in Hz. lra.
Qed.

Lemma takeWhile_mono (f g : event -> bool) (l : list event) :
  (forall e, f e = true -> g e = true) ->
  takeWhile g l =
  takeWhile f l ++ takeWhile g (skipn (length (takeWhile f l)) l).
Proof.
  intros M. induction l as [|e l IH]; [reflexivity|].
  cbn [takeWhile]. destruct (f e) eqn:F.
  - rewrite (M e F). cbn [length skipn app]. now rewrite <- IH.
  - reflexivity.
Qed.

Lemma firstn_takeWhile (f : event -> bool) (l : list event) :
  firstn (length (takeWhile f l)) l = takeWhile f l.
Proof.
  induction l as [|e l IH]; [reflexivity|].
  cbn [takeWhile]. destruct (f e); [|reflexivity].
  cbn [length firstn]. now rewrite IH.
Qed.

Lemma stepTime_exact (k : nat) :
  stepTime (num := R) k = IZR (Z.of_nat k) * (1 / 6).
Proof. reflexivity. Qed.

Lemma stepTime_mono (k : nat) : stepTime (num := R) k <= stepTime (S k).
Proof.
  rewrite !stepTime_exact, Nat2Z.inj_succ, succ_IZR. lra.
Qed.

Lemma handled_split (q : list event) (n : nat) :
  takeWhile (dueBy (stepTime n)) q =
  handledBefore q n ++
  takeWhile (dueBy (stepTime n)) (skipn (length (handledBefore q n)) q).
Proof.
  destruct n as [|k]; [reflexivity|].
  cbn [handledBefore]. apply takeWhile_mono.
  intros e. rewrite !dueBy_true. pose proof (stepTime_mono k). lra.
Qed.

Lemma bolusSum_app (sf : R) (l1 l2 : list event) :
  bolusSum sf (l1 ++ l2) = bolusSum sf l1 + bolusSum sf l2.
Proof.
  induction l1 as [|[t a|t r|t] l1 IH]; simpl in *; rewrite ?IH; lra.
Qed.

Lemma bolusSum_perm (sf : R) (l1 l2 : list event) :
  Permutation l1 l2 -> bolusSum sf l1 = bolusSum sf l2.
Proof.
  induction 1 as [|x l1 l2 _ IH|x y l|l1 l2 l3 _ IH1 _ IH2].
  - reflexivity.
  - destruct x; simpl; rewrite IH; reflexivity.
  - destruct x, y; simpl; lra.
  - congruence.
Qed.

Lemma filter_perm (f : event -> bool) (l1 l2 : list event) :
  Permutation l1 l2 -> Permutation (filter f l1) (filter f l2).
Proof.
  induction 1 as [|x l1 l2 _ IH|x y l|l1 l2 l3 _ IH1 _ IH2]; cbn [filter].
  - reflexivity.
  - destruct (f x); [now constructor | exact IH].
  - destruct (f x), (f y); try reflexivity. apply perm_swap.
  - now transitivity (filter f l2).
Qed.


(** ** One run *)

Section Runs.

Variable p : PKParameters R.
Variable sf : R.

Lemma processEvents_exact (t : R) (pending : list event) (st : SimState R) :
  let st' := processEvents sf t pending st in
  x1 st' = x1 st + bolusSum sf (takeWhile (dueBy t) pending) /\
  x2 st' = x2 st /\ x3 st' = x3 st /\ xe st' = xe st /\
  eventIndex st' = (eventIndex st + length (takeWhile (dueBy t) pending))%nat.
Proof.
  revert st. induction pending as [|evt rest IH]; intros st.
  - simpl. repeat split; try lra; lia.
  - cbn [processEvents takeWhile].
    change (nleb (evt_time evt) t) with (dueBy t evt).
    destruct (dueBy t evt).
    + specialize (IH (applyEvent sf evt st)). cbv zeta in *.
      destruct IH as (I1 & I2 & I3 & Ie & Ii).
      rewrite I1, I2, I3, Ie, Ii.
      destruct evt; simpl; repeat split; try lra; lia.
    + simpl. repeat split; try lra; lia.
Qed.

Lemma afterEvents_stepTime (q : list event) (n : nat) (st : SimState R) :
  afterEvents q sf n st
  = processEvents sf (stepTime n) (skipn (eventIndex st) q) st.
Proof. reflexivity. Qed.

Lemma eventIndex_atDerivatives_run (q : list event) (n : nat) :
  eventIndex (runSteps q p sf n) = length (handledBefore q n) ->
  eventIndex (atDerivatives q p sf n)
  = length (takeWhile (dueBy (stepTime n)) q).
Proof.
  intros E. unfold atDerivatives. rewrite afterEvents_stepTime.
  destruct (processEvents_exact (stepTime n)
              (skipn (eventIndex (runSteps q p sf n)) q)
              (runSteps q p sf n)) as (_ & _ & _ & _ & Ii).
  rewrite Ii.
  rewrite (handled_split q n), length_app, E. reflexivity.
Qed.

Lemma eventIndex_runSteps (q : list event) (n : nat) :
  eventIndex (runSteps q p sf n) = length (handledBefore q n).
Proof.
  induction n as [|n IH]; [reflexivity|].
  rewrite runSteps_S. unfold integrate. cbn [eventIndex handledBefore].
  now apply eventIndex_atDerivatives_run.
Qed.

Lemma eventIndex_atDerivatives (q : list event) (n : nat) :
  eventIndex (atDerivatives q p sf n)
  = length (takeWhile (dueBy (stepTime n)) q).
Proof. apply eventIndex_atDerivatives_run, eventIndex_runSteps. Qed.

Lemma bolusSum_due (t : R) (l : list event) :
  bolusSum sf (takeWhile (dueBy t) (sort l)) = dueBolus sf t l.
Proof.
  rewrite takeWhile_filter by apply sort_sorted.
  apply bolusSum_perm, filter_perm, sort_perm.
Qed.

Lemma bolusSum_handled (l : list event) (n : nat) :
  bolusSum sf (handledBefore (sort l) n)
  = match n with O => 0 | S k => dueBolus sf (stepTime k) l end.
Proof. destruct n; [reflexivity | apply bolusSum_due]. Qed.

Lemma events_atDerivatives (l : list event) (n : nat) :
  let st := runSteps (sort l) p sf n in
  let st' := atDerivatives (sort l) p sf n in
  x1 st' = x1 st + arrivingBolus sf l n /\
  x2 st' = x2 st /\ x3 st' = x3 st /\ xe st' = xe st.
Proof.
  intros st st'. subst st st'. unfold atDerivatives.
  rewrite afterEvents_stepTime.
  destruct (processEvents_exact (stepTime n)
              (skipn (eventIndex (runSteps (sort l) p sf n)) (sort l))
              (runSteps (sort l) p sf n)) as (I1 & I2 & I3 & Ie & _).
  rewrite I1, I2, I3, Ie. repeat split.
  f_equal. rewrite eventIndex_runSteps.
  pose proof (handled_split (sort l) n) as S.
  apply (f_equal (bolusSum sf)) in S.
  rewrite bolusSum_app, bolusSum_due, bolusSum_handled in S.
  unfold arrivingBolus. lra.
Qed.

Lemma arrivingBolus_app (A B : list event) (n : nat) :
  arrivingBolus sf (A ++ B) n = arrivingBolus sf A n + arrivingBolus sf B n.
Proof.
  unfold arrivingBolus, dueBolus.
  destruct n; rewrite ?filter_app, ?bolusSum_app; lra.
Qed.

Lemma find_filter (f : event -> bool) (l : list event) :
  find f (filter f l) = find f l.
Proof.
  induction l as [|e l IH]; [reflexivity|]. cbn [filter find].
  destruct (f e) eqn:F; [cbn [find]; now rewrite F | exact IH].
Qed.

Lemma activeRate_filter (l : list event) :
  activeRate sf l = activeRate sf (filter isInfusion l).
Proof.
  unfold activeRate, lastInfusion.
  now rewrite <- filter_rev, find_filter.
Qed.

Lemma filter_comm (f g : event -> bool) (l : list event) :
  filter f (filter g l) = filter g (filter f l).
Proof.
  induction l as [|e l IH]; [reflexivity|]. cbn [filter].
  destruct (f e) eqn:F, (g e) eqn:G; cbn [filter]; rewrite ?F, ?G, IH;
    reflexivity.
Qed.

Lemma rate_atDerivatives (l : list event) (n : nat) :
  currentInfusionRate (atDerivatives (sort l) p sf n)
  = activeRate sf (filter (dueBy (stepTime n)) (sort (filter isInfusion l))).
Proof.
  rewrite (atDerivatives_rate (sort l) p sf n).
  rewrite eventIndex_atDerivatives, firstn_takeWhile.
  rewrite takeWhile_filter by apply sort_sorted.
  now rewrite activeRate_filter, filter_comm, filter_sort.
Qed.

Lemma noInfusion_filter (l : list event) :
  noInfusion l = true -> filter isInfusion l = [].
Proof.
  unfold noInfusion. intros F. apply filter_none.
  rewrite forallb_forall in F. apply Forall_forall. intros z Hz.
  specialize (F z Hz). now destruct (isInfusion z).
Qed.

Lemma rate_noInfusion (l : list event) (n : nat) :
  noInfusion l = true ->
  currentInfusionRate (atDerivatives (sort l) p sf n) = 0.
Proof.
  intros F. rewrite rate_atDerivatives, (noInfusion_filter _ F). reflexivity.
Qed.

Lemma rate_app (A B : list event) (n : nat) :
  noInfusion A = true \/ noInfusion B = true ->
  currentInfusionRate (atDerivatives (sort (A ++ B)) p sf n)
  = currentInfusionRate (atDerivatives (sort A) p sf n)
    + currentInfusionRate (atDerivatives (sort B) p sf n).
Proof.
  intros [F|F].
  - rewrite (rate_noInfusion _ n F), !rate_atDerivatives, filter_app.
    rewrite (noInfusion_filter _ F). simpl. lra.
  - rewrite (rate_noInfusion _ n F), !rate_atDerivatives, filter_app.
    rewrite (noInfusion_filter _ F), app_nil_r. lra.
Qed.

Lemma integrate_additive (n : nat) (s sA sB : SimState R) :
  additive s sA sB ->
  currentInfusionRate s = currentInfusionRate sA + currentInfusionRate sB ->
  additive (integrate p n s) (integrate p n sA) (integrate p n sB).
Proof.
  intros (A1 & A2 & A3 & Ae) Ar.
  unfold additive, integrate. cbn [x1 x2 x3 xe].
  rewrite A1, A2, A3, Ae, Ar.
  generalize (if nltb (of_Z 0) (V3 p) then ndiv (Q3 p) (V1 p) else of_Z 0).
  generalize (if nltb (of_Z 0) (V3 p) then ndiv (Q3 p) (V3 p) else of_Z 0).
  intros k31 k13.
  unfold finiteOr0. simpl. unfold Rdiv.
  repeat split; ring.
Qed.

Lemma runSteps_additive (A B : list event) (n : nat) :
  noInfusion A = true \/ noInfusion B = true ->
  additive (runSteps (sort (A ++ B)) p sf n)
           (runSteps (sort A) p sf n) (runSteps (sort B) p sf n).
Proof.
  intros F. induction n as [|n IH].
  - unfold additive. simpl. repeat split; lra.
  - rewrite !runSteps_S. apply integrate_additive; [|now apply rate_app].
    destruct IH as (I1 & I2 & I3 & Ie).
    destruct (events_atDerivatives (A ++ B) n) as (E1 & E2 & E3 & Ee).
    destruct (events_atDerivatives A n) as (EA1 & EA2 & EA3 & EAe).
    destruct (events_atDerivatives B n) as (EB1 & EB2 & EB3 & EBe).
    unfold additive.
    rewrite E1, E2, E3, Ee, EA1, EA2, EA3, EAe, EB1, EB2, EB3, EBe.
    rewrite arrivingBolus_app, I1, I2, I3, Ie. repeat split; lra.
Qed.

End Runs.

End ExactFacts.

(** * Additivity, in exact arithmetic *)

Section AdditivityFacts.

Import ExactRun.

Local Open Scope R_scope.

Local Abbreviation event := (DoseEvent R).

Variable p : PKParameters R.
Variable sf : R.

Lemma dueRate_atDerivatives (l : list event) (k : nat) :
  currentInfusionRate (atDerivatives (sort l) p sf k) = dueRate sf l k.
Proof. apply rate_atDerivatives. Qed.

(** The events add what they add to each run. *)
Lemma atDerivatives_additive (A B : list event) (n : nat) :
  additive (runSteps (sort (A ++ B)) p sf n)
           (runSteps (sort A) p sf n) (runSteps (sort B) p sf n) ->
  additive (atDerivatives (sort (A ++ B)) p sf n)
           (atDerivatives (sort A) p sf n) (atDerivatives (sort B) p sf n).
Proof.
  intros (I1 & I2 & I3 & Ie).
  destruct (events_atDerivatives p sf (A ++ B) n) as (E1 & E2 & E3 & Ee).
  destruct (events_atDerivatives p sf A n) as (EA1 & EA2 & EA3 & EAe).
  destruct (events_atDerivatives p sf B n) as (EB1 & EB2 & EB3 & EBe).
  unfold additive.
  rewrite E1, E2, E3, Ee, EA1, EA2, EA3, EAe, EB1, EB2, EB3, EBe.
  rewrite arrivingBolus_app, I1, I2, I3, Ie. repeat split; lra.
Qed.

Lemma runSteps_additive_rates (A B : list event) (n : nat) :
  (forall k, (k < n)%nat ->
             dueRate sf (A ++ B) k = dueRate sf A k + dueRate sf B k) ->
  additive (runSteps (sort (A ++ B)) p sf n)
           (runSteps (sort A) p sf n) (runSteps (sort B) p sf n).
Proof.
  induction n as [|n IH]; intros F.
  - unfold additive. simpl. repeat split; lra.
  - rewrite !runSteps_S. apply integrate_additive.
    + apply atDerivatives_additive, IH. intros k Hk. apply F. lia.
    + rewrite !dueRate_atDerivatives. apply F. lia.
Qed.

(** If the compartments add up before and after an update, so did the
    rates. *)
Lemma integrate_rate_additive (n : nat) (s sA sB : SimState R) :
  additive s sA sB ->
  x1 (integrate p n s) = x1 (integrate p n sA) + x1 (integrate p n sB) ->
  currentInfusionRate s = currentInfusionRate sA + currentInfusionRate sB.
Proof.
  intros (A1 & A2 & A3 & Ae).
  unfold integrate. cbn [x1]. rewrite A1, A2, A3.
  generalize (if nltb (of_Z 0) (V3 p) then ndiv (Q3 p) (V1 p) else of_Z 0).
  generalize (if nltb (of_Z 0) (V3 p) then ndiv (Q3 p) (V3 p) else of_Z 0).
  intros k31 k13. unfold finiteOr0. simpl. unfold Rdiv.
  rewrite !Rmult_1_l. intros E.
  set (K := Cl p * / V1 p + Q2 p * / V1 p + k13) in *.
  set (k21 := Q2 p * / V2 p) in *.
  apply Rmult_eq_reg_r with (r := / 6); [|lra].
  lra.
Qed.

Lemma rates_of_additive (A B : list event) (n : nat) :
  (forall k, (k <= n)%nat ->
             additive (runSteps (sort (A ++ B)) p sf (S k))
                      (runSteps (sort A) p sf (S k))
                      (runSteps (sort B) p sf (S k))) ->
  ratesAdd sf A B n.
Proof.
  intros F k Hk.
  assert (I : additive (runSteps (sort (A ++ B)) p sf k)
                       (runSteps (sort A) p sf k) (runSteps (sort B) p sf k)).
  { destruct k as [|j]; [|apply F; lia].
    unfold additive. simpl. repeat split; lra. }
  apply atDerivatives_additive in I.
  rewrite <- !dueRate_atDerivatives.
  apply (@integrate_rate_additive k _ _ _ I).
  rewrite <- !runSteps_S. apply F. exact Hk.
Qed.

Lemma ratesAdd_noInfusion (A B : list event) (n : nat) :
  noInfusion A = true \/ noInfusion B = true -> ratesAdd sf A B n.
Proof.
  intros F k _. rewrite <- !dueRate_atDerivatives. now apply rate_app.
Qed.

End AdditivityFacts.

Section AdditivityTheorem.

Import ExactRun.

Local Open Scope R_scope.


Ltac decide_order :=
  repeat match goal with
  | |- context [Rlt_dec ?a ?b] =>
      destruct (Rlt_dec a b); [try (exfalso; lra) | try (exfalso; lra)]
  | |- context [Rle_dec ?a ?b] =>
      destruct (Rle_dec a b); [try (exfalso; lra) | try (exfalso; lra)]
  end.

Ltac eval_order :=
  repeat (progress
            (cbn -[Rlt_dec Rle_dec IZR Rmult Rminus Rdiv Rplus Rinv];
             unfold Exact.ltb, Exact.leb; decide_order)).

(** Two lists that both hold an infusion, the one of [B] starting after
    the one of [A] was stopped: the rates add at every iteration of the
    first three minutes. *)
Lemma successive_infusions_add :
  ratesAdd (scaleOf "Fentanyl")
    [bolus 0 6; infusion_start 0 60; infusion_stop 1]
    [infusion_start 2 60; infusion_stop 3] 18.
Proof.
  intros k Hk.
  do 19 (destruct k as [|k]; [unfold dueRate, stepTime; eval_order; lra|]).
  lia.
Qed.


End AdditivityTheorem.

Section LinearityExamples.

Local Open Scope string_scope.
Local Open Scope float_scope.


(** The two-decimal rounding of the samples is not additive either: two
    boluses of 0.004 give [cp = 0.01] together and [cp = 0] each. *)
Lemma rounded_samples_not_additive :
  simulateConcentration ([bolus 0 0.004] ++ [bolus 0 0.004]) neutral 0
    "Fentanyl"
  = Some [{| time := 0; cp := 0.01; ce := 0 |}] /\
  simulateConcentration [bolus 0 0.004] neutral 0 "Fentanyl"
  = Some [{| time := 0; cp := 0; ce := 0 |}].
Proof. split; vm_compute; reflexivity. Qed.

(** Of two infusions running together, the one handled last sets the
    rate: 120 per hour is 2 per minute, not 3 with the 60 per hour. *)
Lemma later_infusion_overwrites :
  currentInfusionRate
    (atDerivatives (sort [infusion_start 0 60; infusion_start 0 120])
       neutral (scaleOf "Fentanyl") 0)
  = 2.
Proof. vm_compute. reflexivity. Qed.

End LinearityExamples.

(** * Indefinite infusions *)

Section TimelineFacts.

Lemma processedEvents_app (num : Type) (N : JSNumber num)
    (l1 l2 : list (TimelineEvent num)) :
  processedEvents (l1 ++ l2) = processedEvents l1 ++ processedEvents l2.
Proof. apply flat_map_app. Qed.

(** C6, as amended.  An infusion added as indefinite at time [t] under
    the horizon [H] is stored with the duration [H - t + 60]; it expands
    to an [infusion_start] at [t] and an [infusion_stop] at
    [t + duration], which in exact arithmetic is [H + 60]; the stored
    events, and with them the stop, stay as they are when the horizon is
    set anew; for [t = 10] and [H = 120] the duration is 170 and the stop
    is at 180. *)
Theorem addInfusion_indefinite :
  (forall (num : Type) (N : JSNumber num) (now : Z) (s : AppState num)
          (H' : num),
     let s0 := setIsInfiniteDuration true s in
     let t := fst (placed s0) in
     let duration := (simDuration s - t + #60)%num in
     let rate :=
       convertToStandardUnit (infusionRate s) (infusionUnit s)
         (patientWeight s) (drug s) in
     let created :=
       Infusion now t rate (infusionRate s) (infusionUnit s) duration in
     events (addInfusion now s0) = snd (placed s0) ++ [created] /\
     processedEvents (events (addInfusion now s0))
     = processedEvents (snd (placed s0))
       ++ [infusion_start t rate; infusion_stop (t + duration)%num] /\
     processedEvents (events (setSimDuration H' (addInfusion now s0)))
     = processedEvents (events (addInfusion now s0))) /\
  (forall (now : Z) (s : AppState R),
     let s0 := setIsInfiniteDuration true s in
     let t := fst (placed s0) in
     let rate :=
       convertToStandardUnit (infusionRate s) (infusionUnit s)
         (patientWeight s) (drug s) in
     processedEvents (events (addInfusion now s0))
     = processedEvents (snd (placed s0))
       ++ [infusion_start t rate; infusion_stop (simDuration s + 60)%R]) /\
  events (addInfusion 1 (form 10 120))
  = [Infusion 1 10%float 60%float 1%float "mcg/kg/hr" 170%float] /\
  processedEvents (events (addInfusion 1 (form 10 120)))
  = [infusion_start 10%float 60%float; infusion_stop 180%float].
Proof.
  assert (G : forall (num : Type) (N : JSNumber num) (now : Z)
                     (s : AppState num),
             let s0 := setIsInfiniteDuration true s in
             events (addInfusion now s0)
             = snd (placed s0)
               ++ [Infusion now (fst (placed s0))
                     (convertToStandardUnit (infusionRate s) (infusionUnit s)
                        (patientWeight s) (drug s))
                     (infusionRate s) (infusionUnit s)
                     (simDuration s - fst (placed s0) + #60)%num]).
  { intros num N now s s0. unfold addInfusion.
    destruct (placed s0) as [t evs]. reflexivity. }
  split; [|split].
  - intros num N now s H' s0 t duration rate created.
    split; [apply G|]. split; [|reflexivity].
    unfold s0. rewrite G, processedEvents_app. reflexivity.
  - intros now s s0 t rate.
    unfold s0. rewrite G, processedEvents_app. simpl.
    do 4 f_equal. ring.
  - split; vm_compute; reflexivity.
Qed.

(** C6, the claim as stated fails: for [t = 10] and [H = 120] the stop is
    not at 170, which is the duration, but at 180. *)
Lemma indefinite_stop_at_180 :
  processedEvents (events (addInfusion 1 (form 10 120)))
  = [infusion_start 10%float 60%float; infusion_stop 180%float] /\
  PrimFloat.eqb 180 170 = false.
Proof. split; vm_compute; reflexivity. Qed.

End TimelineFacts.

(** * Further properties of the engine on binary64 *)

Section GridFacts.

Import Float64Facts.

Local Open Scope float_scope.

Lemma finiteOr0_finite (x : float) : Number_isFinite (finiteOr0 x) = true.
Proof.
  unfold finiteOr0. destruct (Number_isFinite x) eqn:F; [exact F|].
  vm_compute. reflexivity.
Qed.

(** The stability guard leaves every compartment finite. *)
Lemma integrate_finite (p : PKParameters float) (step : nat) (st : SimState float) :
  finiteState (integrate p step st).
Proof.
  unfold finiteState, integrate. cbn [x1 x2 x3 xe].
  repeat split; apply finiteOr0_finite.
Qed.

Lemma onMinute_offset (n r : nat) :
  onMinute (num := float) (6 * n + r) = (Z.of_nat r mod 6 =? 0)%Z.
Proof.
  rewrite onMinute_binary64. f_equal.
  replace (Z.of_nat (6 * n + r)) with (Z.of_nat r + Z.of_nat n * 6)%Z by lia.
  apply Z_mod_plus_full.
Qed.

Lemma sampledSteps_window (n : nat) :
  filter (onMinute (num := float)) (seq (6 * n + 1) 6) = [6 * n + 6]%nat.
Proof.
  assert (E : seq (6 * n + 1) 6 =
              [6 * n + 1; 6 * n + 2; 6 * n + 3; 6 * n + 4; 6 * n + 5;
               6 * n + 6]%nat)
    by (cbn [seq]; repeat f_equal; lia).
  rewrite E. cbn [filter]. rewrite !onMinute_offset. reflexivity.
Qed.

Lemma sampledSteps_grid (n : nat) :
  sampledSteps (num := float) (6 * n + 1)
  = map (fun i => 6 * i)%nat (seq 0 (n + 1)).
Proof.
  induction n as [|n IH]; [vm_compute; reflexivity|].
  replace (6 * S n + 1)%nat with ((6 * n + 1) + 6)%nat by lia.
  unfold sampledSteps in *. rewrite seq_app, filter_app, IH.
  replace (S n + 1)%nat with ((n + 1) + 1)%nat by lia.
  rewrite (seq_app (n + 1) 1), map_app. f_equal.
  rewrite !Nat.add_0_l, sampledSteps_window. cbn [seq map]. f_equal. lia.
Qed.

(** The time of the sample of minute [i]. *)
Lemma sample_times :
  forallb
    (fun i => PrimFloat.Leibniz.eqb
                (Math_round (stepTime (6 * i))) (of_Z (Z.of_nat i)))
    (seq 0 2881)
  = true.
Proof. vm_compute. reflexivity. Qed.

End GridFacts.

Section GridTheorems.

Import Float64Facts.

Local Open Scope string_scope.

Lemma whole_minutes_count (minutes : nat) :
  (minutes <= 2880)%nat ->
  loopCount (Math_floor (ndiv (of_Z (Z.of_nat minutes)) (dt (num := float))))
  = Some (6 * minutes + 1)%nat.
Proof.
  intros L. pose proof whole_minutes_loopCount as W.
  rewrite forallb_forall in W. specialize (W minutes).
  destruct (loopCount _) as [k|].
  - f_equal. apply Nat.eqb_eq. apply W. apply in_seq. lia.
  - assert (I : In minutes (seq 0 2881)) by (apply in_seq; lia).
    specialize (W I). discriminate W.
Qed.

Lemma simulate_grid (events : list (DoseEvent float))
    (params : PKParameters float) (drugType : string) (minutes : nat) :
  degenerate params = false -> (minutes <= 2880)%nat ->
  simulateConcentration events params (of_Z (Z.of_nat minutes)) drugType
  = Some (map (fun i => sampleAfter (sort events) params (scaleOf drugType)
                          (6 * i))
            (seq 0 (minutes + 1))).
Proof.
  intros D L. rewrite simulateConcentration_samples.
  unfold degenerate in D. rewrite D, (whole_minutes_count L).
  cbn [option_map]. now rewrite sampledSteps_grid, map_map.
Qed.

Lemma sample_time (q : list (DoseEvent float)) (p : PKParameters float)
    (sf : float) (i : nat) :
  (i <= 2880)%nat ->
  time (sampleAfter q p sf (6 * i)) = of_Z (Z.of_nat i).
Proof.
  intros L. pose proof sample_times as W.
  rewrite forallb_forall in W. specialize (W i).
  apply FloatAxioms.Leibniz.eqb_spec. apply W. apply in_seq. lia.
Qed.

(** X2.  For parameters that pass the guard on [V1] and a whole number
    of minutes up to 2880, the run returns one sample per minute from 0
    to the duration, with the minute as its time. *)
Theorem simulate_minute_grid (events : list (DoseEvent float))
    (params : PKParameters float) (drugType : string) (minutes : nat) :
  degenerate params = false -> (minutes <= 2880)%nat ->
  exists series,
    simulateConcentration events params (of_Z (Z.of_nat minutes)) drugType
    = Some series /\
    length series = (minutes + 1)%nat /\
    map (@time float) series
    = map (fun i => of_Z (Z.of_nat i)) (seq 0 (minutes + 1)).
Proof.
  intros D L. eexists. split; [now apply simulate_grid|].
  split; [now rewrite length_map, length_seq|].
  rewrite map_map. apply map_ext_in. intros i I.
  apply sample_time. apply in_seq in I. lia.
Qed.

(** X1.  Whatever the events and the parameters, the four compartments
    are finite numbers after every iteration, so a NaN or an infinity
    never survives an iteration, and the [ce] of every sample is the
    rounding of [xe] itself, never the fallback. *)
Theorem state_stays_finite (events : list (DoseEvent float))
    (params : PKParameters float) (drugType : string) (n : nat) :
  let q := sort events in
  let sf := scaleOf drugType in
  finiteState (runSteps q params sf n) /\
  ce (sampleAfter q params sf n) = toFixed2 (xeAfter q params sf n).
Proof.
  intros q sf.
  assert (F : forall k, finiteState (runSteps q params sf k)).
  { destruct k as [|k].
    - repeat split; vm_compute; reflexivity.
    - rewrite runSteps_S. apply integrate_finite. }
  split; [apply F|].
  unfold sampleAfter. cbn [ce].
  destruct (F (S n)) as (_ & _ & _ & Fe). unfold xeAfter. now rewrite Fe.
Qed.

(** X2 on a bolus and two minutes. *)
Lemma simulate_minute_grid_witness :
  exists series,
    simulateConcentration [bolus 0%float 6%float] neutral
      (of_Z (Z.of_nat 2)) "Fentanyl"
    = Some series /\
    length series = 3%nat /\
    map (@time float) series
    = map (fun i => of_Z (Z.of_nat i)) (seq 0 3).
Proof.
  apply (@simulate_minute_grid [bolus 0%float 6%float] neutral "Fentanyl" 2).
  - reflexivity.
  - lia.
Defined.

Variable Math_pow : float -> float -> float.

Lemma resolver_not_degenerate (drug model : string) (patient : Patient) :
  degenerate (getPKParameters Math_pow drug model patient) = false.
Proof.
  unfold getPKParameters. destruct (_ || _)%bool; [reflexivity|].
  pose proof (guardV1_above (modelParameters Math_pow drug model patient)) as A.
  apply above_tenth_positive in A. apply positive_truthy in A.
  destruct A as [F L]. unfold degenerate. cbn [falsy nleb float_JSNumber].
  change (@of_Z float float_JSNumber 0) with 0%float.
  rewrite F, L. reflexivity.
  Unshelve. all: exact Math_pow.
Qed.

(** X3.  The parameters the resolver returns always pass the guard on
    [V1] of the simulator: for every drug, model, patient and event list
    and a whole number of minutes up to 2880, the run on them returns
    one sample per minute, never the empty series. *)
Theorem resolver_series_per_minute (drug model : string) (patient : Patient)
    (events : list (DoseEvent float)) (drugType : string) (minutes : nat) :
  (minutes <= 2880)%nat ->
  degenerate (getPKParameters Math_pow drug model patient) = false /\
  exists series,
    simulateConcentration events
      (getPKParameters Math_pow drug model patient)
      (of_Z (Z.of_nat minutes)) drugType
    = Some series /\
    length series = (minutes + 1)%nat.
Proof.
  intros L. pose proof (resolver_not_degenerate drug model patient) as D.
  split; [exact D|]. eexists. split; [now apply simulate_grid|].
  now rewrite length_map, length_seq.
Qed.

End GridTheorems.

(** X3 on an adult under Fentanyl and one hour. *)
Lemma resolver_series_per_minute_witness :
  degenerate (getPKParameters examplePow "Fentanyl" "Shafer (Adult)" adult)
  = false /\
  exists series,
    simulateConcentration [bolus 0%float 100%float]
      (getPKParameters examplePow "Fentanyl" "Shafer (Adult)" adult)
      (of_Z (Z.of_nat 60)) "Fentanyl"
    = Some series /\
    length series = 61%nat.
Proof.
  apply (@resolver_series_per_minute examplePow "Fentanyl" "Shafer (Adult)"
           adult [bolus 0%float 100%float] "Fentanyl" 60).
  lia.
Defined.


(** * Further properties of the engine in exact arithmetic *)

Section ScaleFacts.

Context {num : Type} `{JSNumber num}.

Local Open Scope num_scope.

Lemma evt_time_scaleDose (c : num) (e : DoseEvent num) :
  evt_time (scaleDose c e) = evt_time e.
Proof. now destruct e. Qed.

Lemma insert_scaleDose (c : num) (x : DoseEvent num)
    (l : list (DoseEvent num)) :
  insert (scaleDose c x) (map (scaleDose c) l) = map (scaleDose c) (insert x l).
Proof.
  induction l as [|y l IH]; [reflexivity|].
  cbn [map insert]. unfold comparator. rewrite !evt_time_scaleDose.
  destruct (evt_time y - evt_time x <? #0); [|reflexivity].
  cbn [map]. now rewrite IH.
Qed.

Lemma sort_scaleDose (c : num) (l : list (DoseEvent num)) :
  sort (map (scaleDose c) l) = map (scaleDose c) (sort l).
Proof.
  induction l as [|x l IH]; [reflexivity|].
  cbn [map]. change (sort (?a :: ?m)) with (insert a (sort m)).
  now rewrite IH, insert_scaleDose.
Qed.

End ScaleFacts.

Section MoreExactFacts.

Import ExactRun.

Local Open Scope R_scope.

Local Abbreviation event := (DoseEvent R).

Lemma sort_same_time (t : R) (l : list event) :
  Forall (fun e => evt_time e = t) l -> sort l = l.
Proof.
  induction 1 as [|x l Hx F IH]; [reflexivity|].
  change (sort (x :: l)) with (insert x (sort l)). rewrite IH.
  apply insert_first. eapply Forall_impl; [|exact F].
  intros e He. unfold byTime. lra.
Qed.

Lemma atTime_true (t : R) (e : event) : atTime t e = true <-> evt_time e = t.
Proof. unfold atTime. destruct (Req_dec_T (evt_time e) t); split; easy. Qed.

(** X5.  The sort of the event queue orders the events by time, keeps
    every event, and keeps the events of one same time in the order in
    which they were given. *)
Theorem sort_stable_by_time (l : list event) :
  StronglySorted byTime (sort l) /\
  Permutation (sort l) l /\
  forall t, filter (atTime t) (sort l) = filter (atTime t) l.
Proof.
  split; [apply sort_sorted|]. split; [apply sort_perm|].
  intros t. rewrite filter_sort. apply sort_same_time with (t := t).
  apply Forall_forall. intros e He. apply filter_In in He.
  now apply atTime_true.
Qed.

Section OneRun.

Variable p : PKParameters R.
Variable sf : R.

Lemma processEvents_scaled (c t : R) (pending : list event)
    (st st' : SimState R) :
  scaled c st st' ->
  scaled c (processEvents sf t pending st)
    (processEvents sf t (map (scaleDose c) pending) st').
Proof.
  revert st st'. induction pending as [|evt rest IH]; intros st st' S; [exact S|].
  cbn [map processEvents]. rewrite evt_time_scaleDose.
  destruct (nleb (evt_time evt) t); [|exact S].
  apply IH. destruct S as ((S1 & S2 & S3 & Se & Sr) & Si).
  unfold scaled. destruct evt; simpl; rewrite ?S1, ?S2, ?S3, ?Se, ?Sr, ?Si;
    repeat split; try reflexivity; try (unfold Rdiv; ring).
Qed.

Lemma integrate_scaled (c : R) (n : nat) (st st' : SimState R) :
  scaled c st st' -> scaled c (integrate p n st) (integrate p n st').
Proof.
  intros ((S1 & S2 & S3 & Se & Sr) & Si).
  unfold scaled, integrate. cbn [x1 x2 x3 xe currentInfusionRate eventIndex].
  rewrite S1, S2, S3, Se, Sr, Si.
  generalize (if nltb (of_Z 0) (V3 p) then ndiv (Q3 p) (V1 p) else of_Z 0).
  generalize (if nltb (of_Z 0) (V3 p) then ndiv (Q3 p) (V3 p) else of_Z 0).
  intros k31 k13. unfold finiteOr0. simpl. unfold Rdiv.
  repeat split; ring.
Qed.

Lemma runSteps_scaled (c : R) (q : list event) (n : nat) :
  scaled c (runSteps q p sf n) (runSteps (map (scaleDose c) q) p sf n).
Proof.
  induction n as [|n IH].
  - unfold scaled. simpl. repeat split; ring.
  - rewrite !runSteps_S. apply integrate_scaled.
    unfold atDerivatives, afterEvents.
    destruct IH as ((S1 & S2 & S3 & Se & Sr) & Si).
    rewrite Si, skipn_map. apply processEvents_scaled.
    unfold scaled. auto 10.
Qed.

Lemma handled_due (l : list event) (n : nat) :
  firstn (eventIndex (atDerivatives (sort l) p sf n)) (sort l)
  = filter (dueBy (stepTime n)) (sort l).
Proof.
  rewrite eventIndex_atDerivatives, firstn_takeWhile.
  apply takeWhile_filter, sort_sorted.
Qed.

Lemma processEvents_not_due (t : R) (pending rest : list event)
    (st : SimState R) :
  Forall (fun e => dueBy t e = false) rest ->
  processEvents sf t (pending ++ rest) st = processEvents sf t pending st.
Proof.
  intros F. revert st. induction pending as [|evt pending IH]; intros st.
  - cbn [app]. destruct F as [|e rest He _]; [reflexivity|].
    cbn [processEvents]. change (nleb (evt_time e) t) with (dueBy t e).
    now rewrite He.
  - cbn [app processEvents].
    destruct (nleb (evt_time evt) t); [apply IH|reflexivity].
Qed.

Lemma length_takeWhile (f : event -> bool) (l : list event) :
  (length (takeWhile f l) <= length l)%nat.
Proof.
  induction l as [|e l IH]; [simpl; lia|].
  cbn [takeWhile]. destruct (f e); simpl; lia.
Qed.

Lemma processEvents_index_le (t : R) (q pending : list event)
    (st : SimState R) :
  pending = skipn (eventIndex st) q -> (eventIndex st <= length q)%nat ->
  (eventIndex (processEvents sf t pending st) <= length q)%nat.
Proof.
  intros E L.
  destruct (processEvents_exact sf t pending st) as (_ & _ & _ & _ & Ii).
  rewrite Ii. pose proof (length_takeWhile (dueBy t) pending) as T.
  subst pending. rewrite length_skipn in T. lia.
Qed.

Lemma runSteps_index_le (q : list event) (n : nat) :
  (eventIndex (runSteps q p sf n) <= length q)%nat.
Proof.
  induction n as [|n IH]; [simpl; lia|].
  rewrite runSteps_S. unfold integrate. cbn [eventIndex].
  unfold atDerivatives, afterEvents. now apply processEvents_index_le.
Qed.

Lemma runSteps_prefix (q rest : list event) (n : nat) :
  (forall k, (k < n)%nat ->
             Forall (fun e => dueBy (stepTime k) e = false) rest) ->
  runSteps (q ++ rest) p sf n = runSteps q p sf n.
Proof.
  induction n as [|n IH]; intros F; [reflexivity|].
  rewrite !runSteps_S. f_equal.
  unfold atDerivatives. rewrite IH by (intros k Hk; apply F; lia).
  rewrite !afterEvents_stepTime.
  rewrite skipn_app.
  replace (eventIndex (runSteps q p sf n) - length q)%nat with 0%nat
    by (pose proof (runSteps_index_le q n); lia).
  cbn [skipn]. apply processEvents_not_due. apply F. lia.
Qed.

Lemma takeWhile_skipn (f : event -> bool) (l : list event) :
  l = takeWhile f l ++ skipn (length (takeWhile f l)) l.
Proof. now rewrite <- (firstn_takeWhile f l) at 1; rewrite firstn_skipn. Qed.

Lemma runSteps_due_only (l : list event) (T : R) (n : nat) :
  (forall k, (k < n)%nat -> stepTime (num := R) k <= T) ->
  runSteps (sort l) p sf n = runSteps (sort (filter (dueBy T) l)) p sf n.
Proof.
  intros HT. rewrite <- filter_sort.
  rewrite <- takeWhile_filter by apply sort_sorted.
  set (q := sort l).
  rewrite (takeWhile_skipn (dueBy T) q) at 1.
  apply runSteps_prefix. intros k Hk.
  assert (S : StronglySorted byTime q) by apply sort_sorted.
  assert (F : Forall (fun e => dueBy T e = false)
                (skipn (length (takeWhile (dueBy T) q)) q)).
  { clear -S. induction S as [|y m S IH F]; [constructor|].
    cbn [takeWhile]. destruct (dueBy T y) eqn:D; [exact IH|].
    cbn [length skipn]. constructor; [exact D|].
    eapply Forall_impl; [|exact F]. intros e He.
    apply dueBy_false. apply dueBy_false in D. unfold byTime in He. lra. }
  eapply Forall_impl; [|exact F]. intros e He.
  apply dueBy_false. apply dueBy_false in He. specialize (HT k Hk). lra.
Qed.

End OneRun.

Lemma Int_part_IZR (z : Z) : Int_part (IZR z) = z.
Proof. symmetry. apply Int_part_spec. lra. Qed.

(** The iterations of a run of [duration] minutes are at times up to
    [duration]. *)
Lemma loopCount_within (duration : R) (n k : nat) :
  loopCount (Math_floor (duration / dt)) = Some n -> (k < n)%nat ->
  stepTime (num := R) k <= duration.
Proof.
  unfold loopCount. cbn [to_int max_safe_integer R_JSNumber].
  destruct (_ <=? _)%num eqn:P; [|intros [= <-]; lia].
  intros [= <-] L. apply leb_true in P.
  assert (P' : 0 <= IZR (Int_part (duration / (1 / 6)))) by exact P.
  clear P.
  change (Exact.floor (duration / (1 / 6)))
    with (IZR (Int_part (duration / (1 / 6)))) in L.
  destruct (base_Int_part (duration / (1 / 6))) as [B _].
  revert P' L B. generalize (Int_part (duration / (1 / 6))). intros z P L B.
  rewrite Int_part_IZR in L. apply le_IZR in P.
  assert (K : (Z.of_nat k <= z)%Z) by lia.
  apply IZR_le in K.
  rewrite stepTime_exact.
  replace (duration / (1 / 6)) with (duration * 6) in B by field.
  lra.
Qed.

Lemma simulateConcentration_due (events : list event) (params : PKParameters R)
    (duration : R) (drugType : string) :
  simulateConcentration events params duration drugType
  = simulateConcentration (filter (dueBy duration) events) params duration
      drugType.
Proof.
  unfold simulateConcentration.
  destruct (_ || _)%bool; [reflexivity|]. cbv zeta.
  destruct (loopCount _) as [n|] eqn:C; [|reflexivity].
  f_equal. f_equal. apply runSteps_due_only.
  intros k Hk. eapply loopCount_within; eassumption.
Qed.

(** X4.  The model is linear in the doses: with every bolus amount and
    every infusion rate multiplied by [c], the values that the samples of
    every iteration round, [x1 / V1] and [xe] after the update, are [c]
    times what they were, for every parameter set and drug. *)
Theorem simulate_homogeneous (c : R) (events : list event)
    (params : PKParameters R) (drugType : string) (step : nat) :
  let sf := scaleOf drugType in
  let scaledEvents := map (scaleDose c) events in
  cpAfter (sort scaledEvents) params sf step
  = c * cpAfter (sort events) params sf step /\
  xeAfter (sort scaledEvents) params sf step
  = c * xeAfter (sort events) params sf step /\
  cp (sampleAfter (sort scaledEvents) params sf step)
  = toFixed2 (c * cpAfter (sort events) params sf step) /\
  ce (sampleAfter (sort scaledEvents) params sf step)
  = toFixed2 (c * xeAfter (sort events) params sf step).
Proof.
  intros sf scaledEvents. unfold scaledEvents. rewrite sort_scaleDose.
  destruct (runSteps_scaled params sf c (sort events) (S step))
    as ((S1 & _ & _ & Se & _) & _).
  assert (C : cpAfter (map (scaleDose c) (sort events)) params sf step
              = c * cpAfter (sort events) params sf step).
  { unfold cpAfter. rewrite S1. simpl. unfold Rdiv. ring. }
  assert (E : xeAfter (map (scaleDose c) (sort events)) params sf step
              = c * xeAfter (sort events) params sf step).
  { unfold xeAfter. now rewrite Se. }
  unfold sampleAfter. cbn [cp ce]. rewrite C, E. simpl. auto.
Qed.

(** X6.  When the derivatives of iteration [n] are taken, the events
    handled so far are exactly the events of the list whose time is at
    most [n / 6] minutes, in the order of the sorted queue. *)
Theorem handled_exactly_due (p : PKParameters R) (events : list event)
    (drugType : string) (n : nat) :
  let q := sort events in
  let st := atDerivatives q p (scaleOf drugType) n in
  firstn (eventIndex st) q = filter (dueBy (stepTime n)) q /\
  forall e, In e (firstn (eventIndex st) q) <->
            In e events /\ evt_time e <= IZR (Z.of_nat n) / 6.
Proof.
  intros q st. subst q st.
  pose proof (handled_due p (scaleOf drugType) events n) as E.
  split; [exact E|].
  intros e. rewrite E, filter_In, dueBy_true, stepTime_exact.
  split; intros [I L]; (split; [|lra]).
  - apply (Permutation_in _ (sort_perm events)), I.
  - apply (Permutation_in _ (Permutation_sym (sort_perm events))), I.
Qed.


End MoreExactFacts.

(** * The choice of the model *)

Section ModelFacts.

Local Open Scope string_scope.

Lemma AVAILABLE_MODELS_drugs (drug : string) (models : list string) :
  AVAILABLE_MODELS drug = Some models ->
  In drug ["Fentanyl"; "Remifentanil"; "Morphine"; "Hydromorphone";
           "Methadone"; "Sufentanil"].
Proof.
  unfold AVAILABLE_MODELS.
  repeat match goal with
  | |- context [String.eqb ?a ?b] =>
      destruct (String.eqb_spec a b); [subst; simpl; tauto|]
  end.
  discriminate.
Qed.

Lemma getBestModel_available (drug : string) (age : float)
    (models : list string) :
  AVAILABLE_MODELS drug = Some models ->
  In (getBestModel drug age) models.
Proof.
  intros E. pose proof (AVAILABLE_MODELS_drugs _ E) as D. simpl in D.
  unfold getBestModel.
  destruct D as [<-|[<-|[<-|[<-|[<-|[<-|[]]]]]]]; injection E as <-;
    destruct (PrimFloat.ltb age 12); simpl; tauto.
Qed.

Lemma listIncludes_In (x : string) (l : list string) :
  listIncludes x l = true <-> In x l.
Proof.
  unfold listIncludes. rewrite existsb_exists. split.
  - intros (y & I & E). apply String.eqb_eq in E. now subst.
  - intros I. exists x. split; [exact I | apply String.eqb_refl].
Qed.

(** X9.  For each of the six drugs the model [getBestModel] returns is
    one of the drug's models; from the age of 12 on it is never a model
    named Pediatric, and under 12 it is never a model named Adult, but
    for Methadone, whose only model is the adult one. *)
Theorem getBestModel_fits (drug : string) (age : float)
    (models : list string) :
  AVAILABLE_MODELS drug = Some models ->
  let best := getBestModel drug age in
  In best models /\
  (PrimFloat.ltb age 12 = false -> includes "Pediatric" best = false) /\
  (PrimFloat.ltb age 12 = true ->
   includes "Adult" best = true <-> drug = "Methadone").
Proof.
  intros E best. split; [now apply getBestModel_available|].
  pose proof (AVAILABLE_MODELS_drugs _ E) as D. simpl in D.
  unfold best, getBestModel.
  destruct D as [<-|[<-|[<-|[<-|[<-|[<-|[]]]]]]];
    (split; intros ->; vm_compute; [reflexivity|]);
    split; (reflexivity || discriminate).
Qed.

(** X9 on Fentanyl at the age of 5. *)
Lemma getBestModel_fits_witness :
  let best := getBestModel "Fentanyl" 5 in
  In best ["Bae (2020) Adult"; "Shafer (Adult)"; "Ginsberg (Pediatric)";
           "Scott (Peds/Adult)"] /\
  (PrimFloat.ltb 5 12 = false -> includes "Pediatric" best = false) /\
  (PrimFloat.ltb 5 12 = true ->
   includes "Adult" best = true <-> "Fentanyl" = "Methadone").
Proof.
  apply (@getBestModel_fits "Fentanyl" 5%float). reflexivity.
Defined.

(** A child under Methadone is given the adult model. *)
Lemma methadone_child_adult_model :
  getBestModel "Methadone" 5 = "Standard (Adult)" /\
  autoSelectModel "Methadone" 5 "Standard (Adult)" = Some "Standard (Adult)".
Proof. split; reflexivity. Qed.

(** X10.  The model the selection effect leaves is one of the drug's
    models, and running the effect again on it changes nothing. *)
Theorem autoSelectModel_settles (drug : string) (age : float)
    (model model' : string) :
  autoSelectModel drug age model = Some model' ->
  (exists models, AVAILABLE_MODELS drug = Some models /\ In model' models) /\
  autoSelectModel drug age model' = Some model'.
Proof.
  unfold autoSelectModel.
  destruct (AVAILABLE_MODELS drug) as [models|] eqn:A; [|discriminate].
  pose proof (getBestModel_available drug age A) as B.
  set (best := getBestModel drug age) in *.
  cbv zeta.
  destruct (listIncludes model models) eqn:I; cbn [negb orb].
  - destruct ((PrimFloat.ltb age 12 && includes "Adult" model)
              || (negb (PrimFloat.ltb age 12) && includes "Pediatric" model))%bool
      eqn:C;
      intros E; injection E as <-.
    + split; [eauto|]. now destruct (_ || _ || _)%bool.
    + split; [exists models; split; [reflexivity | now apply listIncludes_In]|].
      rewrite I. cbn [negb orb]. now rewrite C.
  - intros E; injection E as <-.
    split; [eauto|]. now destruct (_ || _ || _)%bool.
Qed.

(** X10 on a child for whom an adult model of Fentanyl is selected. *)
Lemma autoSelectModel_settles_witness :
  (exists models,
     AVAILABLE_MODELS "Fentanyl" = Some models /\
     In "Ginsberg (Pediatric)" models) /\
  autoSelectModel "Fentanyl" 5 "Ginsberg (Pediatric)"
  = Some "Ginsberg (Pediatric)".
Proof.
  apply (@autoSelectModel_settles "Fentanyl" 5%float "Shafer (Adult)"
           "Ginsberg (Pediatric)").
  reflexivity.
Defined.

End ModelFacts.

Section RequirementFacts.

Local Open Scope string_scope.

Variable Math_pow : float -> float -> float.

Lemma requirements_Minto :
  getModelRequirements "Remifentanil" "Minto (Adult)"
  = ["age"; "weight"; "height"; "gender"].
Proof. reflexivity. Qed.

Lemma requirements_Jeleazcov :
  getModelRequirements "Hydromorphone" "Jeleazcov (2014) Adult"
  = ["age"; "weight"].
Proof. reflexivity. Qed.

Lemma modelParameters_covered (drug model : string) (p1 p2 : Patient) :
  weight p1 = weight p2 ->
  agreeOn (getModelRequirements drug model) p1 p2 ->
  modelParameters Math_pow drug model p1
  = modelParameters Math_pow drug model p2.
Proof.
  intros W A. unfold modelParameters. cbv zeta. rewrite <- W.
  repeat match goal with
  | |- context [String.eqb ?a ?b] =>
      destruct (String.eqb_spec a b); [subst|]
  end; try reflexivity.
  - rewrite requirements_Minto in A. destruct A as (Aa & _ & Ah & Ag).
    simpl in Aa, Ah, Ag.
    rewrite <- Aa, <- Ah, <- Ag by tauto. reflexivity.
  - rewrite requirements_Jeleazcov in A. destruct A as (Aa & _).
    simpl in Aa. rewrite <- Aa by tauto. reflexivity.
Qed.

(** X11.  The parameters depend on the patient only through the weight
    and the fields [getModelRequirements] lists for the drug and the
    model: two patients of one weight who agree on the listed fields are
    given the same parameters. *)
Theorem requirements_cover_inputs (drug model : string) (p1 p2 : Patient) :
  weight p1 = weight p2 ->
  agreeOn (getModelRequirements drug model) p1 p2 ->
  getPKParameters Math_pow drug model p1
  = getPKParameters Math_pow drug model p2.
Proof.
  intros W A. unfold getPKParameters. rewrite <- W.
  destruct (_ || _)%bool; [reflexivity|].
  f_equal. now apply modelParameters_covered.
Qed.

End RequirementFacts.

Section RequirementExamples.

Local Open Scope string_scope.
Local Open Scope float_scope.

(** X11 on two adults of different height and gender under the model of
    Jeleazcov. *)
Lemma requirements_cover_inputs_witness :
  getPKParameters examplePow "Hydromorphone" "Jeleazcov (2014) Adult" adult
  = getPKParameters examplePow "Hydromorphone" "Jeleazcov (2014) Adult"
      {| age := Some 40; weight := Some 60; height := Some 180;
         gender := "female" |}.
Proof.
  apply (@requirements_cover_inputs examplePow "Hydromorphone"
           "Jeleazcov (2014) Adult" adult
           {| age := Some 40; weight := Some 60; height := Some 180;
              gender := "female" |}).
  - reflexivity.
  - unfold agreeOn. simpl.
    repeat split; try reflexivity;
      intros [E|[E|[]]]; discriminate E.
Defined.

(** The weight is needed also where no field is listed: the model of
    Shafer lists none, and a patient without a valid weight is still
    given the neutral parameters instead of the model's. *)
Lemma unlisted_weight_matters :
  getModelRequirements "Fentanyl" "Shafer (Adult)" = [] /\
  V1 (getPKParameters examplePow "Fentanyl" "Shafer (Adult)" adult) = 15 /\
  getPKParameters examplePow "Fentanyl" "Shafer (Adult)" underweight = neutral.
Proof. repeat split; vm_compute; reflexivity. Qed.

End RequirementExamples.

(** * Editing the timeline *)

Section EditingFacts.

Context {num : Type} `{JSNumber num}.

Local Open Scope num_scope.

Lemma parseFloat_zero : parseFloat #0 = #0.
Proof. unfold parseFloat. now destruct (_ && _)%bool. Qed.

Lemma parseFloat_idempotent (x : num) :
  parseFloat (parseFloat x) = parseFloat x.
Proof.
  unfold parseFloat at 2 3. destruct (_ && _)%bool eqn:C.
  - apply parseFloat_zero.
  - unfold parseFloat. now rewrite C.
Qed.

Lemma withoutId_fresh (id : Z) (evs : list (TimelineEvent num)) :
  Forall (fun e => event_id e <> id) evs -> withoutId id evs = evs.
Proof.
  unfold withoutId. induction 1 as [|e evs He _ IH]; [reflexivity|].
  cbn [filter]. apply Z.eqb_neq in He. rewrite He. cbn [negb]. now rewrite IH.
Qed.

Lemma withoutId_middle (id : Z) (l1 l2 : list (TimelineEvent num))
    (e : TimelineEvent num) :
  event_id e = id ->
  Forall (fun e => event_id e <> id) l1 ->
  Forall (fun e => event_id e <> id) l2 ->
  withoutId id (l1 ++ e :: l2) = l1 ++ l2.
Proof.
  intros E F1 F2. unfold withoutId. rewrite filter_app. cbn [filter].
  rewrite E, Z.eqb_refl. cbn [negb].
  fold (withoutId id l1). fold (withoutId id l2).
  now rewrite !withoutId_fresh.
Qed.

(** X12.  Editing a bolus whose id no other event bears takes it off the
    timeline and into the form; adding the form again as it is puts the
    same bolus back, at the end of the list and under the new id, with
    the other events as they were.  (Outside clock mode, or for a time
    that is not negative.) *)
Theorem edit_bolus_roundtrip (now id : Z) (t amount : num)
    (l1 l2 : list (TimelineEvent num)) (f : DoseForm num) :
  events (form_app f) = l1 ++ Bolus id t amount :: l2 ->
  Forall (fun e => event_id e <> id) l1 ->
  Forall (fun e => event_id e <> id) l2 ->
  (isClockMode (form_app f) && (parseFloat t <? #0))%bool = false ->
  exists f',
    editEvent (Bolus id t amount) f = Some f' /\
    events (form_app f') = l1 ++ l2 /\
    events (form_app (addBolus now f'))
    = l1 ++ l2 ++ [Bolus now (parseFloat t) (parseFloat amount)].
Proof.
  intros E F1 F2 C. eexists. split; [reflexivity|].
  pose proof (withoutId_middle (id := id) (Bolus id t amount) eq_refl F1 F2)
    as W.
  cbn [form_app events event_id]. rewrite E, W.
  split; [reflexivity|].
  unfold addBolus. cbn [form_app bolusTime bolusAmount isClockMode events].
  rewrite C. cbn [setEvents events]. now rewrite <- app_assoc.
Qed.

Lemma editedRate_original (s : AppState num) (rate originalRate : num)
    (originalUnit : string) (units : list string) :
  falsy originalRate = false -> isEmpty originalUnit = false ->
  DRUG_UNITS (drug s) = Some units -> In originalUnit units ->
  editedRate s rate originalRate originalUnit
  = Some (originalRate, originalUnit).
Proof.
  intros F E D I. unfold editedRate. rewrite F, E, D. cbn [negb andb].
  replace (listIncludes originalUnit units) with true; [reflexivity|].
  symmetry. unfold listIncludes. apply existsb_exists.
  exists originalUnit. split; [exact I | apply String.eqb_refl].
Qed.

Lemma placed_not_negative (s : AppState num) :
  (#0 <? #0) = false ->
  (isClockMode s && (parseFloat (fst (placed (parsed s))) <? #0))%bool = false.
Proof.
  intros Z0. unfold placed.
  cbn [parsed isClockMode infusionStartTime events].
  destruct (isClockMode s && (parseFloat (infusionStartTime s) <? #0))%bool
    eqn:C; cbn [fst].
  - rewrite parseFloat_zero, Z0. apply andb_false_r.
  - now rewrite parseFloat_idempotent.
Qed.

Lemma placed_parsed (s : AppState num) :
  parseFloat (fst (placed (parsed s))) = fst (placed (parsed s)).
Proof.
  unfold placed. cbn [parsed isClockMode infusionStartTime events].
  destruct (_ && _)%bool; cbn [fst];
    [apply parseFloat_zero | apply parseFloat_idempotent].
Qed.

(** X13.  An infusion added from a form with a rate that is not zero and
    a unit of the drug, under an id no earlier event bears, can be
    edited: this takes it off the timeline and fills the form with its
    original rate and unit; adding the form again as it is puts the same
    infusion back under the new id, an indefinite one with the duration
    it was stored with. *)
Theorem edit_infusion_roundtrip (now now' : Z) (f : DoseForm num)
    (units : list string) :
  let s := form_app f in
  let earlier := snd (placed (parsed s)) in
  (#0 <? #0) = false ->
  falsy (parseFloat (infusionRate s)) = false ->
  isEmpty (infusionUnit s) = false ->
  DRUG_UNITS (drug s) = Some units -> In (infusionUnit s) units ->
  Forall (fun e => event_id e <> now) earlier ->
  exists t rate duration f',
    events (form_app (addInfusionForm now f))
    = earlier ++
      [Infusion now t rate (parseFloat (infusionRate s)) (infusionUnit s)
         duration] /\
    editEvent
      (Infusion now t rate (parseFloat (infusionRate s)) (infusionUnit s)
         duration)
      (addInfusionForm now f)
    = Some f' /\
    events (form_app f') = earlier /\
    events (form_app (addInfusionForm now' f'))
    = earlier ++
      [Infusion now' t rate (parseFloat (infusionRate s)) (infusionUnit s)
         (parseFloat duration)].
Proof.
  intros s earlier Z0 F E D I Fr.
  pose proof (placed_not_negative s Z0) as T.
  pose proof (placed_parsed s) as P.
  unfold earlier in *. clear earlier.
  unfold addInfusionForm at 1 2. unfold addInfusion at 1 2.
  cbn [form_app]. fold s.
  destruct (placed (parsed s)) as [t evs] eqn:Pl. cbn [fst snd] in *.
  cbn [form_app events setEvents parsed infusionRate infusionUnit
       patientWeight drug isInfiniteDuration simDuration infusionDuration].
  eexists t, _, _, _. split; [reflexivity|].
  unfold editEvent.
  cbn [form_app events setEvents drug infusionUnit event_id].
  erewrite editedRate_original; [|exact F|exact E|exact D|exact I].
  split; [reflexivity|].
  unfold withoutId. rewrite filter_app. cbn [filter event_id].
  rewrite Z.eqb_refl. cbn [negb]. rewrite app_nil_r.
  fold (withoutId now evs). rewrite (withoutId_fresh Fr).
  cbn [form_app events].
  split; [reflexivity|].
  unfold addInfusionForm, addInfusion, placed.
  cbn [form_app parsed infusionStartTime isClockMode events infusionRate
       infusionUnit patientWeight drug isInfiniteDuration infusionDuration
       simDuration setEvents].
  rewrite T, P, parseFloat_idempotent. reflexivity.
Qed.

End EditingFacts.

Section EditingExamples.

Local Open Scope string_scope.
Local Open Scope float_scope.

(** [parseFloat] changes no real number, and of the binary64 numbers it
    changes [-0]. *)
Lemma parseFloat_exact (x : R) : parseFloat x = x.
Proof.
  unfold parseFloat. destruct (_ && _)%bool eqn:C; [|reflexivity].
  apply andb_prop in C. destruct C as [C1 C2].
  apply leb_true in C1. apply leb_true in C2. simpl in *.
  apply Rle_antisym; assumption.
Qed.

Lemma parseFloat_neg_zero :
  parseFloat (-0) = 0 /\ parseFloat 1.5 = 1.5 /\
  PrimFloat.is_nan (parseFloat nan) = true.
Proof. repeat split; vm_compute; reflexivity. Qed.

(** X12 on the second of three boluses. *)
Lemma edit_bolus_roundtrip_witness :
  let f :=
    {| form_app :=
         setEvents [Bolus 1 0 100; Bolus 2 5 50; Bolus 3 9 25] (form 10 120);
       bolusAmount := 0; bolusTime := 0 |} in
  exists f',
    editEvent (Bolus 2 5 50) f = Some f' /\
    events (form_app f') = ([Bolus 1 0 100] ++ [Bolus 3 9 25])%list /\
    events (form_app (addBolus 4 f'))
    = ([Bolus 1 0 100] ++ [Bolus 3 9 25]
       ++ [Bolus 4 (parseFloat 5) (parseFloat 50)])%list.
Proof.
  apply (@edit_bolus_roundtrip float _ 4%Z 2%Z 5 50 [Bolus 1 0 100]
           [Bolus 3 9 25]).
  - reflexivity.
  - repeat constructor; simpl; lia.
  - repeat constructor; simpl; lia.
  - reflexivity.
Defined.

(** X13 on the indefinite infusion of the form at minute 10. *)
Lemma edit_infusion_roundtrip_witness :
  let f := {| form_app := form 10 120; bolusAmount := 0; bolusTime := 0 |} in
  exists t rate duration f',
    events (form_app (addInfusionForm 1 f))
    = ([] ++ [Infusion 1 t rate (parseFloat 1) "mcg/kg/hr" duration])%list /\
    editEvent (Infusion 1 t rate (parseFloat 1) "mcg/kg/hr" duration)
      (addInfusionForm 1 f)
    = Some f' /\
    events (form_app f') = [] /\
    events (form_app (addInfusionForm 2 f'))
    = ([] ++
       [Infusion 2 t rate (parseFloat 1) "mcg/kg/hr" (parseFloat duration)])%list.
Proof.
  apply (@edit_infusion_roundtrip float _ 1%Z 2%Z
           {| form_app := form 10 120; bolusAmount := 0; bolusTime := 0 |}
           ["mcg/kg/hr"; "mcg/hr"]).
  - reflexivity.
  - reflexivity.
  - reflexivity.
  - reflexivity.
  - simpl. tauto.
  - constructor.
Defined.

(** The infusion of the witness comes back with the duration 170 it was
    stored with, no longer tied to the horizon. *)
Lemma edited_infusion_is_fixed :
  let f := {| form_app := form 10 120; bolusAmount := 0; bolusTime := 0 |} in
  option_map (fun f' => events (form_app (addInfusionForm 2 f')))
    (editEvent (Infusion 1 10 60 1 "mcg/kg/hr" 170) (addInfusionForm 1 f))
  = Some [Infusion 2 10 60 1 "mcg/kg/hr" 170].
Proof. vm_compute. reflexivity. Qed.

End EditingExamples.

(** * Saved traces *)

Section TraceFacts.

Local Open Scope string_scope.

Lemma NoDup_map_filter (A B : Type) (f : A -> B) (g : A -> bool)
    (l : list A) :
  NoDup (map f l) -> NoDup (map f (filter g l)).
Proof.
  induction l as [|x l IH]; [trivial|]. cbn [map filter]. intros N.
  inversion N as [|? ? NI N']; subst.
  destruct (g x); [|now apply IH].
  cbn [map]. constructor; [|now apply IH].
  intros I. apply NI. apply in_map_iff in I. destruct I as (y & E & I).
  apply filter_In in I. apply in_map_iff. exists y. tauto.
Qed.

(** X14.  After [saveCurrentTrace] exactly one saved trace bears the
    name of the drug and the model, the one just saved; the traces of
    other names are kept as they were, and names that were unique stay
    unique. *)
Theorem saveCurrentTrace_unique (now : Z) (randomColor drug model : string)
    (simData : list (Sample float)) (savedTraces : list Trace) :
  let saved :=
    saveCurrentTrace now randomColor drug model simData savedTraces in
  let name' := traceName drug model in
  (NoDup (map name savedTraces) -> NoDup (map name saved)) /\
  filter (fun t => String.eqb (name t) name') saved
  = [{| trace_id := now; name := name'; trace_data := simData;
        color := randomColor; trace_drug := drug |}] /\
  filter (fun t => negb (String.eqb (name t) name')) saved
  = filter (fun t => negb (String.eqb (name t) name')) savedTraces.
Proof.
  intros saved name'. subst saved. unfold saveCurrentTrace. fold name'.
  set (keep := fun t => negb (String.eqb (name t) name')).
  assert (K : forall l,
             filter (fun t => String.eqb (name t) name') (filter keep l) = []).
  { induction l as [|x l IH]; [reflexivity|]. cbn [filter]. unfold keep at 1.
    destruct (String.eqb (name x) name') eqn:E; cbn [negb]; [exact IH|].
    cbn [filter]. now rewrite E. }
  assert (K' : forall l, filter keep (filter keep l) = filter keep l).
  { induction l as [|x l IH]; [reflexivity|]. cbn [filter].
    destruct (keep x) eqn:E; [|exact IH]. cbn [filter]. now rewrite E, IH. }
  split; [|split].
  - intros N. rewrite map_app. cbn [map name].
    apply NoDup_app;
      [now apply NoDup_map_filter | repeat constructor; simpl; tauto |].
    intros x I [<-|[]]. apply in_map_iff in I. destruct I as (t & E & I).
    apply filter_In in I. destruct I as [_ I]. unfold keep in I.
    rewrite E, String.eqb_refl in I. discriminate.
  - rewrite filter_app, K. cbn [filter name app]. now rewrite String.eqb_refl.
  - rewrite filter_app, K'. cbn [filter]. unfold keep at 2. cbn [name].
    rewrite String.eqb_refl. cbn [negb]. apply app_nil_r.
Qed.

End TraceFacts.

Section CompareFacts.

Local Open Scope string_scope.

Variable Math_pow : float -> float -> float.

Lemma modelTraces_series (now : nat -> Z) (drug : string) (patient : Patient)
    (processed : list (DoseEvent float)) (minutes : nat)
    (models : list string) (index : nat) :
  (minutes <= 2880)%nat ->
  exists traces,
    modelTraces Math_pow now drug patient processed (of_Z (Z.of_nat minutes))
      models index
    = Some traces /\
    map name traces = map (traceName drug) models /\
    Forall (fun t => length (trace_data t) = (minutes + 1)%nat) traces.
Proof.
  intros L. revert index.
  induction models as [|m models IH]; intros index.
  - exists []. repeat split. constructor.
  - destruct (IH (S index)) as (traces & E & N & F).
    cbn [modelTraces].
    rewrite (@simulate_grid processed _ drug _
               (resolver_not_degenerate Math_pow drug m patient) L).
    rewrite E. eexists. split; [reflexivity|].
    split; [cbn [map name]; now rewrite N|].
    constructor; [|exact F].
    cbn [trace_data]. now rewrite length_map, length_seq.
Qed.

Lemma traceNames_NoDup (drug : string) (models : list string) :
  AVAILABLE_MODELS drug = Some models ->
  NoDup (map (traceName drug) models).
Proof.
  intros E. pose proof (AVAILABLE_MODELS_drugs _ E) as D. simpl in D.
  destruct D as [<-|[<-|[<-|[<-|[<-|[<-|[]]]]]]]; injection E as <-;
    vm_compute; repeat constructor; simpl; intuition discriminate.
Qed.

(** X15.  For each of the six drugs and a whole number of minutes up to
    2880, [compareAllModels] returns: it adds one trace for each model
    of the drug, in the order of the list and named after the drug and
    the model, each with one sample per minute, after the saved traces of
    other names; names that were unique stay unique. *)
Theorem compareAllModels_traces (now : nat -> Z) (drug : string)
    (patient : Patient) (events : list (TimelineEvent float))
    (minutes : nat) (savedTraces : list Trace) (models : list string) :
  AVAILABLE_MODELS drug = Some models -> (minutes <= 2880)%nat ->
  exists newTraces,
    let kept :=
      filter
        (fun t => negb (listIncludes (name t) (map (traceName drug) models)))
        savedTraces in
    compareAllModels Math_pow now drug patient events
      (of_Z (Z.of_nat minutes)) savedTraces
    = Some (kept ++ newTraces)%list /\
    map name newTraces = map (traceName drug) models /\
    Forall (fun t => length (trace_data t) = (minutes + 1)%nat) newTraces /\
    (NoDup (map name savedTraces) -> NoDup (map name (kept ++ newTraces)%list)).
Proof.
  intros A L.
  destruct (modelTraces_series now drug patient (processedEvents events)
              models 0 L) as (traces & E & N & F).
  exists traces. cbv zeta. unfold compareAllModels. rewrite A, E, N.
  split; [reflexivity|]. split; [reflexivity|]. split; [exact F|].
  intros U. rewrite map_app. apply NoDup_app.
  - now apply NoDup_map_filter.
  - rewrite N. now apply traceNames_NoDup.
  - intros x I J. apply in_map_iff in I. destruct I as (t & <- & I).
    apply filter_In in I. destruct I as [_ I].
    rewrite N in J. apply listIncludes_In in J. rewrite J in I. discriminate.
Qed.

End CompareFacts.

Section CompareExamples.

Local Open Scope string_scope.
Local Open Scope float_scope.

(** X15 on the two models of Remifentanil and a run of one hour. *)
Lemma compareAllModels_traces_witness :
  exists newTraces,
    let kept :=
      filter
        (fun t =>
           negb (listIncludes (name t)
                   (map (traceName "Remifentanil")
                      ["Minto (Adult)"; "Rigby-Jones (Pediatric)"])))
        [] in
    compareAllModels examplePow (fun _ => 0%Z) "Remifentanil" adult
      [Bolus 1 0 50] (of_Z (Z.of_nat 60)) []
    = Some (kept ++ newTraces)%list /\
    map name newTraces
    = map (traceName "Remifentanil")
        ["Minto (Adult)"; "Rigby-Jones (Pediatric)"] /\
    Forall (fun t => length (trace_data t) = (60 + 1)%nat) newTraces /\
    (NoDup (map name []) -> NoDup (map name (kept ++ newTraces)%list)).
Proof.
  apply (@compareAllModels_traces examplePow (fun _ => 0%Z) "Remifentanil"
           adult [Bolus 1 0 50] 60 []
           ["Minto (Adult)"; "Rigby-Jones (Pediatric)"]).
  - reflexivity.
  - lia.
Defined.

End CompareExamples.

(** * Amounts of drug in exact arithmetic *)

Section AmountFacts.

Import ExactRun.

Local Open Scope R_scope.

Local Abbreviation event := (DoseEvent R).

Lemma integrate_total (p : PKParameters R) (n : nat) (st : SimState R) :
  total (integrate p n st)
  = total st + (currentInfusionRate st - Cl p / V1 p * x1 st) * dt.
Proof.
  unfold total, integrate. cbn [x1 x2 x3].
  generalize (if nltb (of_Z 0) (V3 p) then ndiv (Q3 p) (V1 p) else of_Z 0).
  generalize (if nltb (of_Z 0) (V3 p) then ndiv (Q3 p) (V3 p) else of_Z 0).
  intros k31 k13. unfold finiteOr0. simpl. unfold Rdiv. ring.
Qed.

Lemma arrivingBolus_due (sf : R) (l : list event) (n : nat) :
  dueBolus sf (stepTime n) l
  = match n with O => 0 | S k => dueBolus sf (stepTime k) l end
    + arrivingBolus sf l n.
Proof. unfold arrivingBolus. ring. Qed.

(** X16.  In exact arithmetic, for parameters with [V1 > 0] and [V2]
    not zero, so that no rate constant is a quotient by zero, the run
    neither creates nor loses drug: after every iteration the amount in
    the three compartments, together with what the clearance has removed
    from the central one, is the boluses handled so far, scaled, plus
    what the infusions delivered.  Without clearance the compartments
    hold all that was given. *)
Theorem mass_balance (l : list event) (p : PKParameters R)
    (drugType : string) (n : nat) :
  0 < V1 p -> V2 p <> 0 ->
  let sf := scaleOf drugType in
  total (runSteps (sort l) p sf n) + eliminated l p sf n = doseGiven l sf n /\
  (Cl p = 0 -> total (runSteps (sort l) p sf n) = doseGiven l sf n).
Proof.
  intros _ _ sf.
  assert (B : total (runSteps (sort l) p sf n) + eliminated l p sf n
              = doseGiven l sf n).
  { induction n as [|n IH].
    - unfold doseGiven, total. simpl. ring.
    - rewrite runSteps_S, integrate_total.
      destruct (events_atDerivatives p sf l n) as (E1 & E2 & E3 & _).
      unfold doseGiven in *. cbn [eliminated infused].
      rewrite (arrivingBolus_due sf l n).
      rewrite <- (rate_atDerivatives p sf l n).
      unfold total in *. rewrite E2, E3.
      set (a := x1 (atDerivatives (sort l) p sf n)) in *.
      set (r := currentInfusionRate (atDerivatives (sort l) p sf n)).
      replace ((r - Cl p / V1 p * a) * dt + (eliminated l p sf n + Cl p / V1 p * a * dt))
        with (r * dt + eliminated l p sf n) by ring.
      lra. }
  split; [exact B|].
  intros C. rewrite <- B.
  assert (Z : eliminated l p sf n = 0).
  { clear B. induction n as [|n IH]; [reflexivity|].
    cbn [eliminated]. rewrite IH, C. unfold Rdiv. ring. }
  rewrite Z. ring.
Qed.

(** X16 on a bolus and an infusion under parameters without clearance. *)
Lemma mass_balance_witness :
  let l := [bolus 0 6; infusion_start 1 60] in
  let p :=
    {| V1 := 1; V2 := 2; V3 := 0; Cl := 0; Q2 := 1; Q3 := 0; ke0 := / 10 |} in
  let sf := scaleOf "Fentanyl" in
  total (runSteps (sort l) p sf 12) + eliminated l p sf 12
  = doseGiven l sf 12 /\
  (Cl p = 0 -> total (runSteps (sort l) p sf 12) = doseGiven l sf 12).
Proof.
  intros l p sf.
  apply (@mass_balance l p "Fentanyl" 12); simpl; lra.
Defined.

Lemma fixed2_nonneg (a : R) : 0 <= a -> 0 <= toFixed2 a.
Proof.
  intros A. cbn [toFixed2 R_JSNumber]. unfold Exact.fixed2.
  destruct (Rlt_dec a 0) as [N|_]; [lra|].
  destruct (base_Int_part (a * 100 + / 2)) as [_ B].
  assert (I : (-1 < Int_part (a * 100 + / 2))%Z) by (apply lt_IZR; lra).
  assert (J : (0 <= Int_part (a * 100 + / 2))%Z) by lia.
  apply IZR_le in J. lra.
Qed.

Section Stable.

Variable p : PKParameters R.
Variable sf : R.

Hypothesis stable : stepStable p.
Hypothesis scale : 0 <= sf.

Lemma processEvents_nonneg (t : R) (pending : list event) (st : SimState R) :
  Forall nonnegDose pending -> nonnegState st ->
  nonnegState (processEvents sf t pending st).
Proof.
  intros F. revert st. induction F as [|evt rest D F IH]; intros st N;
    [exact N|].
  cbn [processEvents]. destruct (nleb (evt_time evt) t); [|exact N].
  apply IH. destruct N as (N1 & N2 & N3 & Ne & Nr).
  unfold nonnegState.
  destruct evt as [t0 amount|t0 rate|t0]; simpl in *; repeat split;
    try assumption; try lra.
  - apply Rplus_le_le_0_compat; [exact N1|]. now apply Rmult_le_pos.
  - unfold Rdiv. apply Rmult_le_pos; [now apply Rmult_le_pos | lra].
Qed.

Lemma quotient_bounds (a b c : R) :
  0 < b -> 0 <= a -> a <= c * b -> 0 <= a / b <= c.
Proof.
  intros B A L. split.
  - unfold Rdiv. apply Rmult_le_pos; [exact A|].
    left. now apply Rinv_0_lt_compat.
  - apply Rmult_le_reg_r with (r := b); [exact B|].
    unfold Rdiv. rewrite Rmult_assoc, Rinv_l by lra. lra.
Qed.

Lemma integrate_nonneg (n : nat) (st : SimState R) :
  nonnegState st -> nonnegState (integrate p n st).
Proof.
  destruct stable as (P1 & P2 & Pc & Pq2 & Pq3 & [Pk Pk'] & S1 & S2 & S3).
  intros (N1 & N2 & N3 & Ne & Nr).
  unfold nonnegState, integrate.
  cbn [x1 x2 x3 xe currentInfusionRate].
  unfold finiteOr0. cbn [Number_isFinite R_JSNumber].
  change (@dt R _) with (1 / 6).
  assert (K : exists k13 k31,
             (if nltb (of_Z 0) (V3 p) then ndiv (Q3 p) (V1 p) else of_Z 0)
             = k13 /\
             (if nltb (of_Z 0) (V3 p) then ndiv (Q3 p) (V3 p) else of_Z 0)
             = k31 /\
             0 <= k13 /\ 0 <= k31 <= 6 /\
             Cl p / V1 p + Q2 p / V1 p + k13 <= 6).
  { assert (T : 0 <= (Cl p + Q2 p + Q3 p) / V1 p <= 6)
      by (apply quotient_bounds; lra).
    assert (T3 : 0 <= Q3 p / V1 p <= 6) by (apply quotient_bounds; lra).
    assert (T2 : 0 <= (Cl p + Q2 p) / V1 p <= 6)
      by (apply quotient_bounds; lra).
    unfold Rdiv in T, T2, T3.
    rewrite !Rmult_plus_distr_r in T. rewrite Rmult_plus_distr_r in T2.
    eexists. eexists. split; [reflexivity|]. split; [reflexivity|].
    destruct (nltb (of_Z 0) (V3 p)) eqn:V.
    - apply ltb_true in V. simpl in V.
      assert (T4 : 0 <= Q3 p / V3 p <= 6)
        by (apply quotient_bounds; [lra | lra | now apply S3]).
      simpl. unfold Rdiv in *. lra.
    - simpl. unfold Rdiv. lra. }
  destruct K as (k13 & k31 & -> & -> & K13 & K31 & KS).
  assert (K10 : 0 <= Cl p / V1 p <= 6) by (apply quotient_bounds; lra).
  assert (K12 : 0 <= Q2 p / V1 p <= 6) by (apply quotient_bounds; lra).
  assert (K21 : 0 <= Q2 p / V2 p <= 6) by (apply quotient_bounds; lra).
  assert (C0 : 0 <= x1 st / V1 p).
  { unfold Rdiv. apply Rmult_le_pos; [exact N1|].
    left. now apply Rinv_0_lt_compat. }
  simpl.
  set (k10 := Cl p / V1 p) in *. set (k12 := Q2 p / V1 p) in *.
  set (k21 := Q2 p / V2 p) in *. set (c0 := x1 st / V1 p) in *.
  repeat split; try assumption; nra.
Qed.

Lemma runSteps_nonneg (q : list event) (n : nat) :
  Forall nonnegDose q -> nonnegState (runSteps q p sf n).
Proof.
  intros F. induction n as [|n IH].
  - unfold nonnegState. simpl. repeat split; lra.
  - rewrite runSteps_S. apply integrate_nonneg.
    unfold atDerivatives. rewrite afterEvents_stepTime.
    apply processEvents_nonneg; [|exact IH].
    rewrite <- (firstn_skipn (eventIndex (runSteps q p sf n)) q) in F.
    apply Forall_app in F. tauto.
Qed.

End Stable.

(** X17.  In exact arithmetic, for doses that are not negative and
    parameters whose rate constants empty no compartment within one step
    ([Cl + Q2 + Q3 <= 6 V1], [Q2 <= 6 V2], [Q3 <= 6 V3], [ke0 <= 6]), no
    concentration is ever negative, before or after the rounding of the
    sample. *)
Theorem concentrations_nonnegative (events : list event)
    (params : PKParameters R) (drugType : string) (step : nat) :
  stepStable params -> Forall nonnegDose events ->
  let q := sort events in
  let sf := scaleOf drugType in
  0 <= cpAfter q params sf step /\ 0 <= xeAfter q params sf step /\
  0 <= cp (sampleAfter q params sf step) /\
  0 <= ce (sampleAfter q params sf step).
Proof.
  intros St F q sf.
  assert (Sf : 0 <= sf).
  { unfold sf, scaleOf. destruct (isMgDrug drugType); simpl; lra. }
  assert (Fq : Forall nonnegDose q).
  { apply Forall_forall. intros e I. rewrite Forall_forall in F. apply F.
    apply (Permutation_in _ (sort_perm events)), I. }
  destruct (runSteps_nonneg St Sf (S step) Fq) as (N1 & _ & _ & Ne & _).
  assert (C : 0 <= cpAfter q params sf step).
  { unfold cpAfter. destruct St as (P1 & _). simpl. unfold Rdiv.
    apply Rmult_le_pos; [exact N1|]. left. now apply Rinv_0_lt_compat. }
  split; [exact C|]. split; [exact Ne|].
  unfold sampleAfter. cbn [cp ce]. simpl.
  split; apply fixed2_nonneg; assumption.
Qed.

(** X17 on a bolus under the unit parameters. *)
Lemma concentrations_nonnegative_witness :
  0 <= cpAfter (sort [bolus 0 6]) unit_params (scaleOf "Fentanyl") 6 /\
  0 <= xeAfter (sort [bolus 0 6]) unit_params (scaleOf "Fentanyl") 6 /\
  0 <= cp (sampleAfter (sort [bolus 0 6]) unit_params (scaleOf "Fentanyl") 6) /\
  0 <= ce (sampleAfter (sort [bolus 0 6]) unit_params (scaleOf "Fentanyl") 6).
Proof.
  apply (@concentrations_nonnegative [bolus 0 6] unit_params "Fentanyl" 6).
  - unfold stepStable. simpl. repeat split; try lra.
  - constructor; [simpl; lra | constructor].
Defined.

End AmountFacts.

Section AmountExamples.

Local Open Scope string_scope.
Local Open Scope float_scope.

(** Without the condition on the step a concentration turns negative, on
    binary64 as well: with [Cl = 12 V1] the first iteration takes twice
    what the central compartment holds, and the sample is negative. *)
Lemma unstable_step_goes_negative :
  simulateConcentration [bolus 0 6]
    {| V1 := 1; V2 := 1; V3 := 0; Cl := 12; Q2 := 0; Q3 := 0; ke0 := 0 |}
    0 "Fentanyl"
  = Some [{| time := 0; cp := -6; ce := 0 |}].
Proof. vm_compute. reflexivity. Qed.

End AmountExamples.

(** * The units offered for a drug *)

Section UnitFacts.

Local Open Scope string_scope.

Lemma DRUG_UNITS_drugs (drug : string) (units : list string) :
  DRUG_UNITS drug = Some units ->
  In drug ["Fentanyl"; "Remifentanil"; "Morphine"; "Hydromorphone";
           "Methadone"; "Sufentanil"].
Proof.
  unfold DRUG_UNITS.
  repeat match goal with
  | |- context [String.eqb ?a ?b] =>
      destruct (String.eqb_spec a b); [subst; simpl; tauto|]
  end.
  discriminate.
Qed.

(** X18.  Every unit offered for a drug is one the converter knows, so
    the default branch of its [switch] is never taken from the form; in
    exact arithmetic the stored rate is then the entered rate per hour in
    the mass unit of the drug: times the weight for a unit per kg, times
    60 for a unit per minute, and divided by 1000 when micrograms are
    entered for a drug dosed in milligrams. *)
Theorem offered_units_convert (drug unit : string) (units : list string)
    (rate weight : R) :
  DRUG_UNITS drug = Some units -> In unit units ->
  In unit ["mcg/hr"; "mg/hr"; "mcg/kg/min"; "mcg/min"; "mcg/kg/hr";
           "mg/kg/hr"] /\
  convertToStandardUnit rate unit weight drug
  = (rate * (if includes "/kg" unit then weight else 1)
     * (if includes "/min" unit then 60 else 1)
     * (if (isMgDrug drug && String.prefix "mcg" unit)%bool then / 1000 else 1))%R.
Proof.
  intros D I. pose proof (DRUG_UNITS_drugs _ D) as G. simpl in G.
  destruct G as [<-|[<-|[<-|[<-|[<-|[<-|[]]]]]]]; injection D as <-;
    simpl in I;
    repeat match type of I with
    | _ \/ _ => destruct I as [<-|I]
    | False => destruct I
    end;
    (split; [simpl; tauto|]);
    unfold convertToStandardUnit, valInMcgHr; simpl; field.
Qed.

(** X18 on Remifentanil in micrograms per kg and minute. *)
Lemma offered_units_convert_witness :
  In "mcg/kg/min"
    ["mcg/hr"; "mg/hr"; "mcg/kg/min"; "mcg/min"; "mcg/kg/hr"; "mg/kg/hr"] /\
  convertToStandardUnit 2%R "mcg/kg/min" 10%R "Remifentanil"
  = (2 * (if includes "/kg" "mcg/kg/min" then 10 else 1)
     * (if includes "/min" "mcg/kg/min" then 60 else 1)
     * (if (isMgDrug "Remifentanil" && String.prefix "mcg" "mcg/kg/min")%bool
        then / 1000 else 1))%R.
Proof.
  apply (@offered_units_convert "Remifentanil" "mcg/kg/min"
           ["mcg/kg/min"; "mcg/hr"; "mcg/min"] 2%R 10%R).
  - reflexivity.
  - simpl. tauto.
Defined.

End UnitFacts.

(** * Integers in binary64 *)

Section SpecFacts.

Local Open Scope Z_scope.

Lemma digits2_pos_bounds (m : positive) :
  2 ^ (Z.pos (digits2_pos m) - 1) <= Z.pos m < 2 ^ Z.pos (digits2_pos m).
Proof.
  induction m as [m IH|m IH|]; cbn [digits2_pos];
    [| |simpl; lia];
    rewrite Pos2Z.inj_succ;
    replace (Z.succ (Z.pos (digits2_pos m)) - 1) with (Z.pos (digits2_pos m))
      by lia;
    rewrite Z.pow_succ_r by lia;
    assert (P : 2 ^ Z.pos (digits2_pos m)
                = 2 * 2 ^ (Z.pos (digits2_pos m) - 1))
      by (rewrite <- Z.pow_succ_r by lia; f_equal; lia);
    lia.
Qed.

Lemma iter_xO_value (m d : positive) :
  Z.pos (Pos.iter xO m d) = Z.pos m * 2 ^ Z.pos d.
Proof.
  revert m. induction d using Pos.peano_ind; intros m.
  - simpl. lia.
  - rewrite Pos.iter_succ, Pos2Z.inj_succ, Z.pow_succ_r by lia.
    rewrite Pos2Z.inj_xO, IHd. lia.
Qed.

Lemma iter_xO_digits (m d : positive) :
  digits2_pos (Pos.iter xO m d) = (digits2_pos m + d)%positive.
Proof.
  induction d using Pos.peano_ind.
  - simpl. lia.
  - rewrite Pos.iter_succ. cbn [digits2_pos]. rewrite IHd. lia.
Qed.

(** What validity says of a finite double. *)
Lemma bounded_spec (m : positive) (e : Z) :
  SpecFloat.bounded prec emax m e = true ->
  Z.pos (digits2_pos m) <= 53 /\ -1074 <= e <= 971 /\
  (-1074 < e -> Z.pos (digits2_pos m) = 53).
Proof.
  unfold SpecFloat.bounded, canonical_mantissa, fexp, emin.
  change prec with 53. change emax with 1024.
  intros B. apply andb_prop in B. destruct B as [C E].
  apply Z.eqb_eq in C. apply Z.leb_le in E. lia.
Qed.

Lemma finite_spec (x : float) (s : bool) (m : positive) (e : Z) :
  Prim2SF x = S754_finite s m e ->
  Z.pos m < 2 ^ 53 /\ -1074 <= e <= 971 /\ (-1074 < e -> 2 ^ 52 <= Z.pos m).
Proof.
  intros E. pose proof (Prim2SF_valid x) as V. rewrite E in V.
  apply bounded_spec in V. destruct V as (D & B & N).
  pose proof (digits2_pos_bounds m) as [L U].
  split; [|split; [exact B|]].
  - eapply Z.lt_le_trans; [exact U|]. apply Z.pow_le_mono_r; lia.
  - intros G. rewrite (N G) in L. exact L.
Qed.

(** Rounding leaves a canonical mantissa as it is. *)
Lemma binary_round_aux_canonical (s : bool) (m : positive) (e : Z) :
  SpecFloat.bounded prec emax m e = true ->
  binary_round_aux prec emax s (Z.pos m) e loc_Exact = S754_finite s m e.
Proof.
  intros B. unfold SpecFloat.bounded in B. apply andb_prop in B. destruct B as [C E].
  unfold canonical_mantissa in C. apply Z.eqb_eq in C.
  unfold binary_round_aux, shr_fexp. cbn [Zdigits2 shr_record_of_loc].
  rewrite C, Z.sub_diag. cbn [shr shr_m loc_of_shr_record round_nearest_even Zdigits2 shr_record_of_loc].
  rewrite C, Z.sub_diag. cbn [shr shr_m]. now rewrite E.
Qed.

Lemma binary_round_small (s : bool) (p : positive) :
  Z.pos p < 2 ^ 53 ->
  exists m e,
    binary_round prec emax s p 0 = S754_finite s m e /\
    SpecFloat.bounded prec emax m e = true /\
    -52 <= e <= 0 /\ Z.pos m = Z.pos p * 2 ^ (- e).
Proof.
  intros U. pose proof (digits2_pos_bounds p) as [L _].
  assert (D : Z.pos (digits2_pos p) <= 53).
  { destruct (Z_le_gt_dec (Z.pos (digits2_pos p)) 53) as [G|G]; [exact G|].
    exfalso. assert (2 ^ 53 <= 2 ^ (Z.pos (digits2_pos p) - 1))
      by (apply Z.pow_le_mono_r; lia). lia. }
  unfold binary_round, fexp, emin, shl_align.
  change prec with 53. change emax with 1024.
  rewrite Z.add_0_r.
  replace (Z.max (Z.pos (digits2_pos p) - 53) (3 - 1024 - 53))
    with (Z.pos (digits2_pos p) - 53) by lia.
  rewrite Z.sub_0_r.
  destruct (Z.pos (digits2_pos p) - 53) as [|d|d] eqn:E; [|lia|].
  - assert (B : SpecFloat.bounded 53 1024 p 0 = true).
    { unfold SpecFloat.bounded, canonical_mantissa, fexp, emin.
      apply andb_true_intro. split; [apply Z.eqb_eq; lia | reflexivity]. }
    exists p, 0. split; [now apply binary_round_aux_canonical|].
    split; [exact B|]. simpl. lia.
  - assert (B : SpecFloat.bounded 53 1024 (Pos.iter xO p d) (Z.neg d) = true).
    { unfold SpecFloat.bounded, canonical_mantissa, fexp, emin.
      rewrite iter_xO_digits, Pos2Z.inj_add.
      apply andb_true_intro. split; [apply Z.eqb_eq; lia | apply Z.leb_le; lia]. }
    exists (Pos.iter xO p d), (Z.neg d).
    split; [now apply binary_round_aux_canonical|].
    split; [exact B|]. split; [lia|].
    rewrite iter_xO_value. reflexivity.
Qed.

Lemma float_of_Z_0 : Prim2SF (Float64.float_of_Z 0) = S754_zero false.
Proof. reflexivity. Qed.

Lemma float_of_Z_small (z : Z) :
  z <> 0 -> Z.abs z < 2 ^ 53 ->
  exists m e,
    Prim2SF (Float64.float_of_Z z) = S754_finite (z <? 0) m e /\
    -52 <= e <= 0 /\ Z.pos m = Z.abs z * 2 ^ (- e).
Proof.
  intros N U. unfold Float64.float_of_Z.
  destruct z as [|p|p]; [easy| |]; cbn [binary_normalize Z.abs] in *.
  - destruct (binary_round_small false U) as (m & e & E & B & R & V).
    exists m, e. rewrite E, Prim2SF_SF2Prim by exact B. auto.
  - destruct (binary_round_small true U) as (m & e & E & B & R & V).
    exists m, e. rewrite E, Prim2SF_SF2Prim by exact B. auto.
Qed.

(** The integer of the double nearest to a small integer is that integer. *)
Lemma int_of_float_of_Z (z : Z) :
  Z.abs z < 2 ^ 53 -> Float64.int_of (Float64.float_of_Z z) = Some z.
Proof.
  intros U. unfold Float64.int_of.
  destruct (Z.eq_dec z 0) as [->|N]; [reflexivity|].
  destruct (@float_of_Z_small z N U) as (m & e & E & R & V).
  rewrite E.
  destruct (0 <=? e) eqn:P.
  - apply Z.leb_le in P. assert (e = 0) by lia. subst e.
    simpl in V. f_equal. unfold Float64.signed.
    destruct z; simpl in *; lia.
  - assert (M : Z.pos m mod 2 ^ (- e) = 0)
      by (rewrite V; apply Z.mod_mul; lia).
    rewrite M. cbn [Z.eqb]. f_equal. unfold Float64.signed.
    assert (0 < 2 ^ (- e)) by (apply Z.pow_pos_nonneg; lia).
    destruct z as [|p|p]; [easy| |]; cbn [Z.ltb Z.compare Z.abs] in *.
    + rewrite V. apply Z.div_mul. lia.
    + change (Z.neg m) with (- Z.pos m). rewrite V.
      replace (- (Z.pos p * 2 ^ (- e))) with (Z.neg p * 2 ^ (- e)) by lia.
      apply Z.div_mul. lia.
Qed.

End SpecFacts.

Section LoopCountFacts.

Import Float64Facts.

Local Open Scope Z_scope.

Lemma limit_SF :
  Prim2SF (Float64.float_of_Z (2 ^ 53))
  = S754_finite false 4503599627370496 1.
Proof. vm_compute. reflexivity. Qed.

Lemma div_abs_le (z d : Z) : 0 < d -> Z.abs (z / d) <= Z.abs z.
Proof.
  intros D. pose proof (Z.div_mod z d) as E.
  pose proof (Z.mod_pos_bound z d D) as B. nia.
Qed.

(** [Math.floor] returns its argument or the double of a small integer. *)
Lemma floor_cases (y : float) :
  (Float64.floor y = y /\
   match Prim2SF y with
   | S754_finite _ _ e => 0 <= e
   | _ => True
   end) \/
  exists q, Z.abs q < 2 ^ 53 /\ Float64.floor y = Float64.float_of_Z q.
Proof.
  unfold Float64.floor.
  destruct (Prim2SF y) as [s|s| |s m e] eqn:E; auto.
  destruct (0 <=? e) eqn:P; [left; split; [reflexivity | now apply Z.leb_le]|].
  right. apply Z.leb_gt in P. eexists. split; [|reflexivity].
  destruct (finite_spec y E) as (U & _).
  eapply Z.le_lt_trans; [apply div_abs_le; apply Z.pow_pos_nonneg; lia|].
  unfold Float64.signed. destruct s; simpl; lia.
Qed.

Lemma loopCount_negative (t : float) :
  nleb (of_Z 0) t = false -> loopCount t = Some O.
Proof. intros P. unfold loopCount. now rewrite P. Qed.

(** Below 2^53 the bound of the loop is an integer the counter reaches. *)
Lemma loopCount_below (y : float) :
  let t := Math_floor y in
  nleb (of_Z 0) t = true -> nltb t (of_Z (2 ^ 53)) = true ->
  exists z, 0 <= z < 2 ^ 53 /\ to_int t = Some z /\
            loopCount t = Some (S (Z.to_nat z)).
Proof.
  intros t P L.
  assert (G : exists z, 0 <= z < 2 ^ 53 /\ to_int t = Some z).
  { cbn [nleb nltb float_JSNumber of_Z] in P, L.
    rewrite FloatAxioms.leb_spec in P. rewrite FloatAxioms.ltb_spec in L.
    rewrite limit_SF in L. rewrite float_of_Z_0 in P.
    subst t. cbn [Math_floor to_int float_JSNumber] in *.
    destruct (floor_cases y) as [[Fl F]|(q & Q & Fl)]; rewrite Fl in *.
    - unfold Float64.int_of.
      destruct (Prim2SF y) as [s|s| |s m e] eqn:E.
      + exists 0. split; [lia | reflexivity].
      + destruct s; discriminate.
      + discriminate.
      + destruct s; [discriminate|].
        destruct (finite_spec y E) as (U & B & N).
        assert (e = 0).
        { unfold SFltb, SFcompare in L.
          destruct (Z.compare_spec e 1) as [->|Lt|Gt]; [|lia|discriminate].
          exfalso. assert (M : 2 ^ 52 <= Z.pos m) by (apply N; lia).
          destruct (Pos.compare_cont Eq m 4503599627370496) eqn:C;
            try discriminate.
          rewrite compare_cont_Eq in C.
          assert (C' : Z.pos m < 2 ^ 52) by (apply Pos2Z.pos_lt_pos; exact C).
          clear -M C'. lia. }
        subst e. cbn [Z.leb Z.compare]. exists (Z.pos m).
        split; [lia|]. cbn [Float64.signed]. f_equal. lia.
    - rewrite (@int_of_float_of_Z q Q). exists q. split; [|reflexivity].
      split; [|lia].
      destruct (Z.eq_dec q 0) as [->|N]; [lia|].
      destruct (@float_of_Z_small q N Q) as (m & e & E & _).
      rewrite E in P. destruct (q <? 0) eqn:S; [discriminate|].
      apply Z.ltb_ge in S. exact S. }
  destruct G as (z & Z & T). exists z. split; [exact Z|]. split; [exact T|].
  unfold loopCount. rewrite P, T. cbn [max_safe_integer float_JSNumber].
  replace (z <? 2 ^ 53) with true by (symmetry; apply Z.ltb_lt; lia).
  reflexivity.
Qed.

(** From 2^53 on the counter never passes the bound. *)
Lemma loopCount_above (y : float) :
  let t := Math_floor y in
  nleb (of_Z (2 ^ 53)) t = true -> loopCount t = None.
Proof.
  intros t L.
  cbn [nleb float_JSNumber of_Z] in L.
  rewrite FloatAxioms.leb_spec, limit_SF in L.
  unfold loopCount. cbn [nleb float_JSNumber of_Z max_safe_integer to_int].
  rewrite FloatAxioms.leb_spec, float_of_Z_0.
  subst t. cbn [Math_floor float_JSNumber] in *.
  destruct (floor_cases y) as [[Fl F]|(q & Q & Fl)]; rewrite Fl in *.
  - unfold Float64.int_of.
    destruct (Prim2SF y) as [s|s| |s m e] eqn:E.
    + discriminate.
    + destruct s; [discriminate | reflexivity].
    + discriminate.
    + destruct s; [discriminate|].
      destruct (finite_spec y E) as (U & B & N).
      cbn [SFleb SFcompare].
      replace (0 <=? e) with true by (symmetry; apply Z.leb_le; exact F).
      assert (e >= 1).
      { unfold SFleb, SFcompare in L.
        destruct (Z.compare_spec 1 e); [lia|lia|discriminate]. }
      assert (M : 2 ^ 52 <= Z.pos m) by (apply N; lia).
      cbn [Float64.signed].
      replace (Z.pos m * 2 ^ e <? 2 ^ 53) with false; [reflexivity|].
      symmetry. apply Z.ltb_ge.
      assert (2 ^ 1 <= 2 ^ e) by (apply Z.pow_le_mono_r; lia).
      change (2 ^ 53) with (2 ^ 52 * 2 ^ 1). nia.
  - exfalso.
    destruct (Z.eq_dec q 0) as [->|N]; [rewrite float_of_Z_0 in L; discriminate|].
    destruct (@float_of_Z_small q N Q) as (m & e & E & R & _).
    rewrite E in L. unfold SFleb, SFcompare in L.
    destruct (q <? 0); [discriminate|].
    destruct (Z.compare_spec 1 e); [lia|lia|discriminate].
Qed.

End LoopCountFacts.

(** * A run without events, for every duration *)

Section EveryDuration.

Import Float64Facts.

Local Open Scope string_scope.
Local Open Scope float_scope.

Lemma filter_all_false (A : Type) (f : A -> bool) (l : list A) :
  (forall x, In x l -> f x = false) -> filter f l = [].
Proof.
  induction l as [|x l IH]; intros F; [reflexivity|].
  cbn [filter]. rewrite (F x) by now left. apply IH.
  intros y I. apply F. now right.
Qed.

(** On binary64 the sampled iterations among [0 .. n] are the multiples
    of 6. *)
Lemma sampledSteps_binary64 (n : nat) :
  sampledSteps (num := float) (S n)
  = map (fun i => 6 * i)%nat (seq 0 (n / 6 + 1)).
Proof.
  pose proof (Nat.div_mod_eq n 6) as E.
  pose proof (Nat.mod_upper_bound n 6) as U.
  replace (S n) with ((6 * (n / 6) + 1) + n mod 6)%nat by lia.
  unfold sampledSteps. rewrite seq_app, filter_app.
  fold (sampledSteps (num := float) (6 * (n / 6) + 1)).
  rewrite sampledSteps_grid, Nat.add_0_l.
  rewrite filter_all_false; [apply app_nil_r|].
  intros x I. apply in_seq in I.
  replace x with (6 * (n / 6) + (x - 6 * (n / 6)))%nat by lia.
  rewrite onMinute_offset. apply Z.eqb_neq.
  rewrite Z.mod_small by lia. lia.
Qed.

(** Without events every sample is zero. *)
Lemma sampleAfter_nil (p : PKParameters float) (sf : float) (step : nat) :
  sampleAfter [] p sf step
  = {| time := Math_round (stepTime step); cp := 0; ce := 0 |}.
Proof.
  destruct (runSteps_nil_zero p sf (S step)) as (Z1 & _ & _ & Ze & _).
  unfold sampleAfter, cpAfter, xeAfter. f_equal.
  - apply rounded_ZN, div_ZN, isZero_ZN, Z1.
  - apply rounded_ZN, isZero_ZN, Ze.
Qed.

Lemma limit_cases (t : float) :
  nleb (of_Z 0) t = true ->
  nltb t (of_Z (2 ^ 53)) = true \/ nleb (of_Z (2 ^ 53)) t = true.
Proof.
  intros P. cbn [nleb nltb float_JSNumber] in *.
  destruct (PrimFloat.leb (of_Z (2 ^ 53)) t) eqn:L; [now right|left].
  apply not_leb_ltb; [reflexivity | | exact L].
  now destruct (leb_not_nan P).
Qed.




End EveryDuration.

(** * The cursor of the event queue and the infusion rate *)

Section CursorFacts.

Context {num : Type} `{JSNumber num}.

Local Open Scope num_scope.

Lemma takeWhile_prefix (f : DoseEvent num -> bool) (l : list (DoseEvent num)) :
  firstn (length (takeWhile f l)) l = takeWhile f l.
Proof.
  induction l as [|e l IH]; [reflexivity|].
  cbn [takeWhile]. destruct (f e); [|reflexivity].
  cbn [length firstn]. now rewrite IH.
Qed.

(** The [while] stops at an event for which its condition fails. *)
Lemma takeWhile_next (f : DoseEvent num -> bool) (l : list (DoseEvent num))
    (e : DoseEvent num) :
  nth_error l (length (takeWhile f l)) = Some e -> f e = false.
Proof.
  induction l as [|x l IH]; [discriminate|].
  cbn [takeWhile]. destruct (f x) eqn:F.
  - cbn [length nth_error]. exact IH.
  - cbn [length nth_error]. now intros [= <-].
Qed.

Lemma processEvents_index (sf t : num) (pending : list (DoseEvent num))
    (st : SimState num) :
  eventIndex (processEvents sf t pending st)
  = (eventIndex st + length (takeWhile (dueBy t) pending))%nat.
Proof.
  revert st. induction pending as [|evt rest IH]; intros st.
  - simpl. lia.
  - cbn [processEvents takeWhile].
    change (nleb (evt_time evt) t) with (dueBy t evt).
    destruct (dueBy t evt); [|simpl; lia].
    rewrite IH. destruct evt; cbn [applyEvent eventIndex length]; lia.
Qed.

Lemma firstn_plus (A : Type) (a b : nat) (l : list A) :
  firstn (a + b) l = firstn a l ++ firstn b (skipn a l).
Proof.
  revert l. induction a as [|a IH]; intros l; [reflexivity|].
  destruct l as [|x l]; [simpl; now rewrite firstn_nil|].
  cbn [Nat.add firstn skipn app]. now rewrite IH.
Qed.

Lemma handledAt_prefix (q : list (DoseEvent num)) (n : nat) :
  firstn (length (handledAt q n)) q = handledAt q n.
Proof.
  induction n as [|n IH]; cbn [handledAt]; [apply takeWhile_prefix|].
  rewrite length_app, firstn_plus, IH. f_equal. apply takeWhile_prefix.
Qed.

Variable q : list (DoseEvent num).
Variable p : PKParameters num.
Variable sf : num.

Lemma eventIndex_handledAt (n : nat) :
  eventIndex (atDerivatives q p sf n) = length (handledAt q n).
Proof.
  induction n as [|n IH]; unfold atDerivatives, afterEvents;
    rewrite processEvents_index.
  - reflexivity.
  - rewrite runSteps_S. unfold integrate at 1 2. cbn [eventIndex].
    rewrite IH. cbn [handledAt]. now rewrite length_app.
Qed.

(** The cursor has passed exactly the events of [handledAt]. *)
Lemma handled_handledAt (n : nat) :
  firstn (eventIndex (atDerivatives q p sf n)) q = handledAt q n.
Proof. rewrite eventIndex_handledAt. apply handledAt_prefix. Qed.

(** The event at the cursor, if any, is not due. *)
Lemma cursor_not_due (n : nat) (e : DoseEvent num) :
  nth_error q (eventIndex (atDerivatives q p sf n)) = Some e ->
  dueBy (stepTime n) e = false.
Proof.
  rewrite eventIndex_handledAt. destruct n as [|n]; cbn [handledAt].
  - apply takeWhile_next.
  - rewrite length_app, <- nth_error_skipn. apply takeWhile_next.
Qed.

End CursorFacts.

(** C4.  For every number instance, when iteration [step] computes its
    derivatives the events handled so far are those the [while] loops of
    the iterations up to [step] pass, each loop taking the due events at
    its cursor up to the first that is not due, so the event left at the
    cursor is not due; the rate scalar is [rate * scaleFactor / 60] of
    the [infusion_start] handled last if no [infusion_stop] was handled
    after it, and 0 otherwise, and the Euler update leaves it as it is.
    So it is 0 or comes from one single [infusion_start] of the event
    list: rates are never added up.  In exact arithmetic the events
    handled are exactly the events due, those with a time up to
    [step / 6], and the rate is that of the infusion event due last. *)
Theorem single_infusion_rate :
  (forall (num : Type) (N : JSNumber num) (events : list (DoseEvent num))
          (params : PKParameters num) (drugType : string) (step : nat),
     let q := sort events in
     let sf := scaleOf drugType in
     let st := atDerivatives q params sf step in
     let handled := firstn (eventIndex st) q in
     handled = handledAt q step /\
     (forall e, nth_error q (eventIndex st) = Some e ->
                dueBy (stepTime step) e = false) /\
     currentInfusionRate st = activeRate sf handled /\
     currentInfusionRate (runSteps q params sf (S step))
     = currentInfusionRate st /\
     activeRate sf [] = #0%num /\
     (forall l t amount,
        activeRate sf (l ++ [bolus t amount]) = activeRate sf l) /\
     (forall l t rate,
        activeRate sf (l ++ [infusion_start t rate]) = (rate * sf / #60)%num) /\
     (forall l t, activeRate sf (l ++ [infusion_stop t]) = #0%num) /\
     (currentInfusionRate st = #0%num \/
      exists t rate, In (infusion_start t rate) events /\
                     currentInfusionRate st = (rate * sf / #60)%num)) /\
  (forall (events : list (DoseEvent R)) (params : PKParameters R)
          (drugType : string) (step : nat),
     let q := sort events in
     let sf := scaleOf drugType in
     let st := atDerivatives q params sf step in
     let handled := firstn (eventIndex st) q in
     handled = filter (dueBy (stepTime step)) q /\
     (forall e, In e handled <->
                In e events /\ (evt_time e <= IZR (Z.of_nat step) / 6)%R) /\
     currentInfusionRate st
     = activeRate sf
         (filter (dueBy (stepTime step)) (sort (filter isInfusion events)))).
Proof.
  split.
  - intros num N events params drugType step q sf st handled.
    assert (R : currentInfusionRate st = activeRate sf handled)
      by apply atDerivatives_rate.
    split; [apply handled_handledAt|].
    split; [apply cursor_not_due|].
    split; [exact R|]. split; [reflexivity|]. split; [reflexivity|].
    split; [intros; now rewrite activeRate_snoc|].
    split; [intros; now rewrite activeRate_snoc|].
    split; [intros; now rewrite activeRate_snoc|].
    rewrite R. destruct (activeRate_cases sf handled) as [Z|(t & r & I & E)].
    + now left.
    + right. exists t, r. split; [|exact E].
      apply (Permutation_in _ (sort_perm events)).
      now apply firstn_In with (n := eventIndex st).
  - intros events params drugType step q sf st handled.
    pose proof (handled_due params sf events step) as E.
    split; [exact E|]. split; [|apply rate_atDerivatives].
    intros e. unfold handled, st, q. rewrite E.
    rewrite filter_In, dueBy_true, stepTime_exact.
    split; intros [I L]; (split; [|lra]).
    + apply (Permutation_in _ (sort_perm events)), I.
    + apply (Permutation_in _ (Permutation_sym (sort_perm events))), I.
Qed.

(** * Events after the end of the run, on binary64 *)

Section TailFacts.

Context {num : Type} `{JSNumber num}.

Local Open Scope num_scope.

(** An event that the comparator does not order after [x] stays behind
    [x] when [x] is inserted. *)
Lemma insert_app (x : DoseEvent num) (l1 l2 : list (DoseEvent num)) :
  Forall (fun y => (comparator y x <? #0) = false) l2 ->
  insert x (l1 ++ l2) = insert x l1 ++ l2.
Proof.
  intros F. induction l1 as [|z l1 IH].
  - cbn [app insert]. destruct F as [|y l2 Hy _]; [reflexivity|].
    cbn [insert]. now rewrite Hy.
  - cbn [app insert]. destruct (comparator z x <? #0); [|reflexivity].
    cbn [app]. now rewrite IH.
Qed.

Lemma sort_app (l1 l2 : list (DoseEvent num)) :
  Forall (fun x => Forall (fun y => (comparator y x <? #0) = false) l2) l1 ->
  sort (l1 ++ l2) = sort l1 ++ sort l2.
Proof.
  induction 1 as [|x l1 Hx _ IH]; [reflexivity|].
  cbn [app]. change (sort (?a :: ?m)) with (insert a (sort m)).
  rewrite IH. apply insert_app.
  apply Forall_forall. intros y I. rewrite Forall_forall in Hx. apply Hx.
  apply (Permutation_in _ (sort_perm l2)), I.
Qed.

Lemma processEvents_tail (sf t : num) (pending rest : list (DoseEvent num))
    (st : SimState num) :
  Forall (fun e => dueBy t e = false) rest ->
  processEvents sf t (pending ++ rest) st = processEvents sf t pending st.
Proof.
  intros F. revert st. induction pending as [|evt pending IH]; intros st.
  - cbn [app]. destruct F as [|e rest He _]; [reflexivity|].
    cbn [processEvents]. change (nleb (evt_time e) t) with (dueBy t e).
    now rewrite He.
  - cbn [app processEvents].
    destruct (nleb (evt_time evt) t); [apply IH|reflexivity].
Qed.

Lemma handledAt_length (q : list (DoseEvent num)) (n : nat) :
  (length (handledAt q n) <= length q)%nat.
Proof.
  rewrite <- (handledAt_prefix q n), length_firstn. lia.
Qed.

(** The events at the end of the queue that are due at no iteration
    leave the run as it is without them. *)
Lemma runSteps_tail (q rest : list (DoseEvent num)) (p : PKParameters num)
    (sf : num) (n : nat) :
  (forall k, (k < n)%nat ->
             Forall (fun e => dueBy (stepTime k) e = false) rest) ->
  runSteps (q ++ rest) p sf n = runSteps q p sf n.
Proof.
  induction n as [|n IH]; intros F; [reflexivity|].
  rewrite !runSteps_S. f_equal.
  unfold atDerivatives, afterEvents.
  rewrite IH by (intros k Hk; apply F; lia).
  rewrite skipn_app.
  replace (eventIndex (runSteps q p sf n) - length q)%nat with 0%nat.
  - cbn [skipn]. apply processEvents_tail. apply F. lia.
  - destruct n as [|n]; [simpl; lia|].
    rewrite runSteps_S. unfold integrate. cbn [eventIndex].
    rewrite eventIndex_handledAt. pose proof (handledAt_length q n). lia.
Qed.

End TailFacts.

Section LateFacts.

Import Float64Facts.

Local Open Scope float_scope.

Lemma leb_ltb_trans (x y z : float) :
  (x <=? y) = true -> (y <? z) = true -> (x <? z) = true.
Proof.
  rewrite leb_compare, !ltb_compare.
  destruct (Prim2SF x) as [[]|[]| |[] mx ex],
    (Prim2SF y) as [[]|[]| |[] my ey],
    (Prim2SF z) as [[]|[]| |[] mz ez];
    simpl; try reflexivity; try discriminate; intros; order_cases.
Qed.

Lemma binary_round_aux_sign (s : bool) (m e : Z) (l : location) :
  SFltb (binary_round_aux prec emax s m e l) (S754_zero false) = true ->
  s = true.
Proof.
  unfold binary_round_aux.
  destruct (shr_fexp prec emax m e l) as [mrs' e'].
  destruct (shr_fexp prec emax _ e' loc_Exact) as [mrs'' e''].
  destruct (shr_m mrs'') as [|p|p]; [| |discriminate].
  - destruct s; [reflexivity | discriminate].
  - destruct (e'' <=? emax - prec)%Z; destruct s;
      (reflexivity || discriminate).
Qed.

Lemma binary_normalize_positive (m e : Z) :
  (0 < m)%Z ->
  SFltb (binary_normalize prec emax m e false) (S754_zero false) = false.
Proof.
  intros P. destruct m as [|p|p]; try lia.
  cbn [binary_normalize]. unfold binary_round.
  destruct (shl_align p e _) as [mz ez].
  destruct (SFltb _ _) eqn:L; [|reflexivity].
  apply binary_round_aux_sign in L. discriminate.
Qed.

Lemma shl_align_value (m : positive) (e ez : Z) :
  (ez <= e)%Z ->
  Z.pos (fst (shl_align m e ez)) = (Z.pos m * 2 ^ (e - ez))%Z.
Proof.
  intros L. unfold shl_align.
  destruct (ez - e)%Z as [|d|d] eqn:D; cbn [fst].
  - replace (e - ez)%Z with 0%Z by lia. simpl. lia.
  - lia.
  - rewrite iter_xO_value. f_equal. f_equal. lia.
Qed.

(** The difference of two doubles is not negative when the first is the
    greater. *)
Lemma sub_not_negative (x y : float) :
  (x <? y) = true -> (y - x <? 0) = false.
Proof.
  rewrite (FloatAxioms.ltb_spec (y - x)), FloatAxioms.sub_spec, ltb_compare.
  change (Prim2SF 0) with (S754_zero false).
  destruct (Prim2SF x) as [sx|sx| |sx mx ex] eqn:Ex,
    (Prim2SF y) as [sy|sy| |sy my ey] eqn:Ey;
    try (destruct sx; try destruct sy; simpl; (reflexivity || discriminate));
    try (simpl; discriminate).
  intros C. unfold SF64sub, SFsub.
  apply binary_normalize_positive.
  destruct (finite_spec x Ex) as (Ux & Bx & Nx).
  destruct (finite_spec y Ey) as (Uy & By & Ny).
  rewrite !shl_align_value by lia.
  assert (T : (2 ^ 53 = 2 ^ 52 * 2)%Z) by reflexivity.
  assert (W : forall a b : Z, (a < b)%Z -> (2 <= 2 ^ (b - a))%Z).
  { intros a b L. change 2%Z with (2 ^ 1)%Z at 1.
    apply Z.pow_le_mono_r; lia. }
  assert (Px : (0 < 2 ^ (ex - Z.min ey ex))%Z)
    by (apply Z.pow_pos_nonneg; lia).
  assert (Py : (0 < 2 ^ (ey - Z.min ey ex))%Z)
    by (apply Z.pow_pos_nonneg; lia).
  destruct sx, sy; cbn [cond_Zopp SFcompare] in *; try discriminate.
  - destruct (Z.compare_spec ex ey) as [E|L|G]; try discriminate.
    + subst ey. rewrite compare_cont_Eq in C.
      destruct (Pos.compare_spec mx my) as [E|L|G]; try discriminate.
      rewrite Z.min_id, Z.sub_diag in *. change (2 ^ 0)%Z with 1%Z. lia.
    + rewrite Z.min_l, Z.sub_diag in * by lia.
      assert (M : (2 ^ 52 <= Z.pos mx)%Z) by (apply Nx; lia).
      pose proof (W ey ex G). change (2 ^ 0)%Z with 1%Z. nia.
  - nia.
  - destruct (Z.compare_spec ex ey) as [E|L|G]; try discriminate.
    + subst ey. rewrite compare_cont_Eq in C.
      destruct (Pos.compare_spec mx my) as [E|L|G]; try discriminate.
      rewrite Z.min_id, Z.sub_diag in *. change (2 ^ 0)%Z with 1%Z. lia.
    + rewrite Z.min_r, Z.sub_diag in * by lia.
      assert (M : (2 ^ 52 <= Z.pos my)%Z) by (apply Ny; lia).
      pose proof (W ex ey L). change (2 ^ 0)%Z with 1%Z. nia.
Qed.

(** The times of the iterations grow, up to the last one of 2880
    minutes, and the iteration [6 * m] is at minute [m]. *)
Lemma stepTime_grows :
  forallb (fun k => PrimFloat.leb (stepTime k) (stepTime (S k)))
    (seq 0 (6 * 2880))
  = true.
Proof. vm_compute. reflexivity. Qed.

Lemma stepTime_minute :
  forallb (fun m => PrimFloat.leb (stepTime (6 * m)) (of_Z (Z.of_nat m)))
    (seq 0 2881)
  = true.
Proof. vm_compute. reflexivity. Qed.

Lemma stepTime_within (minutes k : nat) :
  (minutes <= 2880)%nat -> (k <= 6 * minutes)%nat ->
  (stepTime k <=? of_Z (Z.of_nat minutes)) = true.
Proof.
  intros M K.
  pose proof stepTime_grows as G. rewrite forallb_forall in G.
  pose proof stepTime_minute as E. rewrite forallb_forall in E.
  assert (L : (stepTime (6 * minutes) <=? of_Z (Z.of_nat minutes)) = true)
    by (apply E, in_seq; lia).
  replace (6 * minutes)%nat with (k + (6 * minutes - k))%nat in L by lia.
  assert (B : (k + (6 * minutes - k) <= 6 * 2880)%nat) by lia.
  revert L B. generalize (6 * minutes - k)%nat. intros d.
  induction d as [|d IH]; intros L B.
  - now rewrite Nat.add_0_r in L.
  - apply IH; [|lia].
    apply leb_trans with (y := stepTime (k + S d)); [|exact L].
    replace (k + S d)%nat with (S (k + d)) by lia.
    apply G, in_seq. lia.
Qed.

(** X7.  On binary64, for a whole number of minutes up to 2880, events
    later than the duration that follow, in the list, events within the
    duration leave the series as it is without them. *)
Theorem late_events_ignored (events late : list (DoseEvent float))
    (params : PKParameters float) (minutes : nat) (drugType : string) :
  (minutes <= 2880)%nat ->
  Forall (fun e => (evt_time e <=? of_Z (Z.of_nat minutes)) = true) events ->
  Forall (fun e => (of_Z (Z.of_nat minutes) <? evt_time e) = true) late ->
  sort (events ++ late) = (sort events ++ sort late)%list /\
  simulateConcentration (events ++ late) params (of_Z (Z.of_nat minutes))
    drugType
  = simulateConcentration events params (of_Z (Z.of_nat minutes)) drugType.
Proof.
  intros M Fe Fl.
  assert (S : sort (events ++ late) = (sort events ++ sort late)%list).
  { apply sort_app. eapply Forall_impl; [|exact Fe]. intros x Hx.
    eapply Forall_impl; [|exact Fl]. intros y Hy.
    unfold comparator. apply sub_not_negative.
    now apply leb_ltb_trans with (y := of_Z (Z.of_nat minutes)). }
  split; [exact S|].
  unfold simulateConcentration.
  destruct (_ || _)%bool; [reflexivity|]. cbv zeta.
  rewrite (whole_minutes_count M). f_equal. f_equal. rewrite S.
  apply runSteps_tail. intros k Hk.
  apply Forall_forall. intros y I.
  assert (Hy : (of_Z (Z.of_nat minutes) <? evt_time y) = true).
  { rewrite Forall_forall in Fl. apply Fl.
    apply (Permutation_in _ (sort_perm late)), I. }
  unfold dueBy. cbn [nleb float_JSNumber].
  destruct (evt_time y <=? stepTime k) eqn:D; [|reflexivity].
  apply ltb_leb_false in Hy. rewrite <- Hy. symmetry.
  apply leb_trans with (y := stepTime k); [exact D|].
  apply stepTime_within; [exact M | lia].
Qed.

(** X7 on a bolus at 130 minutes and a run of two hours. *)
Lemma late_events_ignored_witness :
  sort ([bolus 0 6] ++ [bolus 130 5])
  = (sort [bolus 0 6] ++ sort [bolus 130 5])%list /\
  simulateConcentration ([bolus 0 6] ++ [bolus 130 5]) neutral
    (of_Z (Z.of_nat 120)) "Fentanyl"
  = simulateConcentration [bolus 0 6] neutral (of_Z (Z.of_nat 120))
      "Fentanyl".
Proof.
  apply (@late_events_ignored [bolus 0 6] [bolus 130 5] neutral 120
           "Fentanyl").
  - lia.
  - repeat constructor.
  - repeat constructor.
Defined.

(** With a duration that is no whole number of minutes the last
    iteration can lie after the duration: [0.99999999999999989 / dt]
    rounds to 6, and a bolus at minute 1 is handled by the iteration at
    time 1. *)
Lemma last_iteration_after_duration :
  (0.99999999999999989 <? 1) = true /\
  simulateConcentration [bolus 1 6] neutral 0.99999999999999989 "Fentanyl"
  = Some [{| time := 0; cp := 0; ce := 0 |};
          {| time := 1; cp := 5; ce := 0.1 |}] /\
  simulateConcentration [] neutral 0.99999999999999989 "Fentanyl"
  = Some [{| time := 0; cp := 0; ce := 0 |};
          {| time := 1; cp := 0; ce := 0 |}].
Proof. repeat split; vm_compute; reflexivity. Qed.

End LateFacts.
